(** * Streaming transcription sessions: token aggregation and rendering

    A shallow embedding of the Python sources

    - [src/stream/soniox_realtime.py]   (module [SonioxRealtime])
    - [src/ui/soniox_ui.py]             (module [SonioxUI])
    - [src/stream/soniox_multilingual_stream.py] (module [Multilingual])
    - [src/stream/paper_stt_based.py]   (module [Paper])
    - [src/stream/gcloud_stt_realtime.py] (module [Gcloud])

    first as functions of what arrives, then, for the two sessions with a
    polling consumer, as threads that interleave on the shared object
    (modules [GcloudThreads] and [SonioxUIThreads]), then the
    configuration, the entry points and the callbacks of the same files
    (modules [RealtimeSession], [MultilingualSession], [UISession] and
    [GcloudSession]), followed by the properties of the specification
    stated over them and by further properties of the code. *)

From Stdlib Require Import NArith ZArith String Ascii Bool Lia.
From Stdlib Require DecimalString.
From stdpp Require Import base option list gmap.

Local Open Scope N_scope.

(** ** Python values *)

(** A Python [str] is a sequence of Unicode code points. *)
Abbreviation pystr := (list N).

(** An ASCII literal of the source, read as a [str]. *)
Fixpoint py (s : string) : pystr :=
  match s with
  | EmptyString => []
  | String a s' => N_of_ascii a :: py s'
  end.

Arguments py : simpl never.

(** The escape [\n]. *)
Definition nl : pystr := [10].

(** [sep.join(parts)]. *)
Fixpoint join (sep : pystr) (parts : list pystr) : pystr :=
  match parts with
  | [] => []
  | [p] => p
  | p :: rest => p ++ sep ++ join sep rest
  end.

(** [str.isspace] on one code point: the white-space table of CPython
    ([_PyUnicode_IsWhitespace]). *)
Definition isspace (c : N) : bool :=
  ((9 <=? c) && (c <=? 13)) || ((28 <=? c) && (c <=? 32))
  || (c =? 133) || (c =? 160) || (c =? 5760)
  || ((8192 <=? c) && (c <=? 8202))
  || (c =? 8232) || (c =? 8233) || (c =? 8239) || (c =? 8287)
  || (c =? 12288).

(** [text.lstrip()]. *)
Fixpoint lstrip (s : pystr) : pystr :=
  match s with
  | c :: s' => if isspace c then lstrip s' else s
  | [] => []
  end.

(** Truthiness of [d.get(key)] for a [str]-valued key: absent and empty
    are both falsy. *)
Definition truthy (v : option pystr) : bool :=
  match v with
  | Some (_ :: _) => true
  | _ => false
  end.

(** ** Exceptions *)

Inductive exn :=
| KeyError (key : pystr)           (* d[key] on a missing key *)
| ConnectionClosedOK               (* websockets.exceptions.ConnectionClosedOK *)
| KeyboardInterrupt                (* Ctrl+C in the main thread *)
| OtherException (msg : pystr).    (* any other [Exception]; [msg] is [str(e)] *)

(** [str(e)] as interpolated by [f"{e}"]. *)
Definition str_exn (e : exn) : pystr :=
  match e with
  | KeyError key => py "'" ++ key ++ py "'"
  | ConnectionClosedOK => []
  | KeyboardInterrupt => []
  | OtherException msg => msg
  end.

(** [isinstance(e, Exception)]: [KeyboardInterrupt] derives from
    [BaseException] only. *)
Definition is_Exception (e : exn) : bool :=
  match e with
  | KeyboardInterrupt => false
  | _ => true
  end.

Inductive result (A : Type) :=
| Ok (a : A)
| Raise (e : exn).
Arguments Ok {A} a.
Arguments Raise {A} e.

(** The exception monad: [x ← m; k] runs [m] and, unless it raised,
    continues with [k]. *)
#[global] Instance result_ret : MRet result := fun _ a => Ok a.
#[global] Instance result_bind : MBind result := fun _ _ k m =>
  match m with
  | Ok a => k a
  | Raise e => Raise e
  end.

(** [for x in xs: s = body(s, x)], leaving the loop at the first
    exception. *)
Fixpoint for_each {A V} (body : V → A → result V) (xs : list A) (s : V)
  : result V :=
  match xs with
  | [] => Ok s
  | x :: rest => s' ← body s x; for_each body rest s'
  end.

(** ** Tokens and responses of the Soniox websocket API *)

(** A token is a JSON object; only the keys the programs read are kept.
    [None] stands for an absent key.  [is_final] is the truthiness of
    [token.get("is_final")].  [speaker] and [language] are kept as the
    text their value formats to. *)
Record Token := {
  text : option pystr;
  is_final : bool;
  speaker : option pystr;
  language : option pystr;
  translation_status : option pystr
}.

(** A decoded server message ([res = json.loads(message)]). *)
Record Response := {
  error_code : option pystr;
  error_message : option pystr;
  tokens : list Token;
  finished : bool
}.

(** ** The pieces a renderer appends to [text_parts]

    Every [text_parts.append(...)] of the two renderers appends one of
    five kinds of string; the constructor records which, [part_str] is the
    string itself. *)
Inductive part :=
| ParagraphBreak                                        (* "\n\n" *)
| SpeakerLabel (sp : pystr)                             (* f"Speaker {current_speaker}:" *)
| LanguageTag (is_translation : bool) (lang : pystr)    (* f"\n{prefix}[{current_language}] " *)
| TokenText (t : pystr)                                 (* text *)
| Terminator.                                           (* "\n===============================" *)

Definition terminator : pystr := nl ++ py "===============================".

Definition part_str (p : part) : pystr :=
  match p with
  | ParagraphBreak => nl ++ nl
  | SpeakerLabel sp => py "Speaker " ++ sp ++ py ":"
  | LanguageTag is_translation lang =>
      let prefix := if is_translation then py "[Translation] " else [] in
      nl ++ prefix ++ py "[" ++ lang ++ py "] "
  | TokenText t => t
  | Terminator => terminator
  end.

(** [text_parts] joined with the empty separator. *)
Definition join_parts (text_parts : list part) : pystr :=
  join [] (part_str <$> text_parts).

(** The local variables of a renderer's loop. *)
Record render_vars := {
  text_parts : list part;
  current_speaker : option pystr;
  current_language : option pystr
}.

(** ** The websocket as the receive loop sees it *)

(** What one [ws.recv()] followed by [json.loads(message)] does. *)
Inductive recv_outcome :=
| Message (res : Response)
| Raises (e : exn).

(** How a receive loop is left: by [break] (or a false loop condition),
    by an exception, or not at all because [ws.recv()] is still blocked
    when the script of arrivals ends. *)
Inductive loop_exit :=
| Break
| Raised (e : exn)
| Blocked.

Fixpoint is_prefix (p s : pystr) : bool :=
  match p, s with
  | [], _ => true
  | a :: p', b :: s' => (a =? b) && is_prefix p' s'
  | _ :: _, [] => false
  end.

(** [s.split(sep)[0]] for a non-empty [sep]: the part of [s] before the
    first occurrence of [sep]. *)
Fixpoint before_first (sep s : pystr) : pystr :=
  match s with
  | [] => []
  | c :: s' => if is_prefix sep s then [] else c :: before_first sep s'
  end.

(** ** [src/stream/soniox_realtime.py] *)
Module SonioxRealtime.

(** Body of the [for token in final_tokens + non_final_tokens] loop of
    [render_tokens]. *)
Definition render_body (v : render_vars) (token : Token) : result render_vars :=
  match text token with
  | None => Raise (KeyError (py "text"))
  | Some text =>
      let is_translation :=
        bool_decide (translation_status token = Some (py "translation")) in
      (* Speaker changed -> add a speaker tag. *)
      let v :=
        match speaker token with
        | Some sp =>
            if bool_decide (Some sp ≠ current_speaker v) then
              let parts :=
                match current_speaker v with
                | Some _ => text_parts v ++ [ParagraphBreak]
                | None => text_parts v
                end in
              {| text_parts := parts ++ [SpeakerLabel sp];
                 current_speaker := Some sp;
                 current_language := None |}
            else v
        | None => v
        end in
      (* Language changed -> add a language or translation tag. *)
      match language token with
      | Some lang =>
          if bool_decide (Some lang ≠ current_language v) then
            Ok {| text_parts :=
                    text_parts v ++ [LanguageTag is_translation lang]
                                 ++ [TokenText (lstrip text)];
                  current_speaker := current_speaker v;
                  current_language := Some lang |}
          else
            Ok {| text_parts := text_parts v ++ [TokenText text];
                  current_speaker := current_speaker v;
                  current_language := current_language v |}
      | None =>
          Ok {| text_parts := text_parts v ++ [TokenText text];
                current_speaker := current_speaker v;
                current_language := current_language v |}
      end
  end.

(** [text_parts] of [render_tokens] just before the final [join]. *)
Definition render_parts (final_tokens non_final_tokens : list Token)
  : result (list part) :=
  v ← for_each render_body (final_tokens ++ non_final_tokens)
        {| text_parts := []; current_speaker := None; current_language := None |};
  Ok (text_parts v ++ [Terminator]).

Definition render_tokens (final_tokens non_final_tokens : list Token)
  : result pystr :=
  parts ← render_parts final_tokens non_final_tokens;
  Ok (join_parts parts).


(** The loop of [run_session] over the tokens of one response:
    [final_tokens] is the session's list, [non_final_tokens] starts
    empty for every response. *)
Definition collect_body (acc : list Token * list Token) (token : Token)
  : list Token * list Token :=
  let '(final_tokens, non_final_tokens) := acc in
  if truthy (text token) then
    if is_final token then
      (* Final tokens are returned once and should be appended to final_tokens. *)
      (final_tokens ++ [token], non_final_tokens)
    else
      (* Non-final tokens update as more audio arrives; reset them on every response. *)
      (final_tokens, non_final_tokens ++ [token])
  else acc.

Definition collect_tokens (final_tokens : list Token) (res : Response)
  : list Token * list Token :=
  fold_left collect_body (tokens res) (final_tokens, []).

(** The variables of [run_session] that the receive loop touches, and
    what it has written to standard output. *)
Record session_vars := {
  final_tokens : list Token;
  stop_event : bool;
  printed : list pystr
}.

Definition print (line : pystr) (st : session_vars) : session_vars :=
  {| final_tokens := final_tokens st; stop_event := stop_event st;
     printed := printed st ++ [line] |}.

Definition set_stop_event (st : session_vars) : session_vars :=
  {| final_tokens := final_tokens st; stop_event := true;
     printed := printed st |}.

(** The [while True] loop of [run_session], one arrival per iteration. *)
Fixpoint receive_loop (script : list recv_outcome) (st : session_vars)
  : session_vars * loop_exit :=
  match script with
  | [] => (st, Blocked)
  | Raises e :: _ => (st, Raised e)
  | Message res :: script' =>
      match error_code res with
      | Some code =>
          (* Error from server. *)
          match error_message res with
          | Some msg =>
              (print (py "Error: " ++ code ++ py " - " ++ msg ++ nl) st, Break)
          | None => (st, Raised (KeyError (py "error_message")))
          end
      | None =>
          (* Parse tokens from current response. *)
          let '(final_tokens', non_final_tokens) :=
            collect_tokens (final_tokens st) res in
          let st := {| final_tokens := final_tokens';
                       stop_event := stop_event st;
                       printed := printed st |} in
          (* Render tokens. *)
          match render_tokens final_tokens' non_final_tokens with
          | Raise e => (st, Raised e)
          | Ok text =>
              let st := print (before_first terminator text ++ [13]) st in
              (* Session finished. *)
              if finished res then
                (print (nl ++ py "Session finished by server." ++ nl) st, Break)
              else receive_loop script' st
          end
      end
  end.

(** The [try: while True: ... except ...] statement of [run_session],
    started with [final_tokens = []]. *)
Definition receive (script : list recv_outcome) : session_vars * loop_exit :=
  let '(st, exit) :=
    receive_loop script
      {| final_tokens := []; stop_event := false; printed := [] |} in
  match exit with
  | Raised KeyboardInterrupt =>
      (set_stop_event
         (print (nl ++ py "Interrupted by user. Stopping..." ++ nl) st), Break)
  | Raised ConnectionClosedOK =>
      (* Normal, server closed after finished. *)
      (print (py "Connection closed by server." ++ nl) st, Break)
  | Raised e =>
      (set_stop_event (print (py "Error: " ++ str_exn e ++ nl) st), Break)
  | _ => (st, exit)
  end.

End SonioxRealtime.

(** ** [src/ui/soniox_ui.py] *)
Module SonioxUI.

(** The attributes of a [TranscriptionSession].  [ws] is the websocket
    connection (a handle), [stop_event] whether the [threading.Event] is
    set, [audio_thread] and [receive_thread] whether a [Thread] object has
    been stored. *)
Record TranscriptionSession := {
  api_key : pystr;
  audio_format : pystr;
  translation : pystr;
  ws : option N;
  stop_event : bool;
  audio_thread : bool;
  receive_thread : bool;
  final_tokens : list Token;
  is_running : bool;
  current_transcript : pystr
}.

(** [TranscriptionSession.__init__]. *)
Definition init (api_key audio_format translation : pystr)
  : TranscriptionSession :=
  {| api_key := api_key; audio_format := audio_format;
     translation := translation;
     ws := None; stop_event := false;
     audio_thread := false; receive_thread := false;
     final_tokens := []; is_running := false; current_transcript := [] |}.

Definition set_final_tokens (l : list Token) (self : TranscriptionSession) :=
  {| api_key := api_key self; audio_format := audio_format self;
     translation := translation self; ws := ws self;
     stop_event := stop_event self; audio_thread := audio_thread self;
     receive_thread := receive_thread self;
     final_tokens := l; is_running := is_running self;
     current_transcript := current_transcript self |}.

Definition set_current_transcript (t : pystr) (self : TranscriptionSession) :=
  {| api_key := api_key self; audio_format := audio_format self;
     translation := translation self; ws := ws self;
     stop_event := stop_event self; audio_thread := audio_thread self;
     receive_thread := receive_thread self;
     final_tokens := final_tokens self; is_running := is_running self;
     current_transcript := t |}.

Definition set_stop_event (b : bool) (self : TranscriptionSession) :=
  {| api_key := api_key self; audio_format := audio_format self;
     translation := translation self; ws := ws self;
     stop_event := b; audio_thread := audio_thread self;
     receive_thread := receive_thread self;
     final_tokens := final_tokens self; is_running := is_running self;
     current_transcript := current_transcript self |}.

Definition set_is_running (b : bool) (self : TranscriptionSession) :=
  {| api_key := api_key self; audio_format := audio_format self;
     translation := translation self; ws := ws self;
     stop_event := stop_event self; audio_thread := audio_thread self;
     receive_thread := receive_thread self;
     final_tokens := final_tokens self; is_running := b;
     current_transcript := current_transcript self |}.

Definition set_ws (w : option N) (self : TranscriptionSession) :=
  {| api_key := api_key self; audio_format := audio_format self;
     translation := translation self; ws := w;
     stop_event := stop_event self; audio_thread := audio_thread self;
     receive_thread := receive_thread self;
     final_tokens := final_tokens self; is_running := is_running self;
     current_transcript := current_transcript self |}.

Definition set_threads (self : TranscriptionSession) :=
  {| api_key := api_key self; audio_format := audio_format self;
     translation := translation self; ws := ws self;
     stop_event := stop_event self; audio_thread := true;
     receive_thread := true;
     final_tokens := final_tokens self; is_running := is_running self;
     current_transcript := current_transcript self |}.

(** Body of the loop of [TranscriptionSession.render_tokens]. *)
Definition render_body (v : render_vars) (token : Token) : result render_vars :=
  match text token with
  | None => Raise (KeyError (py "text"))
  | Some text =>
      let is_translation :=
        bool_decide (translation_status token = Some (py "translation")) in
      let v :=
        match speaker token with
        | Some sp =>
            if bool_decide (Some sp ≠ current_speaker v) then
              let parts :=
                match current_speaker v with
                | Some _ => text_parts v ++ [ParagraphBreak]
                | None => text_parts v
                end in
              {| text_parts := parts ++ [SpeakerLabel sp];
                 current_speaker := Some sp;
                 current_language := None |}
            else v
        | None => v
        end in
      match language token with
      | Some lang =>
          if bool_decide (Some lang ≠ current_language v) then
            Ok {| text_parts :=
                    text_parts v ++ [LanguageTag is_translation lang]
                                 ++ [TokenText (lstrip text)];
                  current_speaker := current_speaker v;
                  current_language := Some lang |}
          else
            Ok {| text_parts := text_parts v ++ [TokenText text];
                  current_speaker := current_speaker v;
                  current_language := current_language v |}
      | None =>
          Ok {| text_parts := text_parts v ++ [TokenText text];
                current_speaker := current_speaker v;
                current_language := current_language v |}
      end
  end.

(** [text_parts] of [render_tokens] just before the final [join]. *)
Definition render_parts (final_tokens non_final_tokens : list Token)
  : result (list part) :=
  v ← for_each render_body (final_tokens ++ non_final_tokens)
        {| text_parts := []; current_speaker := None; current_language := None |};
  Ok (text_parts v).

Definition render_tokens (final_tokens non_final_tokens : list Token)
  : result pystr :=
  parts ← render_parts final_tokens non_final_tokens;
  Ok (join_parts parts).

(** The loop of [receive_messages] over the tokens of one response. *)
Definition collect_body (acc : list Token * list Token) (token : Token)
  : list Token * list Token :=
  let '(final_tokens, non_final_tokens) := acc in
  if truthy (text token) then
    if is_final token then (final_tokens ++ [token], non_final_tokens)
    else (final_tokens, non_final_tokens ++ [token])
  else acc.

Definition collect_tokens (final_tokens : list Token) (res : Response)
  : list Token * list Token :=
  fold_left collect_body (tokens res) (final_tokens, []).

(** One iteration of the receive thread, as the environment drives it:
    [stop_meanwhile] tells whether the consumer's [stop()] has set the
    stop event while [self.ws.recv()] was blocking, [outcome] what the
    call then did. *)
Record arrival := {
  stop_meanwhile : bool;
  outcome : recv_outcome
}.

(** The [while not self.stop_event.is_set()] loop of [receive_messages]. *)
Fixpoint receive_loop (script : list arrival) (self : TranscriptionSession)
  : TranscriptionSession * loop_exit :=
  if stop_event self then (self, Break) else
  match script with
  | [] => (self, Blocked)
  | a :: script' =>
      let self :=
        if stop_meanwhile a then set_stop_event true self else self in
      match outcome a with
      | Raises e => (self, Raised e)
      | Message res =>
          match error_code res with
          | Some code =>
              match error_message res with
              | Some msg =>
                  (set_current_transcript
                     (py "Error: " ++ code ++ py " - " ++ msg) self, Break)
              | None => (self, Raised (KeyError (py "error_message")))
              end
          | None =>
              let '(final_tokens', non_final_tokens) :=
                collect_tokens (final_tokens self) res in
              let self := set_final_tokens final_tokens' self in
              match render_tokens final_tokens' non_final_tokens with
              | Raise e => (self, Raised e)
              | Ok text =>
                  let self := set_current_transcript text self in
                  if finished res then (self, Break)
                  else receive_loop script' self
              end
          end
      end
  end.

(** [receive_messages]: the loop inside its [try ... except] statement.
    The second component is how the thread's target function ends. *)
Definition receive_messages (script : list arrival) (self : TranscriptionSession)
  : TranscriptionSession * loop_exit :=
  let '(self, exit) := receive_loop script self in
  match exit with
  | Raised ConnectionClosedOK => (self, Break)
  | Raised e =>
      if is_Exception e then
        if stop_event self then (self, Break)
        else
          (set_current_transcript
             (current_transcript self ++ nl ++ nl ++ py "Error: " ++ str_exn e)
             self, Break)
      else (self, Raised e)
  | _ => (self, exit)
  end.

(** What [start] and [stop] do to the outside world. *)
Inductive effect :=
| Send_config (conn : N)      (* self.ws.send(json.dumps(config)) *)
| Start_audio_thread
| Start_receive_thread
| Join_audio_thread           (* self.audio_thread.join(timeout=2.0) *)
| Join_receive_thread         (* self.receive_thread.join(timeout=2.0) *)
| Close (conn : N).           (* self.ws.close() *)

Definition listening : pystr :=
  [127908] ++ py " Listening... Start speaking!" ++ nl ++ nl.

(** [start], given what [connect(SONIOX_WEBSOCKET_URL)] and the first
    [send] do. *)
Definition start (connect : result N) (send : result ())
    (self : TranscriptionSession)
  : result pystr * TranscriptionSession * list effect :=
  if is_running self then (Ok (py "Session already running"), self, [])
  else
    let failed (e : exn) (self : TranscriptionSession) (effs : list effect) :=
      if is_Exception e then
        (Ok ([10060] ++ py " Failed to start: " ++ str_exn e),
         set_is_running false self, effs)
      else (Raise e, self, effs) in
    match connect with
    | Raise e => failed e self []
    | Ok conn =>
        let self := set_ws (Some conn) self in
        match send with
        | Raise e => failed e self []
        | Ok _ =>
            let self := set_stop_event false self in
            let self := set_final_tokens [] self in
            let self := set_current_transcript listening self in
            let self := set_is_running true self in
            let self := set_threads self in
            (Ok ([9989] ++ py " Recording started"), self,
             [Send_config conn; Start_audio_thread; Start_receive_thread])
        end
    end.

(** [stop]. *)
Definition stop (self : TranscriptionSession)
  : pystr * TranscriptionSession * list effect :=
  if negb (is_running self) then (py "No active session", self, [])
  else
    let self := set_stop_event true self in
    let self := set_is_running false self in
    let joins :=
      (if audio_thread self then [Join_audio_thread] else [])
      ++ (if receive_thread self then [Join_receive_thread] else []) in
    match ws self with
    | Some conn =>
        ([9209; 65039] ++ py " Recording stopped", set_ws None self,
         joins ++ [Close conn])
    | None => ([9209; 65039] ++ py " Recording stopped", self, joins)
    end.

Definition get_transcript (self : TranscriptionSession) : pystr :=
  current_transcript self.

(** *** The capture thread *)

(** What [stream_audio_from_mic] does to the outside world. *)
Inductive mic_effect :=
| Mic_open                    (* audio.open(...) returned a stream *)
| Send_audio (conn : N)       (* self.ws.send(data) *)
| Mic_close                   (* stream.stop_stream(); stream.close() *)
| Mic_terminate               (* audio.terminate() *)
| Send_end (conn : N)         (* self.ws.send of the empty frame *)
| Print (line : pystr).

(** One iteration of the capture loop as the environment drives it: what
    [stream.read] and [self.ws.send] do, and whether the consumer has set
    the stop event by the time the loop condition is tested again. *)
Record capture := {
  read : result ();
  send : result ();
  stop_after : bool
}.

Definition add_effects (effs : list mic_effect)
    (r : list mic_effect * loop_exit) : list mic_effect * loop_exit :=
  (effs ++ r.1, r.2).

(** The [while not self.stop_event.is_set()] loop of
    [stream_audio_from_mic]. *)
Fixpoint capture_loop (script : list capture) (stopped : bool) (ws : option N)
  : list mic_effect * loop_exit :=
  if stopped then ([], Break) else
  match script with
  | [] => ([], Blocked)
  | c :: script' =>
      match read c with
      | Raise e => ([], Raised e)
      | Ok _ =>
          match ws with
          | Some conn =>
              match send c with
              | Raise e => ([], Raised e)
              | Ok _ =>
                  add_effects [Send_audio conn]
                    (capture_loop script' (stop_after c) ws)
              end
          | None => capture_loop script' (stop_after c) ws
          end
      end
  end.

(** [stream_audio_from_mic], given what [audio.open], the capture loop
    and the final [send] of the empty frame do.  The statement is [try ... finally]
    with no [except] clause: an exception of the [try] block leaves the
    function after the [finally] block has run. *)
Definition stream_audio_from_mic (open : result ()) (script : list capture)
    (send_end : result ()) (self : TranscriptionSession)
  : list mic_effect * loop_exit :=
  let body :=
    match open with
    | Raise e => ([], Raised e)
    | Ok _ =>
        let '(effs, exit) :=
          capture_loop script (stop_event self) (ws self) in
        match exit with
        | Break => (Mic_open :: effs ++ [Mic_close], Break)
        | _ => (Mic_open :: effs, exit)
        end
    end in
  let finally :=
    Mic_terminate ::
    match ws self with
    | Some conn =>
        match send_end with
        | Ok _ => [Send_end conn]
        | Raise e => [Print (py "Error sending end frame: " ++ str_exn e ++ nl)]
        end
    | None => []
    end in
  match body.2 with
  | Blocked => body
  | _ => (body.1 ++ finally, body.2)
  end.

End SonioxUI.

(** ** Script normalisation: [map_languages]

    [re] and [str.lower] consult the Unicode character database, which is
    not part of the sources: [isalnum] stands for [str.isalnum] on one
    code point and [lower] for [str.lower]. *)
Section ScriptNormalizer.

Context (isalnum : N → bool) (lower : pystr → pystr).

(** The class [[\w']] of the pattern: [\w] is an alphanumeric code point
    or the underscore. *)
Definition in_word_class (c : N) : bool :=
  isalnum c || (c =? 95) || (c =? 39).

(** The class [[.,!?;]]. *)
Definition in_punct_class (c : N) : bool :=
  (c =? 46) || (c =? 44) || (c =? 33) || (c =? 63) || (c =? 59).

Definition flush (word : pystr) : list pystr :=
  match word with
  | [] => []
  | _ => [word]
  end.

(** The scan of [re.findall(r"[\w']+|[.,!?;]", text)], left to right.
    [word] is the run of [[\w']] characters matched so far (greedy [+]);
    at a character outside the first alternative the run ends, the second
    alternative is tried on that character, and a character matching
    neither is skipped. *)
Fixpoint findall_from (word : pystr) (text : pystr) : list pystr :=
  match text with
  | [] => flush word
  | c :: text' =>
      if in_word_class c then findall_from (word ++ [c]) text'
      else
        flush word
        ++ (if in_punct_class c then [[c]] else [])
        ++ findall_from [] text'
  end.

Definition findall (text : pystr) : list pystr := findall_from [] text.

(** [re.match(r"[.,!?;]", word)] as a condition: the pattern matches at
    the start of [word]. *)
Definition match_punct (word : pystr) : bool :=
  match word with
  | c :: _ => in_punct_class c
  | [] => false
  end.

End ScriptNormalizer.

(** ** [src/stream/soniox_multilingual_stream.py] *)
Module Multilingual.
Section WithUnicode.

Context (isalnum : N → bool) (lower : pystr → pystr).

(** Body of the [for word in words] loop of [map_languages]. *)
Definition map_body (hindi_dict gujarati_dict : gmap (list N) (list N))
    (result : list pystr) (word : pystr) : list pystr :=
  if match_punct word then result ++ [word]
  else
    let lower_word := lower word in
    match hindi_dict !! lower_word with
    | Some native => result ++ [native]
    | None =>
        match gujarati_dict !! lower_word with
        | Some native => result ++ [native]
        | None => result ++ [word]
        end
    end.

Definition map_languages (text : pystr)
    (hindi_dict gujarati_dict : gmap (list N) (list N)) : pystr :=
  let words := findall isalnum text in
  join (py " ") (fold_left (map_body hindi_dict gujarati_dict) words []).

(** The texts [t["text"]] of [tokens] joined with the empty separator. *)
Fixpoint join_texts (tokens : list Token) : result pystr :=
  match tokens with
  | [] => Ok []
  | t :: rest =>
      match text t with
      | None => Raise (KeyError (py "text"))
      | Some s => tail ← join_texts rest; Ok (s ++ tail)
      end
  end.

(** One response of the [while True] loop of [run_session], after the
    [error_code] test: the line it prints, or the exception it raises. *)
Definition show_response (hindi_dict gujarati_dict : gmap (list N) (list N))
    (res : Response) : result pystr :=
  let all_tokens := tokens res in
  let final_tokens := filter (λ t, is_final t = true) all_tokens in
  let non_final_tokens := filter (λ t, is_final t = false) all_tokens in
  final_text ← join_texts final_tokens;
  non_final_text ← join_texts non_final_tokens;
  let mapped_final_text := map_languages final_text hindi_dict gujarati_dict in
  let mapped_non_final_text :=
    map_languages non_final_text hindi_dict gujarati_dict in
  Ok (mapped_final_text ++ mapped_non_final_text ++ replicate 20 32 ++ [13]).

(** The [while True] loop of [run_session]; the first component is what
    has been written to standard output. *)
Fixpoint receive_loop (hindi_dict gujarati_dict : gmap (list N) (list N))
    (script : list recv_outcome) (printed : list pystr)
  : list pystr * loop_exit :=
  match script with
  | [] => (printed, Blocked)
  | Raises e :: _ => (printed, Raised e)
  | Message res :: script' =>
      match error_code res with
      | Some code =>
          match error_message res with
          | Some msg =>
              (printed ++ [py "Error: " ++ code ++ py " - " ++ msg ++ nl], Break)
          | None => (printed, Raised (KeyError (py "error_message")))
          end
      | None =>
          match show_response hindi_dict gujarati_dict res with
          | Raise e => (printed, Raised e)
          | Ok line =>
              let printed := printed ++ [line] in
              if finished res then
                (printed ++ [nl ++ py "Session finished by server." ++ nl], Break)
              else receive_loop hindi_dict gujarati_dict script' printed
          end
      end
  end.

(** The [try: while True: ... except ... finally] statement of
    [run_session]: what is printed, how the statement is left, and
    whether the stop event is set afterwards. *)
Definition receive (hindi_dict gujarati_dict : gmap (list N) (list N))
    (script : list recv_outcome) : list pystr * loop_exit * bool :=
  let '(printed, exit) := receive_loop hindi_dict gujarati_dict script [] in
  match exit with
  | Blocked => (printed, Blocked, false)
  | Break => (printed, Break, true)
  | Raised KeyboardInterrupt =>
      (printed ++ [nl ++ py "Interrupted by user. Stopping..." ++ nl], Break, true)
  | Raised ConnectionClosedOK =>
      (printed ++ [nl ++ py "Connection closed normally." ++ nl], Break, true)
  | Raised e =>
      (printed ++ [py "Error: " ++ str_exn e ++ nl], Break, true)
  end.

End WithUnicode.
End Multilingual.

(** ** [src/stream/paper_stt_based.py] *)
Module Paper.
Section WithUnicode.

Context (isalnum : N → bool) (lower : pystr → pystr).

(** The two dictionaries of a [TerminalMultilingualASR]. *)
Record TerminalMultilingualASR := {
  hindi_dict : gmap (list N) (list N);
  gujarati_dict : gmap (list N) (list N)
}.

(** [TerminalMultilingualASR.map_languages]. *)
Fixpoint map_words (self : TerminalMultilingualASR) (words : list pystr)
    (result : list pystr) : list pystr :=
  match words with
  | [] => result
  | word :: words' =>
      if match_punct word then
        (* Skip punctuation *)
        map_words self words' (result ++ [word])
      else if bool_decide (is_Some (hindi_dict self !! lower word)) then
        (* Check in Hindi dictionary *)
        map_words self words'
          (result ++ [default word (hindi_dict self !! lower word)])
      else if bool_decide (is_Some (gujarati_dict self !! lower word)) then
        (* Check in Gujarati dictionary *)
        map_words self words'
          (result ++ [default word (gujarati_dict self !! lower word)])
      else map_words self words' (result ++ [word])
  end.

Definition map_languages (self : TerminalMultilingualASR) (text : pystr)
  : pystr :=
  let words := findall isalnum text in
  join (py " ") (map_words self words []).

End WithUnicode.
End Paper.

(** ** [src/stream/gcloud_stt_realtime.py] *)
Module Gcloud.

Definition LANGUAGE_CODES : list pystr :=
  [py "en-US"; py "hi-IN"; py "es-ES"; py "gu-IN";
   py "de-DE"; py "ja-JP"; py "zh-CN"; py "ar-SA"].

(** A [SpeechRecognitionAlternative]; [language_code] is [None] when the
    attribute is missing. *)
Record Alternative := {
  transcript : pystr;
  language_code : option pystr
}.

Record StreamingRecognitionResult := {
  alternatives : list Alternative;
  result_is_final : bool
}.

Record StreamingRecognizeResponse := {
  results : list StreamingRecognitionResult
}.

(** The attributes of a [TranscriptionManager].  [stream] is [None] or
    the [closed] flag of the [MicrophoneStream]; times are clock
    readings. *)
Record TranscriptionManager := {
  is_recording : bool;
  stream : option bool;
  full_transcript : pystr;
  interim_transcript : pystr;
  detected_language : pystr;
  last_update_time : Z;
  last_speech_time : Z;
  language_history : list pystr
}.

(** [TranscriptionManager.__init__]. *)
Definition init : TranscriptionManager :=
  {| is_recording := false; stream := None;
     full_transcript := []; interim_transcript := [];
     detected_language := []; last_update_time := 0%Z;
     last_speech_time := 0%Z; language_history := [] |}.

Definition set_is_recording (b : bool) (self : TranscriptionManager) :=
  {| is_recording := b; stream := stream self;
     full_transcript := full_transcript self;
     interim_transcript := interim_transcript self;
     detected_language := detected_language self;
     last_update_time := last_update_time self;
     last_speech_time := last_speech_time self;
     language_history := language_history self |}.

Definition set_stream (st : option bool) (self : TranscriptionManager) :=
  {| is_recording := is_recording self; stream := st;
     full_transcript := full_transcript self;
     interim_transcript := interim_transcript self;
     detected_language := detected_language self;
     last_update_time := last_update_time self;
     last_speech_time := last_speech_time self;
     language_history := language_history self |}.

Definition set_full_transcript (t : pystr) (self : TranscriptionManager) :=
  {| is_recording := is_recording self; stream := stream self;
     full_transcript := t;
     interim_transcript := interim_transcript self;
     detected_language := detected_language self;
     last_update_time := last_update_time self;
     last_speech_time := last_speech_time self;
     language_history := language_history self |}.

Definition set_interim_transcript (t : pystr) (self : TranscriptionManager) :=
  {| is_recording := is_recording self; stream := stream self;
     full_transcript := full_transcript self;
     interim_transcript := t;
     detected_language := detected_language self;
     last_update_time := last_update_time self;
     last_speech_time := last_speech_time self;
     language_history := language_history self |}.

Definition set_detected_language (l : pystr) (self : TranscriptionManager) :=
  {| is_recording := is_recording self; stream := stream self;
     full_transcript := full_transcript self;
     interim_transcript := interim_transcript self;
     detected_language := l;
     last_update_time := last_update_time self;
     last_speech_time := last_speech_time self;
     language_history := language_history self |}.

Definition set_last_update_time (t : Z) (self : TranscriptionManager) :=
  {| is_recording := is_recording self; stream := stream self;
     full_transcript := full_transcript self;
     interim_transcript := interim_transcript self;
     detected_language := detected_language self;
     last_update_time := t;
     last_speech_time := last_speech_time self;
     language_history := language_history self |}.

Definition set_last_speech_time (t : Z) (self : TranscriptionManager) :=
  {| is_recording := is_recording self; stream := stream self;
     full_transcript := full_transcript self;
     interim_transcript := interim_transcript self;
     detected_language := detected_language self;
     last_update_time := last_update_time self;
     last_speech_time := t;
     language_history := language_history self |}.

Definition set_language_history (h : list pystr) (self : TranscriptionManager) :=
  {| is_recording := is_recording self; stream := stream self;
     full_transcript := full_transcript self;
     interim_transcript := interim_transcript self;
     detected_language := detected_language self;
     last_update_time := last_update_time self;
     last_speech_time := last_speech_time self;
     language_history := h |}.

(** [start_transcription], as far as the attributes go (the thread it
    starts runs [_transcribe]); [now] is [time.time()]. *)
Definition start_transcription (now : Z) (self : TranscriptionManager)
  : TranscriptionManager :=
  if is_recording self then self
  else
    {| is_recording := true; stream := stream self;
       full_transcript := []; interim_transcript := [];
       detected_language := py "Detecting...";
       last_update_time := last_update_time self;
       last_speech_time := now; language_history := [] |}.

Section WithUnicode.

(** [upper] stands for [str.upper]. *)
Context (upper : pystr → pystr).

Definition lang_map : gmap (list N) (list N) :=
  list_to_map
    [(py "en-US", py "EN"); (py "hi-IN", py "HI"); (py "es-ES", py "ES");
     (py "gu-IN", py "GU"); (py "de-DE", py "DE"); (py "ja-JP", py "JA");
     (py "zh-CN", py "ZH"); (py "ar-SA", py "AR")].

(** [_get_language_name]. *)
Definition _get_language_name (lang_code : pystr) : pystr :=
  default (upper (take 2 lang_code)) (lang_map !! lang_code).

(** What the next step of [for response in responses] does, and the
    clock readings of the two [time.time()] calls of the iteration; 
    [stop_meanwhile] tells whether [stop_transcription] has cleared
    [is_recording] while the iterator was blocking. *)
Inductive next_outcome :=
| Next (response : StreamingRecognizeResponse)
| StopIteration
| NextRaises (e : exn).

Record arrival := {
  stop_meanwhile : bool;
  next : next_outcome;
  speech_clock : Z;
  update_clock : Z
}.

(** The first [with self.lock] block of the loop body. *)
Definition note_language (current_lang : pystr) (self : TranscriptionManager)
  : TranscriptionManager :=
  let self := set_detected_language current_lang self in
  if bool_decide (current_lang ∈ language_history self) then self
  else set_language_history (language_history self ++ [current_lang]) self.

(** The second [with self.lock] block of the loop body. *)
Definition note_transcript (is_final : bool) (current_lang transcript : pystr)
    (now : Z) (self : TranscriptionManager) : TranscriptionManager :=
  let self :=
    if is_final then
      let self :=
        if bool_decide (1 < length (language_history self))%nat
           && truthy (Some current_lang) then
          let lang_tag := _get_language_name current_lang in
          set_full_transcript
            (full_transcript self
               ++ py "[" ++ lang_tag ++ py "] " ++ transcript ++ py " ") self
        else
          set_full_transcript (full_transcript self ++ transcript ++ py " ") self
      in
      set_interim_transcript [] self
    else
      set_interim_transcript transcript self in
  set_last_update_time now self.

(** [_process_responses]; [last_detected_lang] is its local variable. *)
Fixpoint process_loop (script : list arrival)
    (last_detected_lang : option pystr) (self : TranscriptionManager)
  : TranscriptionManager * loop_exit :=
  match script with
  | [] => (self, Blocked)
  | a :: script' =>
      let self :=
        if stop_meanwhile a then set_is_recording false self else self in
      match next a with
      | NextRaises e => (self, Raised e)
      | StopIteration => (self, Break)
      | Next response =>
          if negb (is_recording self) then (self, Break)
          else
            match results response with
            | [] => process_loop script' last_detected_lang self
            | result :: _ =>
                match alternatives result with
                | [] => process_loop script' last_detected_lang self
                | alternative :: _ =>
                    let transcript := transcript alternative in
                    let self := set_last_speech_time (speech_clock a) self in
                    let current_lang :=
                      if truthy (language_code alternative)
                      then default [] (language_code alternative)
                      else default [] (head LANGUAGE_CODES) in
                    let changed :=
                      bool_decide (Some current_lang ≠ last_detected_lang)
                      && truthy (Some current_lang) in
                    let last_detected_lang :=
                      if changed then Some current_lang
                      else last_detected_lang in
                    let self :=
                      if changed then note_language current_lang self
                      else self in
                    let self :=
                      note_transcript (result_is_final result) current_lang
                        transcript (update_clock a) self in
                    process_loop script' last_detected_lang self
                end
            end
      end
  end.

Definition _process_responses (script : list arrival)
    (self : TranscriptionManager) : TranscriptionManager * loop_exit :=
  process_loop script None self.

(** [_transcribe], given what [speech.SpeechClient()] and
    [MicrophoneStream(RATE, CHUNK)] do.  Leaving the [with] statement
    closes the stream. *)
Definition _transcribe (client mic : result ()) (script : list arrival)
    (self : TranscriptionManager) : TranscriptionManager * loop_exit :=
  let '(self, exit) :=
    match client with
    | Raise e => (self, Raised e)
    | Ok _ =>
        match mic with
        | Raise e => (self, Raised e)
        | Ok _ =>
            let self := set_stream (Some false) self in
            let '(self, exit) := _process_responses script self in
            match exit with
            | Blocked => (self, Blocked)
            | _ => (set_stream (Some true) self, exit)
            end
        end
    end in
  match exit with
  | Raised e =>
      if is_Exception e then
        (set_is_recording false
           (set_full_transcript (py "Error: " ++ str_exn e) self), Break)
      else (self, Raised e)
  | _ => (self, exit)
  end.

(** [get_current_transcript]. *)
Definition get_current_transcript (self : TranscriptionManager)
  : pystr * pystr :=
  let lang_display :=
    if bool_decide (detected_language self ≠ py "Detecting...")
    then detected_language self else py "en-US" in
  if truthy (Some (interim_transcript self)) then
    (full_transcript self ++ interim_transcript self,
     lang_display ++ py " (Live)")
  else (full_transcript self, lang_display).

End WithUnicode.
End Gcloud.


(** ** Threads that share an object

    The receive thread and a consumer that polls the transcript run
    concurrently on one object.  A thread is a tree of actions: each
    [Load] or [Store] is one access to an attribute of the shared object
    (the interpreter switches threads only between such accesses),
    [Acquire] and [Release] are the entry and the exit of a
    [with self.lock:] block, [Block] is a call that waits for the network
    or the device. *)

Inductive prog (T R : Type) : Type :=
| Ret (r : R)
| Acquire (k : prog T R)
| Release (k : prog T R)
| Load {A : Type} (get : T → A) (k : A → prog T R)
| Store (set : T → T) (k : prog T R)
| Block (k : prog T R).
Arguments Ret {T R} r.
Arguments Acquire {T R} k.
Arguments Release {T R} k.
Arguments Load {T R A} get k.
Arguments Store {T R} set k.
Arguments Block {T R} k.

(** [p] followed by [f] applied to its result. *)
Fixpoint then_ {T A B} (p : prog T A) (f : A → prog T B) : prog T B :=
  match p with
  | Ret a => f a
  | Acquire k => Acquire (then_ k f)
  | Release k => Release (then_ k f)
  | Load get k => Load get (λ a, then_ (k a) f)
  | Store set k => Store set (then_ k f)
  | Block k => Block (then_ k f)
  end.

(** A thread running alone, to its end. *)
Fixpoint exec {T R} (p : prog T R) (s : T) : T * R :=
  match p with
  | Ret r => (s, r)
  | Acquire k => exec k s
  | Release k => exec k s
  | Load get k => exec (k (get s)) s
  | Store set k => exec k (set s)
  | Block k => exec k s
  end.

(** One action of a thread running alone; the flag tells whether the
    thread is inside a [with self.lock:] block. *)
Definition alone_step {T R} (c : prog T R * T * bool) : prog T R * T * bool :=
  let '(p, s, inside) := c in
  match p with
  | Ret _ => c
  | Acquire k => (k, s, true)
  | Release k => (k, s, false)
  | Load get k => (k (get s), s, inside)
  | Store set k => (k, set s, inside)
  | Block k => (k, s, inside)
  end.

(** [n] actions of a thread running alone. *)
Fixpoint alone {T R} (n : nat) (c : prog T R * T * bool) : prog T R * T * bool :=
  match n with
  | O => c
  | S n' => alone n' (alone_step c)
  end.

Inductive thread := Receiver | Consumer.

(** One action of thread [me], when it can take one: a finished thread
    has none, and [Acquire] waits while the lock is held
    ([threading.Lock] is not reentrant). *)
Definition step_prog {T R} (me : thread) (p : prog T R) (s : T)
    (holder : option thread) : option (prog T R * T * option thread) :=
  match p with
  | Ret _ => None
  | Acquire k =>
      match holder with
      | None => Some (k, s, Some me)
      | Some _ => None
      end
  | Release k => Some (k, s, None)
  | Load get k => Some (k (get s), s, holder)
  | Store set k => Some (k, set s, holder)
  | Block k => Some (k, s, holder)
  end.

(** The receive thread and one call of the consumer, on the shared
    object. *)
Record system (T RW RR : Type) := {
  shared : T;
  holder : option thread;
  receiver : prog T RW;
  consumer : prog T RR
}.
Arguments shared {T RW RR} _.
Arguments holder {T RW RR} _.
Arguments receiver {T RW RR} _.
Arguments consumer {T RW RR} _.

(** The scheduler lets thread [t] take its next action. *)
Definition step {T RW RR} (t : thread) (c : system T RW RR) : system T RW RR :=
  match t with
  | Receiver =>
      match step_prog Receiver (receiver c) (shared c) (holder c) with
      | Some (p, s, h) =>
          {| shared := s; holder := h; receiver := p; consumer := consumer c |}
      | None => c
      end
  | Consumer =>
      match step_prog Consumer (consumer c) (shared c) (holder c) with
      | Some (p, s, h) =>
          {| shared := s; holder := h; receiver := receiver c; consumer := p |}
      | None => c
      end
  end.

(** An interleaving is the list of the scheduler's choices. *)
Fixpoint run {T RW RR} (schedule : list thread) (c : system T RW RR)
  : system T RW RR :=
  match schedule with
  | [] => c
  | t :: rest => run rest (step t c)
  end.

(** Both threads at their start, the lock free. *)
Definition start_system {T RW RR} (s : T) (w : prog T RW) (r : prog T RR)
  : system T RW RR :=
  {| shared := s; holder := None; receiver := w; consumer := r |}.

(** *** The threads of [gcloud_stt_realtime.py] *)
Module GcloudThreads.
Import Gcloud.

Section WithUnicode.

Context (upper : pystr → pystr).

(** The first [with self.lock] block of [_process_responses]. *)
Definition note_language_prog {R} (current_lang : pystr)
    (k : prog TranscriptionManager R) : prog TranscriptionManager R :=
  Acquire
    (Store (set_detected_language current_lang)
       (Load language_history (λ history,
          if bool_decide (current_lang ∈ history) then Release k
          else
            Store (λ self,
                     set_language_history
                       (language_history self ++ [current_lang]) self)
              (Release k)))).

(** The second [with self.lock] block of [_process_responses]. *)
Definition note_transcript_prog {R} (is_final : bool)
    (current_lang transcript : pystr) (now : Z)
    (k : prog TranscriptionManager R) : prog TranscriptionManager R :=
  let finish := Store (set_last_update_time now) (Release k) in
  Acquire
    (if is_final then
       Load language_history (λ history,
         let addition :=
           if bool_decide (1 < length history)%nat
              && truthy (Some current_lang) then
             py "[" ++ _get_language_name upper current_lang ++ py "] "
                ++ transcript ++ py " "
           else transcript ++ py " " in
         Load full_transcript (λ full,
           Store (set_full_transcript (full ++ addition))
             (Store (set_interim_transcript []) finish)))
     else Store (set_interim_transcript transcript) finish).

(** [_process_responses].  The store of [stop_transcription] to
    [is_recording] is placed where the arrival says that it happens: while
    the iterator is waiting. *)
Fixpoint process_prog (script : list arrival) (last_detected_lang : option pystr)
  : prog TranscriptionManager loop_exit :=
  match script with
  | [] => Block (Ret Blocked)
  | a :: script' =>
      Block
        ((if stop_meanwhile a
          then Store (set_is_recording false)
          else λ k, k)
           match next a with
           | NextRaises e => Ret (Raised e)
           | StopIteration => Ret Break
           | Next response =>
               Load is_recording (λ recording,
                 if negb recording then Ret Break
                 else
                   match results response with
                   | [] => process_prog script' last_detected_lang
                   | result :: _ =>
                       match alternatives result with
                       | [] => process_prog script' last_detected_lang
                       | alternative :: _ =>
                           let transcript := transcript alternative in
                           let current_lang :=
                             if truthy (language_code alternative)
                             then default [] (language_code alternative)
                             else default [] (head LANGUAGE_CODES) in
                           let changed :=
                             bool_decide (Some current_lang ≠ last_detected_lang)
                             && truthy (Some current_lang) in
                           Store (set_last_speech_time (speech_clock a))
                             ((if changed
                               then note_language_prog current_lang
                               else λ k, k)
                                (note_transcript_prog (result_is_final result)
                                   current_lang transcript (update_clock a)
                                   (process_prog script'
                                      (if changed then Some current_lang
                                       else last_detected_lang))))
                       end
                   end)
           end)
  end.

(** The [except Exception] clause of [_transcribe]. *)
Definition handler_prog (e : exn) : prog TranscriptionManager loop_exit :=
  if is_Exception e then
    Acquire
      (Store (set_full_transcript (py "Error: " ++ str_exn e))
         (Release (Store (set_is_recording false) (Ret Break))))
  else Ret (Raised e).

(** [_transcribe], the target of the receive thread. *)
Definition transcribe_prog (client mic : result ()) (script : list arrival)
  : prog TranscriptionManager loop_exit :=
  match client with
  | Raise e => handler_prog e
  | Ok _ =>
      match mic with
      | Raise e => handler_prog e
      | Ok _ =>
          Store (set_stream (Some false))
            (then_ (process_prog script None) (λ exit,
               match exit with
               | Blocked => Ret Blocked
               | Raised e => Store (set_stream (Some true)) (handler_prog e)
               | Break => Store (set_stream (Some true)) (Ret Break)
               end))
      end
  end.

End WithUnicode.

(** [get_current_transcript], the call of the consumer. *)
Definition snapshot_body : prog TranscriptionManager (pystr * pystr) :=
  let lang_display (k : pystr → prog TranscriptionManager (pystr * pystr)) :=
    Load detected_language (λ detected,
      if bool_decide (detected ≠ py "Detecting...")
      then Load detected_language k
      else k (py "en-US")) in
  Load interim_transcript (λ interim,
    if truthy (Some interim) then
      lang_display (λ lang,
        Load full_transcript (λ full,
          Load interim_transcript (λ interim',
            Release (Ret (full ++ interim', lang ++ py " (Live)")))))
    else
      lang_display (λ lang,
        Load full_transcript (λ full, Release (Ret (full, lang))))).

Definition get_current_transcript_prog
  : prog TranscriptionManager (pystr * pystr) :=
  Acquire snapshot_body.

(** The attributes the lock protects. *)
Definition protected (self : TranscriptionManager)
  : pystr * pystr * pystr * list pystr :=
  (full_transcript self, interim_transcript self, detected_language self,
   language_history self).

End GcloudThreads.

(** *** The threads of [soniox_ui.py] *)
Module SonioxUIThreads.
Import SonioxUI.

(** The loop of [receive_messages] over the tokens of a response;
    [non_final_tokens] is a local list, [self.final_tokens] is appended
    to in place. *)
Fixpoint collect_prog {R} (toks non_final_tokens : list Token)
    (k : list Token → prog TranscriptionSession R)
  : prog TranscriptionSession R :=
  match toks with
  | [] => k non_final_tokens
  | token :: rest =>
      if truthy (text token) then
        if is_final token then
          Store (λ self, set_final_tokens (final_tokens self ++ [token]) self)
            (collect_prog rest non_final_tokens k)
        else collect_prog rest (non_final_tokens ++ [token]) k
      else collect_prog rest non_final_tokens k
  end.

(** The [while not self.stop_event.is_set()] loop of
    [receive_messages].  The store of [stop] to the stop event is placed
    where the arrival says that it happens: while [recv] is waiting. *)
Fixpoint receive_prog (script : list arrival)
  : prog TranscriptionSession loop_exit :=
  Load stop_event (λ stopped,
    if (stopped : bool) then Ret Break
    else
      match script with
      | [] => Block (Ret Blocked)
      | a :: script' =>
          Block
            ((if stop_meanwhile a
              then Store (set_stop_event true)
              else λ k, k)
               match outcome a with
               | Raises e => Ret (Raised e)
               | Message res =>
                   match error_code res with
                   | Some code =>
                       match error_message res with
                       | Some msg =>
                           Store
                             (set_current_transcript
                                (py "Error: " ++ code ++ py " - " ++ msg))
                             (Ret Break)
                       | None => Ret (Raised (KeyError (py "error_message")))
                       end
                   | None =>
                       collect_prog (tokens res) [] (λ non_final_tokens,
                         Load final_tokens (λ final_tokens,
                           match render_tokens final_tokens non_final_tokens with
                           | Raise e => Ret (Raised e)
                           | Ok text =>
                               Store (set_current_transcript text)
                                 (if finished res then Ret Break
                                  else receive_prog script')
                           end))
                   end
               end)
      end).

(** The [except] clauses of [receive_messages]. *)
Definition handler_prog (exit : loop_exit)
  : prog TranscriptionSession loop_exit :=
  match exit with
  | Raised ConnectionClosedOK => Ret Break
  | Raised e =>
      if is_Exception e then
        Load stop_event (λ stopped,
          if (stopped : bool) then Ret Break
          else
            Load current_transcript (λ transcript,
              Store
                (set_current_transcript
                   (transcript ++ nl ++ nl ++ py "Error: " ++ str_exn e))
                (Ret Break)))
      else Ret (Raised e)
  | _ => Ret exit
  end.

(** [receive_messages], the target of the receive thread. *)
Definition receive_messages_prog (script : list arrival)
  : prog TranscriptionSession loop_exit :=
  then_ (receive_prog script) handler_prog.

(** [get_transcript], the call of the consumer. *)
Definition get_transcript_prog : prog TranscriptionSession pystr :=
  Load current_transcript Ret.

End SonioxUIThreads.

(** * The rest of the sessions: configuration, entry points, callbacks *)

(** ** Python values that go into a configuration *)

(** The values of a configuration: strings, integers, booleans, lists
    and dictionaries.  A [dict] keeps its keys in insertion order. *)
#[warnings="-register-all"]
Inductive pyvalue :=
| PyStr (s : pystr)
| PyInt (n : Z)
| PyBool (b : bool)
| PyList (items : list pyvalue)
| PyDict (items : list (pystr * pyvalue)).

Abbreviation pydict := (list (pystr * pyvalue)).

(** [d[key] = value]: the value of an existing key is replaced in place,
    a new key goes to the end. *)
Fixpoint setitem (key : pystr) (value : pyvalue) (d : pydict) : pydict :=
  match d with
  | [] => [(key, value)]
  | (k, v) :: rest =>
      if decide (k = key) then (k, value) :: rest
      else (k, v) :: setitem key value rest
  end.

(** [d.get(key)]. *)
Fixpoint getitem (key : pystr) (d : pydict) : option pyvalue :=
  match d with
  | [] => None
  | (k, v) :: rest => if decide (k = key) then Some v else getitem key rest
  end.

(** [list(d.keys())]. *)
Definition keys (d : pydict) : list pystr := d.*1.

(** [raise ValueError(msg)]. *)
Definition ValueError (msg : pystr) : exn := OtherException msg.

(** [raise RuntimeError(msg)]. *)
Definition RuntimeError (msg : pystr) : exn := OtherException msg.

(** The triple-quoted [context] string of the two Soniox sessions, whose
    closing quotes are indented by [indent] spaces and whose lines by
    four more. *)
Definition context_text (indent : nat) : pystr :=
  nl ++ replicate (indent + 4) 32
     ++ py "Celebrex, Zyrtec, Xanax, Prilosec, Amoxicillin Clavulanate Potassium"
     ++ replicate 12 32
  ++ nl ++ replicate (indent + 4) 32
     ++ py "The customer, Maria Lopez, contacted BrightWay Insurance to update her auto policy "
  ++ nl ++ replicate (indent + 4) 32
     ++ py "after purchasing a new vehicle."
  ++ nl ++ replicate indent 32.

(** ** [src/stream/soniox_realtime.py]: configuration and entry points *)
Module RealtimeSession.

(** [get_config]. *)
Definition get_config (api_key audio_format translation : pystr)
  : result pydict :=
  let config :=
    [(py "api_key", PyStr api_key);
     (py "model", PyStr (py "stt-rt-preview"));
     (py "language_hints", PyList [PyStr (py "en"); PyStr (py "es"); PyStr (py "hi")]);
     (py "enable_language_identification", PyBool true);
     (py "enable_speaker_diarization", PyBool true);
     (py "context", PyStr (context_text 8));
     (py "enable_endpoint_detection", PyBool true)] in
  (* Audio format. *)
  config ←
    (if decide (audio_format = py "auto") then
       Ok (setitem (py "audio_format") (PyStr (py "auto")) config)
     else if decide (audio_format = py "pcm_s16le") then
       let config := setitem (py "audio_format") (PyStr (py "pcm_s16le")) config in
       let config := setitem (py "sample_rate") (PyInt 16000) config in
       Ok (setitem (py "num_channels") (PyInt 1) config)
     else
       Raise (ValueError (py "Unsupported audio_format: " ++ audio_format)));
  (* Translation options. *)
  if decide (translation = py "none") then Ok config
  else if decide (translation = py "one_way") then
    Ok (setitem (py "translation")
          (PyDict [(py "type", PyStr (py "one_way"));
                   (py "target_language", PyStr (py "es"))]) config)
  else if decide (translation = py "two_way") then
    Ok (setitem (py "translation")
          (PyDict [(py "type", PyStr (py "two_way"));
                   (py "language_a", PyStr (py "en"));
                   (py "language_b", PyStr (py "es"))]) config)
  else Raise (ValueError (py "Unsupported translation: " ++ translation)).

(** The [while not stop_event.is_set()] loop of [stream_audio_from_mic]:
    every chunk read is sent to [ws]. *)
Fixpoint capture_loop (script : list SonioxUI.capture) (stopped : bool) (ws : N)
  : list SonioxUI.mic_effect * loop_exit :=
  if stopped then ([], Break) else
  match script with
  | [] => ([], Blocked)
  | c :: script' =>
      (* Read audio data from the microphone *)
      match SonioxUI.read c with
      | Raise e => ([], Raised e)
      | Ok _ =>
          (* Send the audio data to the Soniox WebSocket server *)
          match SonioxUI.send c with
          | Raise e => ([], Raised e)
          | Ok _ =>
              SonioxUI.add_effects [SonioxUI.Send_audio ws]
                (capture_loop script' (SonioxUI.stop_after c) ws)
          end
      end
  end.

(** [stream_audio_from_mic(ws, stop_event)], given what [audio.open],
    the capture loop and the final [send] of the empty frame do;
    [stop_event] tells whether the event is set when the loop is
    entered. *)
Definition stream_audio_from_mic (open : result ())
    (script : list SonioxUI.capture) (send_end : result ())
    (ws : N) (stop_event : bool) : list SonioxUI.mic_effect * loop_exit :=
  let body :=
    match open with
    | Raise e => ([], Raised e)
    | Ok _ =>
        let opened :=
          [SonioxUI.Mic_open;
           SonioxUI.Print (py "Microphone opened. Start speaking..." ++ nl)] in
        let '(effs, exit) := capture_loop script stop_event ws in
        match exit with
        | Break =>
            (opened ++ effs
               ++ [SonioxUI.Print (py "Stopping microphone stream..." ++ nl);
                   SonioxUI.Mic_close], Break)
        | _ => (opened ++ effs, exit)
        end
    end in
  let finally :=
    [SonioxUI.Mic_terminate;
     (* Send an empty frame to signal end-of-audio to the server *)
     match send_end with
     | Ok _ => SonioxUI.Send_end ws
     | Raise e =>
         SonioxUI.Print (py "Error sending end frame: " ++ str_exn e ++ nl)
     end] in
  match body.2 with
  | Blocked => body
  | _ => (body.1 ++ finally, body.2)
  end.

(** [run_session], as far as the main thread goes: what it prints and
    how it is left, given what [connect], the first [send] and the
    websocket do, and whether the capture thread is still alive after the
    [join].  The lines of the capture thread are not in the list. *)
Definition run_session (api_key audio_format translation : pystr)
    (connect : result N) (send : result ()) (script : list recv_outcome)
    (audio_alive : bool) : list pystr * loop_exit :=
  match get_config api_key audio_format translation with
  | Raise e => ([], Raised e)
  | Ok config =>
      let printed := [py "Connecting to Soniox..." ++ nl] in
      let '(printed, exit) :=
        match connect with
        | Raise e => (printed, Raised e)
        | Ok ws =>
            (* Send first request with config. *)
            match send with
            | Raise e => (printed, Raised e)
            | Ok _ =>
                let printed :=
                  printed ++ [py "Session started. Press Ctrl+C to stop." ++ nl] in
                let '(st, exit) := SonioxRealtime.receive script in
                let printed := printed ++ SonioxRealtime.printed st in
                match exit with
                | Break =>
                    (* Wait for the audio thread to finish gracefully *)
                    if audio_alive then
                      (printed ++ [py "Audio thread did not stop gracefully." ++ nl],
                       Break)
                    else (printed, Break)
                | _ => (printed, exit)
                end
            end
        end in
      match exit with
      | Raised e =>
          if is_Exception e then
            (printed ++ [py "Failed to connect: " ++ str_exn e ++ nl], Break)
          else (printed, Raised e)
      | _ => (printed, exit)
      end
  end.

(** [main], given the value of [SONIOX_API_KEY] in the environment and
    the parsed arguments. *)
Definition main (env_api_key : option pystr) (audio_format translation : pystr)
    (connect : result N) (send : result ()) (script : list recv_outcome)
    (audio_alive : bool) : list pystr * loop_exit :=
  match env_api_key with
  | None => ([], Raised (RuntimeError (py "Missing SONIOX_API_KEY.")))
  | Some api_key =>
      (* Ensure the format is compatible with microphone streaming *)
      let warned :=
        if decide (audio_format ∉ [py "pcm_s16le"; py "auto"]) then
          [py "Warning: Using microphone with format '" ++ audio_format
             ++ py "' might require specific configuration." ++ nl]
        else [] in
      let '(printed, exit) :=
        run_session api_key audio_format translation connect send script
          audio_alive in
      (warned ++ printed, exit)
  end.

End RealtimeSession.

(** ** [src/stream/soniox_multilingual_stream.py]: configuration *)
Module MultilingualSession.

Definition RATE : Z := 16000.
Definition CHANNELS : Z := 1.

(** [get_config]. *)
Definition get_config (api_key audio_format : pystr) : result pydict :=
  let config :=
    [(py "api_key", PyStr api_key);
     (py "model", PyStr (py "stt-rt-preview"));
     (py "language_hints", PyList [PyStr (py "en"); PyStr (py "hi"); PyStr (py "gu")]);
     (py "enable_language_identification", PyBool true);
     (py "enable_speaker_diarization", PyBool true);
     (py "enable_endpoint_detection", PyBool true)] in
  if decide (audio_format = py "auto") then
    Ok (setitem (py "audio_format") (PyStr (py "auto")) config)
  else if decide (audio_format = py "pcm_s16le") then
    let config := setitem (py "audio_format") (PyStr (py "pcm_s16le")) config in
    let config := setitem (py "sample_rate") (PyInt RATE) config in
    Ok (setitem (py "num_channels") (PyInt CHANNELS) config)
  else Raise (ValueError (py "Unsupported audio_format: " ++ audio_format)).

End MultilingualSession.

(** ** [src/ui/soniox_ui.py]: configuration and callbacks *)
Module UISession.

(** [TranscriptionSession.get_config]. *)
Definition get_config (self : SonioxUI.TranscriptionSession) : pydict :=
  let config :=
    [(py "api_key", PyStr (SonioxUI.api_key self));
     (py "model", PyStr (py "stt-rt-preview"));
     (py "language_hints", PyList [PyStr (py "en"); PyStr (py "es")]);
     (py "enable_language_identification", PyBool true);
     (py "enable_speaker_diarization", PyBool true);
     (py "context", PyStr (context_text 12));
     (py "enable_endpoint_detection", PyBool true)] in
  let config :=
    if decide (SonioxUI.audio_format self = py "auto") then
      setitem (py "audio_format") (PyStr (py "auto")) config
    else if decide (SonioxUI.audio_format self = py "pcm_s16le") then
      let config := setitem (py "audio_format") (PyStr (py "pcm_s16le")) config in
      let config := setitem (py "sample_rate") (PyInt 16000) config in
      setitem (py "num_channels") (PyInt 1) config
    else config in
  if decide (SonioxUI.translation self = py "one_way") then
    setitem (py "translation")
      (PyDict [(py "type", PyStr (py "one_way"));
               (py "target_language", PyStr (py "es"))]) config
  else if decide (SonioxUI.translation self = py "two_way") then
    setitem (py "translation")
      (PyDict [(py "type", PyStr (py "two_way"));
               (py "language_a", PyStr (py "en"));
               (py "language_b", PyStr (py "es"))]) config
  else config.

(** The module's global [session] is [None] or a session. *)
Abbreviation global := (option SonioxUI.TranscriptionSession).

(** [initialize_session], given the value of [SONIOX_API_KEY]. *)
Definition initialize_session (env_api_key : option pystr) (session : global)
  : pystr * global :=
  match env_api_key with
  | None =>
      ([10060] ++ py " SONIOX_API_KEY environment variable not set", session)
  | Some api_key =>
      ([9989] ++ py " Ready to start transcription",
       Some (SonioxUI.init api_key (py "pcm_s16le") (py "none")))
  end.

(** [start_recording]. *)
Definition start_recording (connect : result N) (send : result ())
    (session : global)
  : result (pystr * pystr) * global * list SonioxUI.effect :=
  match session with
  | None => (Ok ([10060] ++ py " Session not initialized", []), None, [])
  | Some self =>
      let '(status, self, effs) := SonioxUI.start connect send self in
      (status ← status; Ok (status, SonioxUI.get_transcript self),
       Some self, effs)
  end.

(** [stop_recording]. *)
Definition stop_recording (session : global)
  : (pystr * pystr) * global * list SonioxUI.effect :=
  match session with
  | None => (([10060] ++ py " Session not initialized", []), None, [])
  | Some self =>
      let '(status, self, effs) := SonioxUI.stop self in
      ((status, SonioxUI.get_transcript self), Some self, effs)
  end.

(** [update_transcript]. *)
Definition update_transcript (session : global) : pystr :=
  match session with
  | None => []
  | Some self =>
      if negb (SonioxUI.is_running self) then SonioxUI.get_transcript self
      else SonioxUI.get_transcript self
  end.

End UISession.

(** ** [src/stream/gcloud_stt_realtime.py]: the buttons *)
Module GcloudSession.

(** [f"{n}"] for a non-negative integer. *)
Definition str_int (n : nat) : pystr :=
  py (DecimalString.NilZero.string_of_uint (Nat.to_uint n)).

(** [stop_transcription]: the triple it returns and the manager it
    leaves.  [set(...)] drops the repeated entries. *)
Definition stop_transcription (self : Gcloud.TranscriptionManager)
  : (pystr * pystr * pystr) * Gcloud.TranscriptionManager :=
  let self := Gcloud.set_is_recording false self in
  let self :=
    match Gcloud.stream self with
    | Some _ => Gcloud.set_stream (Some true) self
    | None => self
    end in
  let final_text := Gcloud.full_transcript self in
  let lang := Gcloud.detected_language self in
  let lang_switches := length (remove_dups (Gcloud.language_history self)) in
  let status :=
    [9209; 65039] ++ py " Stopped. Languages detected: " ++ str_int lang_switches in
  ((status, final_text, lang), self).

(** [clear_transcript]. *)
Definition clear_transcript (manager : Gcloud.TranscriptionManager)
  : (pystr * pystr * pystr) * Gcloud.TranscriptionManager :=
  let manager := Gcloud.set_full_transcript [] manager in
  let manager := Gcloud.set_interim_transcript [] manager in
  let manager := Gcloud.set_detected_language [] manager in
  let manager := Gcloud.set_language_history [] manager in
  (([], [], py "Transcript cleared."), manager).

(** [update_transcript]. *)
Definition update_transcript (manager : Gcloud.TranscriptionManager)
  : pystr * pystr :=
  if negb (Gcloud.is_recording manager) then
    Gcloud.get_current_transcript manager
  else
    (* Get latest transcript *)
    Gcloud.get_current_transcript manager.

End GcloudSession.

(** * Properties *)

(** ** Observations on what a renderer emitted *)

Definition is_speaker_label (p : part) : bool :=
  match p with SpeakerLabel _ => true | _ => false end.

Definition is_paragraph_break (p : part) : bool :=
  match p with ParagraphBreak => true | _ => false end.

(** The number of speaker-boundary labels among [parts]. *)
Definition speaker_labels (parts : list part) : nat :=
  length (filter (λ p, is_speaker_label p = true) parts).

Definition paragraph_breaks (parts : list part) : nat :=
  length (filter (λ p, is_paragraph_break p = true) parts).

(** The languages of the language tags among [parts], in order. *)
Definition language_tags (parts : list part) : list pystr :=
  omap (λ p, match p with LanguageTag _ lang => Some lang | _ => None end) parts.

(** The number of tokens whose speaker is present and differs from the
    speaker tracked when the token is reached. *)
Fixpoint speaker_changes (tracked : option pystr) (tokens : list Token) : nat :=
  match tokens with
  | [] => 0
  | token :: rest =>
      match speaker token with
      | Some sp =>
          if bool_decide (Some sp = tracked) then speaker_changes tracked rest
          else S (speaker_changes (Some sp) rest)
      | None => speaker_changes tracked rest
      end
  end.

(** A token that carries all of text, speaker and language. *)
Definition spoken (sp lang txt : pystr) (final : bool) (ts : option pystr) : Token :=
  {| text := Some txt; is_final := final; speaker := Some sp;
     language := Some lang; translation_status := ts |}.

(** [token.get("translation_status") == "translation"]. *)
Definition is_translation_status (ts : option pystr) : bool :=
  bool_decide (ts = Some (py "translation")).


(** Four tokens of speaker 1 in the languages en, en, hi, hi. *)
Definition en_en_hi_hi : list Token :=
  [spoken (py "1") (py "en") (py "Hello") true None;
   spoken (py "1") (py "en") (py " friends") true None;
   spoken (py "1") (py "hi") (py " namaste") true None;
   spoken (py "1") (py "hi") (py " dosto") false None].

(** ** Inputs of the Google Cloud response loop *)

(** A response with one result and one alternative. *)
Definition one_result (lang_code transcript : pystr) (final : bool)
  : Gcloud.StreamingRecognizeResponse :=
  {| Gcloud.results :=
       [{| Gcloud.alternatives :=
             [{| Gcloud.transcript := transcript;
                 Gcloud.language_code := Some lang_code |}];
           Gcloud.result_is_final := final |}] |}.

(** The arrival of [response] while recording goes on. *)
Definition arrives (response : Gcloud.StreamingRecognizeResponse)
    (clocks : Z * Z) : Gcloud.arrival :=
  {| Gcloud.stop_meanwhile := false; Gcloud.next := Gcloud.Next response;
     Gcloud.speech_clock := clocks.1; Gcloud.update_clock := clocks.2 |}.

(** ** What a response contributes *)

(** The tokens of [res] that are kept as final: text present and not
    empty, [is_final] truthy. *)
Definition finals (res : Response) : list Token :=
  filter (λ t, truthy (text t) && is_final t = true) (tokens res).

(** The tokens of [res] that are kept as non-final: text present and not
    empty, [is_final] falsy. *)
Definition interims (res : Response) : list Token :=
  filter (λ t, truthy (text t) && negb (is_final t) = true) (tokens res).

(** The non-final tokens of [res], whatever their text. *)
Definition non_final_tokens_of (res : Response) : list Token :=
  filter (λ t, is_final t = false) (tokens res).

(** [token.get("text")] is truthy. *)
Definition has_text (t : Token) : Prop := truthy (text t) = true.

(** A token with nothing but a text. *)
Definition plain (txt : pystr) (final : bool) : Token :=
  {| text := Some txt; is_final := final; speaker := None;
     language := None; translation_status := None |}.

(** A response that only carries tokens. *)
Definition batch (toks : list Token) : Response :=
  {| error_code := None; error_message := None; tokens := toks;
     finished := false |}.

(** The arrival of [res] in the receive thread of [soniox_ui.py] while
    nobody stops the session. *)
Definition delivers (res : Response) : SonioxUI.arrival :=
  {| SonioxUI.stop_meanwhile := false; SonioxUI.outcome := Message res |}.

(** A session as [start] leaves it when the connection succeeds. *)
Definition started : SonioxUI.TranscriptionSession :=
  (SonioxUI.start (Ok 7) (Ok ())
     (SonioxUI.init (py "key") (py "pcm_s16le") (py "none"))).1.2.

(** A response whose only token is non-final, of speaker 1, with an
    empty text. *)
Definition silent_interim : Response :=
  batch [{| text := Some []; is_final := false; speaker := Some (py "1");
            language := None; translation_status := None |}].

(** A token without the key [text]. *)
Definition textless (final : bool) : Token :=
  {| text := None; is_final := final; speaker := None;
     language := None; translation_status := None |}.

(** A response with one malformed token among well-formed ones. *)
Definition one_malformed : Response :=
  batch [plain (py "hello") true; textless true; plain (py " world") false].

(** The arrival of an exception in the receive thread of [soniox_ui.py]
    while nobody stops the session. *)
Definition fails_with (e : exn) : SonioxUI.arrival :=
  {| SonioxUI.stop_meanwhile := false; SonioxUI.outcome := Raises e |}.

(** A lost connection, as [ws.recv()] reports it. *)
Definition connection_lost : exn := OtherException (py "connection lost").

(** A microphone that cannot be opened, as [audio.open] reports it. *)
Definition device_error : exn := OtherException (py "Invalid input device").

(** ** Script normalisation *)

(** What [map_languages] puts in place of the token [word]. *)
Definition translate (lower : pystr → pystr)
    (hindi_dict gujarati_dict : gmap (list N) (list N)) (word : pystr) : pystr :=
  if match_punct word then word
  else
    match hindi_dict !! lower word with
    | Some native => native
    | None =>
        match gujarati_dict !! lower word with
        | Some native => native
        | None => word
        end
    end.

(** The two kinds of token of the pattern: a non-empty run of [[\w']]
    characters, or one character of [[.,!?;]] that is not in [[\w']]. *)
Definition is_token (isalnum : N → bool) (word : pystr) : Prop :=
  (word ≠ [] ∧ Forall (λ c, in_word_class isalnum c = true) word)
  ∨ (∃ c, word = [c]
          ∧ in_word_class isalnum c = false ∧ in_punct_class c = true).

(** [str.isalnum] on the ASCII code points; the examples use no other
    code point. *)
Definition ascii_isalnum (c : N) : bool :=
  ((48 <=? c) && (c <=? 57)) || ((65 <=? c) && (c <=? 90))
  || ((97 <=? c) && (c <=? 122)).

(** ** The lock discipline *)

Section Discipline.

Context {T V RW RR : Type} (view : T → V).

(** The receive thread keeps the discipline for the attributes [view]:
    its [with self.lock] blocks are not nested and are closed when it
    ends, it stores to those attributes only inside such a block, and it
    never waits for the network or the device inside one.  [inside] tells
    whether [p] starts inside a block. *)
Fixpoint disciplined (inside : bool) (p : prog T RW) : Prop :=
  match p with
  | Ret _ => inside = false
  | Acquire k => inside = false ∧ disciplined true k
  | Release k => inside = true ∧ disciplined false k
  | Load get k => ∀ a, disciplined inside (k a)
  | Store set k =>
      (inside = false → ∀ s, view (set s) = view s) ∧ disciplined inside k
  | Block k => inside = false ∧ disciplined inside k
  end.

(** The rest of a call of the consumer that is inside its
    [with self.lock] block: loads of the attributes [view], then the exit
    of the block and the return. *)
Fixpoint reads_under_lock (p : prog T RR) : Prop :=
  match p with
  | Load get k =>
      (∀ s s', view s = view s' → get s = get s')
      ∧ ∀ a, reads_under_lock (k a)
  | Release (Ret _) => True
  | _ => False
  end.

(** The state [s] is one that the receive thread [w0], started on [s0]
    and running alone, is in at a moment when it is outside its
    [with self.lock] blocks. *)
Definition quiescent (w0 : prog T RW) (s0 s : T) : Prop :=
  ∃ n w, alone n (w0, s0, false) = (w, s, false).

(** Where a call [Acquire body] of the consumer stands in the system
    [c]: not yet inside its block, inside it, or returned. *)
Definition consumer_ok (w0 : prog T RW) (s0 : T) (body : prog T RR)
    (c : system T RW RR) : Prop :=
  (consumer c = Acquire body ∧ holder c ≠ Some Consumer)
  ∨ (holder c = Some Consumer ∧ reads_under_lock (consumer c)
     ∧ ∃ s, quiescent w0 s0 s ∧ view (shared c) = view s
            ∧ (exec (consumer c) (shared c)).2 = (exec body s).2)
  ∨ (holder c ≠ Some Consumer
     ∧ ∃ r s, consumer c = Ret r ∧ quiescent w0 s0 s ∧ r = (exec body s).2).

(** What every interleaving keeps true. *)
Definition lock_invariant (w0 : prog T RW) (s0 : T) (body : prog T RR)
    (c : system T RW RR) : Prop :=
  ∃ n inside,
    alone n (w0, s0, false) = (receiver c, shared c, inside)
    ∧ (holder c = Some Receiver ↔ inside = true)
    ∧ disciplined inside (receiver c)
    ∧ consumer_ok w0 s0 body c.

End Discipline.

(** The states that a thread running alone from [s] goes through. *)
Fixpoint visited {T R} (p : prog T R) (s : T) : list T :=
  s :: match p with
       | Ret _ => []
       | Acquire k => visited k s
       | Release k => visited k s
       | Load get k => visited (k (get s)) s
       | Store set k => visited k (set s)
       | Block k => visited k s
       end.

(** A thread that never takes a lock. *)
Fixpoint lock_free {T R} (p : prog T R) : Prop :=
  match p with
  | Ret _ => True
  | Acquire _ => False
  | Release _ => False
  | Load get k => ∀ a, lock_free (k a)
  | Store set k => lock_free k
  | Block k => lock_free k
  end.

(** The transcripts that the receive thread of [soniox_ui.py] leaves in
    [current_transcript]: the one after the loop has consumed the first
    [k] arrivals, for some [k], and the one at the end of
    [receive_messages]. *)
Definition stored_transcript (script : list SonioxUI.arrival)
    (self : SonioxUI.TranscriptionSession) (transcript : pystr) : Prop :=
  (∃ k, transcript
        = SonioxUI.current_transcript
            (SonioxUI.receive_loop (take k script) self).1)
  ∨ transcript
    = SonioxUI.current_transcript (SonioxUI.receive_messages script self).1.

(** ** Inputs of the interleavings *)

(** Two interim results, the first in English and the second in Hindi. *)
Definition hello_then_namaste : list Gcloud.arrival :=
  [arrives (one_result (py "en-US") (py "hello") false) (1, 2)%Z;
   arrives (one_result (py "hi-IN") (py "namaste") false) (3, 4)%Z].

(** A manager on which [start_transcription] has been called. *)
Definition recording : Gcloud.TranscriptionManager :=
  Gcloud.start_transcription 0 Gcloud.init.

(** The receive thread has handled the first result and the language
    block of the second; then the consumer's call runs to its end. *)
Definition between_the_blocks : list thread :=
  replicate 21 Receiver ++ replicate 7 Consumer.

(** The system of [gcloud_stt_realtime.py] on [hello_then_namaste]. *)
Definition gcloud_system (schedule : list thread)
  : system Gcloud.TranscriptionManager loop_exit (pystr * pystr) :=
  run schedule
    (start_system recording
       (GcloudThreads.transcribe_prog (λ s, s) (Ok ()) (Ok ()) hello_then_namaste)
       GcloudThreads.get_current_transcript_prog).

(** * Further observations *)

(** ** On the renderers *)

(** The texts among [parts], in order. *)
Definition token_texts (parts : list part) : list pystr :=
  omap (λ p, match p with TokenText t => Some t | _ => None end) parts.

(** [t] does not start with white space. *)
Definition no_leading_space (t : pystr) : Prop :=
  match t with
  | c :: _ => isspace c = false
  | [] => True
  end.

(** Every language tag among [parts] is directly followed by a text, and
    that text does not start with white space. *)
Fixpoint tags_trimmed (parts : list part) : Prop :=
  match parts with
  | [] => True
  | LanguageTag _ _ :: rest =>
      match rest with
      | TokenText t :: _ => no_leading_space t
      | _ => False
      end
      ∧ tags_trimmed rest
  | _ :: rest => tags_trimmed rest
  end.

(** [sep] occurs in [s]. *)
Definition occurs (sep s : pystr) : Prop := ∃ a b, s = a ++ sep ++ b.

(** ** On the receive loops *)

(** An arrival in the receive thread of [soniox_ui.py] during which
    nobody stops the session. *)
Definition quiet (o : recv_outcome) : SonioxUI.arrival :=
  {| SonioxUI.stop_meanwhile := false; SonioxUI.outcome := o |}.

(** A message after which a receive loop goes on waiting: a response
    without error code that does not finish the session. *)
Definition ordinary_response (o : recv_outcome) : Prop :=
  ∃ res, o = Message res ∧ error_code res = None ∧ finished res = false.

(** An arrival of the interface's receive thread after which it goes on
    waiting: nobody has asked to stop meanwhile. *)
Definition ordinary (a : SonioxUI.arrival) : Prop :=
  SonioxUI.stop_meanwhile a = false ∧ ordinary_response (SonioxUI.outcome a).

(** ** On the capture thread *)

(** The progress lines of a capture thread, as opposed to what it does
    to the microphone and the connection. *)
Definition is_progress_line (e : SonioxUI.mic_effect) : bool :=
  match e with
  | SonioxUI.Print line =>
      bool_decide (line = py "Microphone opened. Start speaking..." ++ nl)
      || bool_decide (line = py "Stopping microphone stream..." ++ nl)
  | _ => false
  end.

(** The frames the capture loop has sent after [k] completed iterations. *)
Definition frames_sent (ws : option N) (k : nat) : list SonioxUI.mic_effect :=
  match ws with
  | Some conn => replicate k (SonioxUI.Send_audio conn)
  | None => []
  end.

(** ** On the Google Cloud session *)

(** A recognition result as the response iterator delivers it while
    nobody stops the session: its language code, its transcript, whether
    it is final, and the clock readings of the iteration. *)
Record segment := {
  seg_lang : pystr;
  seg_text : pystr;
  seg_final : bool;
  seg_clocks : Z * Z
}.

Definition hears (s : segment) : Gcloud.arrival :=
  arrives (one_result (seg_lang s) (seg_text s) (seg_final s)) (seg_clocks s).

(** The interim text that a sequence of results leaves: the transcript
    of the last one unless it is final. *)
Definition pending (before : pystr) (segs : list segment) : pystr :=
  match last segs with
  | Some s => if seg_final s then [] else seg_text s
  | None => before
  end.

(** ** Further inputs *)

(** The response iterator is exhausted: the server has ended the
    stream. *)
Definition stream_ends : Gcloud.arrival :=
  {| Gcloud.stop_meanwhile := false; Gcloud.next := Gcloud.StopIteration;
     Gcloud.speech_clock := 0; Gcloud.update_clock := 0 |}.

(** A response that arrives while nobody stops the session. *)
Definition undisturbed (a : Gcloud.arrival) : Prop :=
  Gcloud.stop_meanwhile a = false ∧ ∃ response, Gcloud.next a = Gcloud.Next response.

(** ** The helpers on small inputs *)

Example lstrip_spaces : lstrip (py "  a b ") = py "a b ".
Proof. reflexivity. Qed.

Example lstrip_no_break_space : lstrip ([160; 9] ++ py "x") = py "x".
Proof. reflexivity. Qed.

Example join_words : join (py " ") [py "a"; py ","; py "b"] = py "a , b".
Proof. reflexivity. Qed.

Example before_terminator :
  before_first terminator (py "abc" ++ terminator ++ py "x") = py "abc".
Proof. reflexivity. Qed.

Example translation_tag :
  part_str (LanguageTag true (py "es")) = nl ++ py "[Translation] [es] ".
Proof. reflexivity. Qed.

Example findall_sentence :
  findall ascii_isalnum (py "it's ok -- no?")
  = [py "it's"; py "ok"; py "no"; py "?"].
Proof. reflexivity. Qed.

Example language_name_known (upper : pystr → pystr) :
  Gcloud._get_language_name upper (py "gu-IN") = py "GU".
Proof. vm_compute. reflexivity. Qed.

Example language_name_unknown (upper : pystr → pystr) :
  Gcloud._get_language_name upper (py "fr-FR") = upper (py "fr").
Proof. vm_compute. reflexivity. Qed.

(** ** Strings *)

Lemma join_nil_concat (parts : list pystr) : join [] parts = concat parts.
Proof.
  induction parts as [|p [|q rest] IH]; simpl in *.
  - reflexivity.
  - by rewrite app_nil_r.
  - by rewrite IH.
Qed.

Lemma join_parts_app (l1 l2 : list part) :
  join_parts (l1 ++ l2) = join_parts l1 ++ join_parts l2.
Proof.
  unfold join_parts. by rewrite !join_nil_concat, fmap_app, concat_app.
Qed.

Lemma join_parts_singleton (p : part) : join_parts [p] = part_str p.
Proof. reflexivity. Qed.

(** ** The two renderers agree *)

Lemma render_body_same (v : render_vars) (token : Token) :
  SonioxRealtime.render_body v token = SonioxUI.render_body v token.
Proof.
  unfold SonioxRealtime.render_body, SonioxUI.render_body.
  destruct (text token); reflexivity.
Qed.

Lemma render_loop_same (tokens : list Token) (v : render_vars) :
  for_each SonioxRealtime.render_body tokens v
  = for_each SonioxUI.render_body tokens v.
Proof.
  revert v. induction tokens as [|token rest IH]; intros v; simpl.
  - reflexivity.
  - rewrite render_body_same.
    destruct (SonioxUI.render_body v token) as [v'|e]; simpl; [apply IH | reflexivity].
Qed.

Lemma render_parts_realtime_ui (final_tokens non_final_tokens : list Token) :
  SonioxRealtime.render_parts final_tokens non_final_tokens
  = (parts ← SonioxUI.render_parts final_tokens non_final_tokens;
     Ok (parts ++ [Terminator])).
Proof.
  unfold SonioxRealtime.render_parts, SonioxUI.render_parts.
  rewrite render_loop_same.
  by destruct (for_each SonioxUI.render_body _ _).
Qed.

(** C9.  For every pair of token lists the module-level [render_tokens]
    of [soniox_realtime.py] returns what the method [render_tokens] of
    [soniox_ui.py] returns, followed by the terminator string
    "\n==============================="; when a token has no [text] both
    raise the same [KeyError]. *)
Theorem render_tokens_realtime_is_ui_plus_terminator
    (final_tokens non_final_tokens : list Token) :
  SonioxRealtime.render_tokens final_tokens non_final_tokens
  = (text ← SonioxUI.render_tokens final_tokens non_final_tokens;
     Ok (text ++ nl ++ py "===============================")).
Proof.
  unfold SonioxRealtime.render_tokens, SonioxUI.render_tokens.
  rewrite render_parts_realtime_ui.
  destruct (SonioxUI.render_parts final_tokens non_final_tokens) as [parts|e];
    simpl; [|reflexivity].
  by rewrite join_parts_app, join_parts_singleton.
Qed.

(** ** Speaker boundaries *)

Lemma speaker_labels_app (l1 l2 : list part) :
  speaker_labels (l1 ++ l2) = (speaker_labels l1 + speaker_labels l2)%nat.
Proof. unfold speaker_labels. by rewrite filter_app, length_app. Qed.

Lemma paragraph_breaks_app (l1 l2 : list part) :
  paragraph_breaks (l1 ++ l2) = (paragraph_breaks l1 + paragraph_breaks l2)%nat.
Proof. unfold paragraph_breaks. by rewrite filter_app, length_app. Qed.

Lemma speaker_labels_cons (p : part) (l : list part) :
  speaker_labels (p :: l)
  = ((if is_speaker_label p then 1 else 0) + speaker_labels l)%nat.
Proof. by destruct p. Qed.

Lemma paragraph_breaks_cons (p : part) (l : list part) :
  paragraph_breaks (p :: l)
  = ((if is_paragraph_break p then 1 else 0) + paragraph_breaks l)%nat.
Proof. by destruct p. Qed.

Lemma speaker_labels_nil : speaker_labels [] = 0%nat.
Proof. reflexivity. Qed.

Lemma paragraph_breaks_nil : paragraph_breaks [] = 0%nat.
Proof. reflexivity. Qed.

Ltac count_parts :=
  cbn [text_parts current_speaker current_language];
  rewrite ?speaker_labels_app, ?paragraph_breaks_app,
    ?speaker_labels_cons, ?paragraph_breaks_cons,
    ?speaker_labels_nil, ?paragraph_breaks_nil;
  cbn [is_speaker_label is_paragraph_break]; cbv beta iota.

(** One iteration of the loop: a label is appended exactly when the
    token's speaker is present and differs from the tracked one, a
    paragraph break exactly when in addition a speaker was tracked. *)
Lemma render_body_speaker (v v' : render_vars) (token : Token) :
  SonioxUI.render_body v token = Ok v' →
  match speaker token with
  | Some sp =>
      if bool_decide (Some sp = current_speaker v) then
        current_speaker v' = current_speaker v
        ∧ speaker_labels (text_parts v') = speaker_labels (text_parts v)
        ∧ paragraph_breaks (text_parts v') = paragraph_breaks (text_parts v)
      else
        current_speaker v' = Some sp
        ∧ speaker_labels (text_parts v') = S (speaker_labels (text_parts v))
        ∧ paragraph_breaks (text_parts v')
          = (paragraph_breaks (text_parts v)
             + if current_speaker v is Some _ then 1 else 0)%nat
  | None =>
      current_speaker v' = current_speaker v
      ∧ speaker_labels (text_parts v') = speaker_labels (text_parts v)
      ∧ paragraph_breaks (text_parts v') = paragraph_breaks (text_parts v)
  end.
Proof.
  unfold SonioxUI.render_body.
  destruct (text token) as [txt|]; [|discriminate].
  destruct (speaker token) as [sp|].
  - destruct (bool_decide_reflect (Some sp = current_speaker v)) as [Heq|Hne].
    + rewrite bool_decide_eq_false_2 by (intros H; by apply H).
      destruct (language token) as [lang|]; [case_bool_decide|];
        intros [= <-]; count_parts; repeat split; lia.
    + rewrite bool_decide_eq_true_2 by done.
      destruct (current_speaker v) as [cur|];
        (destruct (language token) as [lang|]; [case_bool_decide|]);
        intros [= <-]; count_parts; repeat split; lia.
  - destruct (language token) as [lang|]; [case_bool_decide|];
      intros [= <-]; count_parts; repeat split; lia.
Qed.

Lemma render_loop_speaker (tokens : list Token) (v v' : render_vars) :
  for_each SonioxUI.render_body tokens v = Ok v' →
  speaker_labels (text_parts v')
  = (speaker_labels (text_parts v)
     + speaker_changes (current_speaker v) tokens)%nat
  ∧ (paragraph_breaks (text_parts v')
     + (if current_speaker v is Some _ then 0
        else if speaker_changes None tokens is O then 0 else 1))%nat
    = (paragraph_breaks (text_parts v)
       + speaker_changes (current_speaker v) tokens)%nat.
Proof.
  revert v. induction tokens as [|token rest IH]; intros v; simpl.
  - intros [= <-]. destruct (current_speaker v); lia.
  - destruct (SonioxUI.render_body v token) as [v1|e] eqn:Hbody; [|discriminate].
    simpl. intros Hrest. apply IH in Hrest as [IHl IHp].
    apply render_body_speaker in Hbody.
    destruct (speaker token) as [sp|].
    + destruct (bool_decide_reflect (Some sp = current_speaker v)) as [Heq|Hne].
      * destruct Hbody as (Hc & Hl & Hp). rewrite Hc in *.
        rewrite <- Heq in *. lia.
      * destruct Hbody as (Hc & Hl & Hp). rewrite Hc in *.
        destruct (current_speaker v); lia.
    + destruct Hbody as (Hc & Hl & Hp). rewrite Hc in *.
      destruct (current_speaker v); lia.
Qed.

Ltac decide_tracked :=
  repeat match goal with
  | |- context [bool_decide ?P] =>
      first
        [ rewrite (bool_decide_eq_true_2 P) by congruence
        | rewrite (bool_decide_eq_false_2 P)
            by (let H := fresh in intros H; apply H; congruence)
        | rewrite (bool_decide_eq_false_2 P) by congruence ]
  end.

Ltac run_render :=
  unfold SonioxUI.render_parts, SonioxRealtime.render_parts;
  rewrite ?render_loop_same;
  cbn [for_each mbind result_bind SonioxUI.render_body spoken
       text speaker language translation_status
       text_parts current_speaker current_language app];
  repeat (decide_tracked;
          cbn [for_each mbind result_bind SonioxUI.render_body
               text speaker language translation_status
               text_parts current_speaker current_language app]).

(** Both renderers emit as many speaker-boundary labels as there are
    tokens whose speaker is present and differs from the tracked one, and
    one paragraph break fewer (none when there is no label). *)
Lemma render_parts_speaker_labels (final_tokens non_final_tokens : list Token)
    (parts : list part) :
  SonioxUI.render_parts final_tokens non_final_tokens = Ok parts →
  speaker_labels parts = speaker_changes None (final_tokens ++ non_final_tokens)
  ∧ paragraph_breaks parts = (speaker_labels parts - 1)%nat.
Proof.
  unfold SonioxUI.render_parts.
  destruct (for_each _ _ _) as [v|e] eqn:Hloop; [|discriminate].
  intros [= <-]. apply render_loop_speaker in Hloop as [Hl Hp].
  cbn [text_parts current_speaker] in *.
  rewrite speaker_labels_nil in Hl. rewrite paragraph_breaks_nil in Hp.
  split; [lia|].
  destruct (speaker_changes None (final_tokens ++ non_final_tokens)); lia.
Qed.

Lemma render_parts_speaker_labels_realtime
    (final_tokens non_final_tokens : list Token) (parts : list part) :
  SonioxRealtime.render_parts final_tokens non_final_tokens = Ok parts →
  speaker_labels parts = speaker_changes None (final_tokens ++ non_final_tokens)
  ∧ paragraph_breaks parts = (speaker_labels parts - 1)%nat.
Proof.
  rewrite render_parts_realtime_ui.
  destruct (SonioxUI.render_parts _ _) as [parts'|e] eqn:Hui; [|discriminate].
  intros [= <-]. apply render_parts_speaker_labels in Hui as [Hl Hp].
  rewrite speaker_labels_app, paragraph_breaks_app.
  rewrite speaker_labels_cons, paragraph_breaks_cons,
    speaker_labels_nil, paragraph_breaks_nil.
  cbn [is_speaker_label is_paragraph_break]. lia.
Qed.

(** C4.  Five tokens with texts, one language throughout and speakers
    [s1, s1, s2, s2, s1] ([s1] and [s2] different), split anywhere into
    final and non-final tokens: both renderers emit exactly three
    speaker-boundary labels, at the first, third and fifth token, that is
    where the token's speaker differs from the tracked one; the second and
    third label are preceded by a paragraph break and the first is not;
    and after every label the language tag is emitted again although the
    language has not changed, the tracked language having been reset. *)
Theorem speaker_pattern_three_labels
    (s1 s2 lang x1 x2 x3 x4 x5 : pystr) (f1 f2 f3 f4 f5 : bool)
    (ts1 ts2 ts3 ts4 ts5 : option pystr) (n : nat) :
  s1 ≠ s2 →
  let tokens :=
    [spoken s1 lang x1 f1 ts1; spoken s1 lang x2 f2 ts2;
     spoken s2 lang x3 f3 ts3; spoken s2 lang x4 f4 ts4;
     spoken s1 lang x5 f5 ts5] in
  let parts :=
    [SpeakerLabel s1; LanguageTag (is_translation_status ts1) lang;
     TokenText (lstrip x1); TokenText x2;
     ParagraphBreak;
     SpeakerLabel s2; LanguageTag (is_translation_status ts3) lang;
     TokenText (lstrip x3); TokenText x4;
     ParagraphBreak;
     SpeakerLabel s1; LanguageTag (is_translation_status ts5) lang;
     TokenText (lstrip x5)] in
  SonioxUI.render_parts (take n tokens) (drop n tokens) = Ok parts
  ∧ SonioxRealtime.render_parts (take n tokens) (drop n tokens)
    = Ok (parts ++ [Terminator])
  ∧ speaker_labels parts = 3%nat
  ∧ speaker_labels (parts ++ [Terminator]) = 3%nat
  ∧ speaker_changes None tokens = 3%nat.
Proof.
  intros Hne tokens parts.
  assert (SonioxUI.render_parts (take n tokens) (drop n tokens) = Ok parts) as Hui.
  { unfold SonioxUI.render_parts. rewrite take_drop. subst tokens parts.
    run_render. reflexivity. }
  split; [exact Hui|]. split.
  { rewrite render_parts_realtime_ui, Hui. reflexivity. }
  split; [reflexivity|]. split; [reflexivity|].
  subst tokens. cbn [speaker_changes spoken speaker].
  decide_tracked. reflexivity.
Qed.

Lemma speaker_pattern_three_labels_witness :
  py "1" ≠ py "2"
  ∧ speaker_labels
      [SpeakerLabel (py "1"); LanguageTag false (py "en");
       TokenText (py "Hi"); TokenText (py " there");
       ParagraphBreak;
       SpeakerLabel (py "2"); LanguageTag false (py "en");
       TokenText (py "Yes"); TokenText (py " sure");
       ParagraphBreak;
       SpeakerLabel (py "1"); LanguageTag false (py "en");
       TokenText (py "Ok")] = 3%nat.
Proof.
  assert (py "1" ≠ py "2") as Hne by (vm_compute; discriminate).
  split; [exact Hne|].
  exact (proj1 (proj2 (proj2
    (speaker_pattern_three_labels (py "1") (py "2") (py "en")
       (py " Hi") (py " there") (py " Yes") (py " sure") (py " Ok")
       true true true false false None None None None None 3 Hne)))).
Defined.

(** ** Language tags *)

(** C3, as the code has it.  Four tokens of one speaker in the languages
    en, en, hi, hi: both renderers, which have no minimum number of
    languages, emit two language tags, [en] before the text of the first
    token and [hi] before the text of the third.  The response loop of
    [gcloud_stt_realtime.py] is the one that waits for a second language:
    four final results in en-US, en-US, hi-IN, hi-IN give no tag on the
    first two and the tag [HI] on each of the last two. *)
Theorem language_tags_en_en_hi_hi
    (sp x1 x2 x3 x4 : pystr) (f1 f2 f3 f4 : bool)
    (ts1 ts2 ts3 ts4 : option pystr) (n : nat)
    (upper : pystr → pystr) (now : Z) (c1 c2 c3 c4 : Z * Z) :
  let tokens :=
    [spoken sp (py "en") x1 f1 ts1; spoken sp (py "en") x2 f2 ts2;
     spoken sp (py "hi") x3 f3 ts3; spoken sp (py "hi") x4 f4 ts4] in
  let parts :=
    [SpeakerLabel sp;
     LanguageTag (is_translation_status ts1) (py "en");
     TokenText (lstrip x1); TokenText x2;
     LanguageTag (is_translation_status ts3) (py "hi");
     TokenText (lstrip x3); TokenText x4] in
  let script :=
    [arrives (one_result (py "en-US") x1 true) c1;
     arrives (one_result (py "en-US") x2 true) c2;
     arrives (one_result (py "hi-IN") x3 true) c3;
     arrives (one_result (py "hi-IN") x4 true) c4] in
  SonioxUI.render_parts (take n tokens) (drop n tokens) = Ok parts
  ∧ SonioxRealtime.render_parts (take n tokens) (drop n tokens)
    = Ok (parts ++ [Terminator])
  ∧ language_tags parts = [py "en"; py "hi"]
  ∧ Gcloud.full_transcript
      (Gcloud._process_responses upper script
         (Gcloud.start_transcription now Gcloud.init)).1
    = x1 ++ py " " ++ x2 ++ py " "
      ++ py "[HI] " ++ x3 ++ py " " ++ py "[HI] " ++ x4 ++ py " ".
Proof.
  intros tokens parts script.
  assert (SonioxUI.render_parts (take n tokens) (drop n tokens) = Ok parts) as Hui.
  { unfold SonioxUI.render_parts. rewrite take_drop. subst tokens parts.
    run_render.
    rewrite (bool_decide_eq_true_2 (Some (py "hi") ≠ Some (py "en")))
      by (vm_compute; discriminate).
    run_render. reflexivity. }
  split; [exact Hui|]. split.
  { rewrite render_parts_realtime_ui, Hui. reflexivity. }
  split; [reflexivity|].
  subst script.
  transitivity
    (((([] ++ x1 ++ py " ") ++ x2 ++ py " ")
        ++ py "[" ++ py "HI" ++ py "] " ++ x3 ++ py " ")
       ++ py "[" ++ py "HI" ++ py "] " ++ x4 ++ py " ").
  - vm_compute. reflexivity.
  - rewrite <- !app_assoc. reflexivity.
Qed.

(** C3 as stated fails: on four tokens of speaker 1 in the languages
    en, en, hi, hi the renderer emits the tag [en] as well, before the
    first token, so the tags are not the single tag [hi]. *)
Lemma render_tags_the_first_language :
  ∃ parts,
    SonioxRealtime.render_parts [] en_en_hi_hi = Ok parts
    ∧ language_tags parts = [py "en"; py "hi"]
    ∧ language_tags parts ≠ [py "hi"]
    ∧ take 2 parts = [SpeakerLabel (py "1"); LanguageTag false (py "en")].
Proof.
  eexists. split; [vm_compute; reflexivity|].
  split; [vm_compute; reflexivity|].
  split; [vm_compute; discriminate|vm_compute; reflexivity].
Qed.

(** ** Aggregation of the tokens of a response *)

Lemma collect_same (final_tokens : list Token) (res : Response) :
  SonioxRealtime.collect_tokens final_tokens res
  = SonioxUI.collect_tokens final_tokens res.
Proof. reflexivity. Qed.

Lemma collect_fold (toks final_tokens non_final_tokens : list Token) :
  fold_left SonioxUI.collect_body toks (final_tokens, non_final_tokens)
  = (final_tokens
       ++ filter (λ t, truthy (text t) && is_final t = true) toks,
     non_final_tokens
       ++ filter (λ t, truthy (text t) && negb (is_final t) = true) toks).
Proof.
  revert final_tokens non_final_tokens.
  induction toks as [|t toks IH]; intros final_tokens non_final_tokens.
  - simpl. by rewrite !app_nil_r.
  - cbn [fold_left SonioxUI.collect_body]. rewrite !filter_cons.
    destruct (truthy (text t)), (is_final t); simpl; rewrite IH;
      by rewrite <- ?app_assoc.
Qed.

(** The loop over the tokens of a response appends its final tokens to
    the session's list and builds the non-final list from that response
    alone. *)
Lemma collect_tokens_spec (final_tokens : list Token) (res : Response) :
  SonioxUI.collect_tokens final_tokens res
  = (final_tokens ++ finals res, interims res).
Proof. unfold SonioxUI.collect_tokens. by rewrite collect_fold. Qed.

(** ** The final log only grows *)

Lemma receive_loop_final_prefix (script : list SonioxUI.arrival)
    (self : SonioxUI.TranscriptionSession) :
  SonioxUI.final_tokens self
    `prefix_of` SonioxUI.final_tokens (SonioxUI.receive_loop script self).1.
Proof.
  revert self. induction script as [|a script IH]; intros self;
    cbn [SonioxUI.receive_loop].
  - by destruct (SonioxUI.stop_event self).
  - destruct (SonioxUI.stop_event self); [done|].
    set (self1 := if SonioxUI.stop_meanwhile a then _ else self).
    assert (SonioxUI.final_tokens self1 = SonioxUI.final_tokens self) as Hf
      by (subst self1; by destruct (SonioxUI.stop_meanwhile a)).
    clearbody self1.
    destruct (SonioxUI.outcome a) as [res|e]; [|by rewrite <- Hf].
    destruct (error_code res) as [code|].
    { destruct (error_message res); by rewrite <- Hf. }
    rewrite collect_tokens_spec, Hf.
    destruct (SonioxUI.render_tokens _ _) as [txt|e]; cbn [fst].
    + destruct (finished res).
      * by apply prefix_app_r.
      * etrans; [|apply IH]. by apply prefix_app_r.
    + by apply prefix_app_r.
Qed.

(** A script that is continued: the loop goes on with the continuation
    exactly when it was still waiting at the end of the first part. *)
Lemma receive_loop_app (script1 script2 : list SonioxUI.arrival)
    (self : SonioxUI.TranscriptionSession) :
  SonioxUI.receive_loop (script1 ++ script2) self
  = match SonioxUI.receive_loop script1 self with
    | (self1, Blocked) => SonioxUI.receive_loop script2 self1
    | r => r
    end.
Proof.
  revert self. induction script1 as [|a script1 IH]; intros self.
  - cbn [app SonioxUI.receive_loop].
    destruct (SonioxUI.stop_event self) eqn:Hstop; [|done].
    destruct script2; cbn [SonioxUI.receive_loop]; by rewrite Hstop.
  - cbn [app SonioxUI.receive_loop].
    destruct (SonioxUI.stop_event self); [done|].
    destruct (SonioxUI.outcome a) as [res|e]; [|done].
    destruct (error_code res); [by destruct (error_message res)|].
    destruct (SonioxUI.collect_tokens _ res) as [final_tokens' non_final_tokens].
    destruct (SonioxUI.render_tokens _ _); [|done].
    destruct (finished res); [done|]. apply IH.
Qed.

Lemma receive_messages_final_tokens (script : list SonioxUI.arrival)
    (self : SonioxUI.TranscriptionSession) :
  SonioxUI.final_tokens (SonioxUI.receive_messages script self).1
  = SonioxUI.final_tokens (SonioxUI.receive_loop script self).1.
Proof.
  unfold SonioxUI.receive_messages.
  destruct (SonioxUI.receive_loop script self) as [self1 [|e|]]; [done| |done].
  destruct e; cbn [is_Exception fst]; try done;
    by destruct (SonioxUI.stop_event self1).
Qed.

Lemma realtime_loop_final_prefix (script : list recv_outcome)
    (st : SonioxRealtime.session_vars) :
  SonioxRealtime.final_tokens st
    `prefix_of`
    SonioxRealtime.final_tokens (SonioxRealtime.receive_loop script st).1.
Proof.
  revert st. induction script as [|[res|e] script IH]; intros st;
    cbn [SonioxRealtime.receive_loop]; [done| |done].
  destruct (error_code res) as [code|].
  { by destruct (error_message res). }
  rewrite collect_same, collect_tokens_spec.
  destruct (SonioxRealtime.render_tokens _ _) as [txt|e]; cbn [fst].
  - destruct (finished res).
    + by apply prefix_app_r.
    + etrans; [|apply IH]. by apply prefix_app_r.
  - by apply prefix_app_r.
Qed.

Lemma realtime_loop_app (script1 script2 : list recv_outcome)
    (st : SonioxRealtime.session_vars) :
  SonioxRealtime.receive_loop (script1 ++ script2) st
  = match SonioxRealtime.receive_loop script1 st with
    | (st1, Blocked) => SonioxRealtime.receive_loop script2 st1
    | r => r
    end.
Proof.
  revert st. induction script1 as [|[res|e] script1 IH]; intros st;
    cbn [app SonioxRealtime.receive_loop]; [done| |done].
  destruct (error_code res); [by destruct (error_message res)|].
  destruct (SonioxRealtime.collect_tokens _ res) as [final_tokens' non_final_tokens].
  destruct (SonioxRealtime.render_tokens _ _); [|done].
  destruct (finished res); [done|]. apply IH.
Qed.

Lemma realtime_receive_final_tokens (script : list recv_outcome) :
  SonioxRealtime.final_tokens (SonioxRealtime.receive script).1
  = SonioxRealtime.final_tokens
      (SonioxRealtime.receive_loop script
         {| SonioxRealtime.final_tokens := [];
            SonioxRealtime.stop_event := false;
            SonioxRealtime.printed := [] |}).1.
Proof.
  unfold SonioxRealtime.receive.
  destruct (SonioxRealtime.receive_loop script _) as [st1 [|e|]]; [done| |done].
  by destruct e.
Qed.

(** C2.  The final log is append-only.  Whatever arrives ([script1]) and
    whatever arrives after it ([script2]), the list [final_tokens] after
    the longer run starts with the list after the shorter run: its length
    has not decreased and every element is still at its index, unchanged.
    This holds for the receive thread of [soniox_ui.py], from any session
    state, and for the receive loop of [soniox_realtime.py]. *)
Theorem final_tokens_append_only
    (script1 script2 : list SonioxUI.arrival)
    (self : SonioxUI.TranscriptionSession)
    (rscript1 rscript2 : list recv_outcome) :
  let before := SonioxUI.final_tokens (SonioxUI.receive_messages script1 self).1 in
  let after :=
    SonioxUI.final_tokens
      (SonioxUI.receive_messages (script1 ++ script2) self).1 in
  let rbefore :=
    SonioxRealtime.final_tokens (SonioxRealtime.receive rscript1).1 in
  let rafter :=
    SonioxRealtime.final_tokens
      (SonioxRealtime.receive (rscript1 ++ rscript2)).1 in
  (SonioxUI.final_tokens self `prefix_of` before
   ∧ before `prefix_of` after
   ∧ (length before ≤ length after)%nat
   ∧ ∀ i token, before !! i = Some token → after !! i = Some token)
  ∧ (rbefore `prefix_of` rafter
     ∧ (length rbefore ≤ length rafter)%nat
     ∧ ∀ i token, rbefore !! i = Some token → rafter !! i = Some token).
Proof.
  intros before after rbefore rafter.
  assert (before `prefix_of` after) as Hprefix.
  { subst before after. rewrite !receive_messages_final_tokens, receive_loop_app.
    destruct (SonioxUI.receive_loop script1 self) as [self1 [|e|]]; [done|done|].
    apply receive_loop_final_prefix. }
  assert (rbefore `prefix_of` rafter) as Hrprefix.
  { subst rbefore rafter. rewrite !realtime_receive_final_tokens, realtime_loop_app.
    destruct (SonioxRealtime.receive_loop rscript1 _) as [st1 [|e|]]; [done|done|].
    apply realtime_loop_final_prefix. }
  repeat split.
  - subst before. rewrite receive_messages_final_tokens.
    apply receive_loop_final_prefix.
  - exact Hprefix.
  - by apply prefix_length.
  - intros i token Hi. by eapply prefix_lookup_Some.
  - exact Hrprefix.
  - by apply prefix_length.
  - intros i token Hi. by eapply prefix_lookup_Some.
Qed.

(** ** Rendering the kept tokens cannot fail *)

Lemma has_text_Some (t : Token) : has_text t → ∃ txt, text t = Some txt.
Proof. unfold has_text. destruct (text t) as [txt|]; [eauto|discriminate]. Qed.

Lemma render_body_total (v : render_vars) (token : Token) :
  has_text token → ∃ v', SonioxUI.render_body v token = Ok v'.
Proof.
  intros [txt Htxt]%has_text_Some. unfold SonioxUI.render_body. rewrite Htxt.
  destruct (language token); [case_bool_decide|]; eauto.
Qed.

Lemma render_loop_total (toks : list Token) (v : render_vars) :
  Forall has_text toks → ∃ v', for_each SonioxUI.render_body toks v = Ok v'.
Proof.
  intros Hall. revert v. induction Hall as [|t toks Ht _ IH]; intros v.
  - by exists v.
  - destruct (render_body_total v t Ht) as [v1 Hv1].
    cbn [for_each]. rewrite Hv1. apply IH.
Qed.

Lemma render_tokens_total (final_tokens non_final_tokens : list Token) :
  Forall has_text final_tokens → Forall has_text non_final_tokens →
  ∃ txt, SonioxUI.render_tokens final_tokens non_final_tokens = Ok txt.
Proof.
  intros Hf Hn. unfold SonioxUI.render_tokens, SonioxUI.render_parts.
  destruct (render_loop_total (final_tokens ++ non_final_tokens)
              {| text_parts := []; current_speaker := None;
                 current_language := None |}) as [v Hv].
  { by apply Forall_app. }
  rewrite Hv. cbn. eauto.
Qed.

Lemma finals_have_text (res : Response) : Forall has_text (finals res).
Proof.
  apply Forall_forall. intros t [Ht _]%list_elem_of_filter.
  unfold has_text. by destruct (truthy (text t)).
Qed.

Lemma interims_have_text (res : Response) : Forall has_text (interims res).
Proof.
  apply Forall_forall. intros t [Ht _]%list_elem_of_filter.
  unfold has_text. by destruct (truthy (text t)).
Qed.

(** Every token of the final log has a text, at any time. *)
Lemma receive_loop_keeps_text (script : list SonioxUI.arrival)
    (self : SonioxUI.TranscriptionSession) :
  Forall has_text (SonioxUI.final_tokens self) →
  Forall has_text (SonioxUI.final_tokens (SonioxUI.receive_loop script self).1).
Proof.
  revert self. induction script as [|a script IH]; intros self Hinv;
    cbn [SonioxUI.receive_loop].
  - by destruct (SonioxUI.stop_event self).
  - destruct (SonioxUI.stop_event self); [done|].
    set (self1 := if SonioxUI.stop_meanwhile a then _ else self).
    assert (SonioxUI.final_tokens self1 = SonioxUI.final_tokens self) as Hf
      by (subst self1; by destruct (SonioxUI.stop_meanwhile a)).
    clearbody self1. rewrite <- Hf in Hinv.
    destruct (SonioxUI.outcome a) as [res|e]; [|done].
    destruct (error_code res) as [code|].
    { by destruct (error_message res). }
    rewrite collect_tokens_spec.
    assert (Forall has_text (SonioxUI.final_tokens self1 ++ finals res)) as Hinv'
      by (apply Forall_app; split; [done|apply finals_have_text]).
    destruct (SonioxUI.render_tokens _ _) as [txt|e]; cbn [fst]; [|done].
    destruct (finished res); [done|]. by apply IH.
Qed.

(** ** The interim buffer is rebuilt from each response *)

Lemma receive_loop_blocked (script : list SonioxUI.arrival)
    (self : SonioxUI.TranscriptionSession) :
  (SonioxUI.receive_loop script self).2 = Blocked →
  SonioxUI.stop_event (SonioxUI.receive_loop script self).1 = false.
Proof.
  revert self. induction script as [|a script IH]; intros self;
    cbn [SonioxUI.receive_loop].
  - by destruct (SonioxUI.stop_event self) eqn:Hstop.
  - destruct (SonioxUI.stop_event self); [done|].
    destruct (SonioxUI.outcome a) as [res|e]; [|done].
    destruct (error_code res); [by destruct (error_message res)|].
    destruct (SonioxUI.collect_tokens _ res) as [final_tokens' non_final_tokens].
    destruct (SonioxUI.render_tokens _ _); [|done].
    destruct (finished res); [done|]. apply IH.
Qed.

(** The iteration of the receive thread on a response without error
    code, from a state in which the loop is running. *)
Lemma receive_loop_one (a : SonioxUI.arrival) (res : Response)
    (self : SonioxUI.TranscriptionSession) :
  Forall has_text (SonioxUI.final_tokens self) →
  SonioxUI.stop_event self = false →
  SonioxUI.outcome a = Message res → error_code res = None →
  ∃ self' exit,
    SonioxUI.receive_loop [a] self = (self', exit)
    ∧ exit ≠ Raised (KeyError (py "text"))
    ∧ (∀ e, exit ≠ Raised e)
    ∧ SonioxUI.final_tokens self' = SonioxUI.final_tokens self ++ finals res
    ∧ SonioxUI.render_tokens (SonioxUI.final_tokens self') (interims res)
      = Ok (SonioxUI.current_transcript self')
    ∧ SonioxUI.is_running self' = SonioxUI.is_running self.
Proof.
  intros Hinv Hstop Hout Herr. cbn [SonioxUI.receive_loop].
  rewrite Hstop, Hout, Herr.
  set (self1 := if SonioxUI.stop_meanwhile a then _ else self).
  assert (SonioxUI.final_tokens self1 = SonioxUI.final_tokens self
          ∧ SonioxUI.is_running self1 = SonioxUI.is_running self) as [Hf Hr]
    by (subst self1; by destruct (SonioxUI.stop_meanwhile a)).
  clearbody self1. rewrite collect_tokens_spec, Hf.
  destruct (render_tokens_total (SonioxUI.final_tokens self ++ finals res)
              (interims res)) as [txt Htxt].
  { apply Forall_app; split; [done|apply finals_have_text]. }
  { apply interims_have_text. }
  rewrite Htxt.
  destruct (finished res).
  - eexists _, _. split; [reflexivity|]. by repeat split.
  - match goal with |- context [if ?b then _ else _] => destruct b end;
      (eexists _, _; split; [reflexivity|]; by repeat split).
Qed.

(** C1, as the code has it.  Let the receive thread of [soniox_ui.py],
    started from a session whose final log holds tokens with text, have
    consumed [script] and be waiting, and let a response [res] without
    error code arrive.  The non-final list built for [res] consists of
    exactly the tokens of [res] that have a non-empty text and are not
    final, in order; nothing of an earlier response is in it; the final
    log is extended by the final tokens of [res] that have a non-empty
    text; and the transcript is the rendering of that final log followed
    by that non-final list.  The loop of [soniox_realtime.py] builds the
    same two lists. *)
Theorem interim_buffer_is_last_response
    (script : list SonioxUI.arrival) (a : SonioxUI.arrival) (res : Response)
    (self : SonioxUI.TranscriptionSession) :
  Forall has_text (SonioxUI.final_tokens self) →
  (SonioxUI.receive_loop script self).2 = Blocked →
  SonioxUI.outcome a = Message res →
  error_code res = None →
  let self1 := (SonioxUI.receive_loop script self).1 in
  let self2 := (SonioxUI.receive_messages (script ++ [a]) self).1 in
  SonioxUI.collect_tokens (SonioxUI.final_tokens self1) res
  = (SonioxUI.final_tokens self1 ++ finals res, interims res)
  ∧ SonioxRealtime.collect_tokens (SonioxUI.final_tokens self1) res
    = (SonioxUI.final_tokens self1 ++ finals res, interims res)
  ∧ SonioxUI.final_tokens self2 = SonioxUI.final_tokens self1 ++ finals res
  ∧ SonioxUI.render_tokens (SonioxUI.final_tokens self2) (interims res)
    = Ok (SonioxUI.get_transcript self2).
Proof.
  intros Hinv Hblocked Hout Herr self1 self2.
  split; [apply collect_tokens_spec|].
  split; [rewrite collect_same; apply collect_tokens_spec|].
  pose proof (receive_loop_blocked script self Hblocked) as Hstop.
  pose proof (receive_loop_keeps_text script self Hinv) as Hinv1.
  fold self1 in Hstop, Hinv1.
  destruct (receive_loop_one a res self1 Hinv1 Hstop Hout Herr)
    as (self' & exit & Hstep & _ & Hexit & Hfinal & Hrender & _).
  assert (SonioxUI.receive_messages (script ++ [a]) self = (self', exit)) as Hrun.
  { unfold SonioxUI.receive_messages. rewrite receive_loop_app.
    destruct (SonioxUI.receive_loop script self) as [s1 exit1] eqn:Hloop.
    cbn [snd] in Hblocked. subst exit1. subst self1. cbn [fst] in Hstep.
    rewrite Hstep. destruct exit as [|e|]; [done| |done]. by destruct (Hexit e). }
  subst self2. rewrite Hrun. cbn [fst]. by split.
Qed.

Lemma interim_buffer_is_last_response_witness :
  let script := [delivers (batch [plain (py "A") false; plain (py "B") false])] in
  let res := batch [plain (py "C") false] in
  let self2 :=
    (SonioxUI.receive_messages (script ++ [delivers res]) started).1 in
  Forall has_text (SonioxUI.final_tokens started)
  ∧ (SonioxUI.receive_loop script started).2 = Blocked
  ∧ SonioxUI.render_tokens (SonioxUI.final_tokens self2) (interims res)
    = Ok (SonioxUI.get_transcript self2)
  ∧ SonioxUI.get_transcript self2 = py "C".
Proof.
  intros script res self2.
  assert (Forall has_text (SonioxUI.final_tokens started)) as Hinv
    by apply Forall_nil_2.
  assert ((SonioxUI.receive_loop script started).2 = Blocked) as Hblocked
    by (vm_compute; reflexivity).
  split; [exact Hinv|]. split; [exact Hblocked|]. split.
  - exact (proj2 (proj2 (proj2
      (interim_buffer_is_last_response script (delivers res) res started
         Hinv Hblocked eq_refl eq_refl)))).
  - vm_compute. reflexivity.
Defined.

(** C1 as stated fails on a non-final token whose text is empty: the
    token is a non-final token of the response, yet the non-final list
    built for the response is empty, and the transcript lacks the speaker
    label that rendering the token would give. *)
Lemma interim_buffer_drops_empty_text :
  non_final_tokens_of silent_interim
  = [{| text := Some []; is_final := false; speaker := Some (py "1");
        language := None; translation_status := None |}]
  ∧ (SonioxUI.collect_tokens [] silent_interim).2 = []
  ∧ (SonioxRealtime.collect_tokens [] silent_interim).2 = []
  ∧ (SonioxUI.collect_tokens [] silent_interim).2
    ≠ non_final_tokens_of silent_interim
  ∧ SonioxUI.get_transcript
      (SonioxUI.receive_messages [delivers silent_interim] started).1 = []
  ∧ SonioxUI.render_tokens [] (non_final_tokens_of silent_interim)
    = Ok (py "Speaker 1:").
Proof.
  repeat split; try (vm_compute; reflexivity).
  vm_compute. discriminate.
Qed.

(** ** A token without text *)

(** In [soniox_ui.py] a response without error code never makes the
    receive loop raise, whatever its tokens: tokens without text are
    passed over, the others are aggregated as usual. *)
Lemma receive_loop_skips_textless (a : SonioxUI.arrival) (res : Response)
    (self : SonioxUI.TranscriptionSession) :
  Forall has_text (SonioxUI.final_tokens self) →
  SonioxUI.stop_event self = false →
  SonioxUI.outcome a = Message res → error_code res = None →
  let r := SonioxUI.receive_loop [a] self in
  (∀ e, r.2 ≠ Raised e)
  ∧ SonioxUI.final_tokens r.1 = SonioxUI.final_tokens self ++ finals res
  ∧ SonioxUI.render_tokens (SonioxUI.final_tokens r.1) (interims res)
    = Ok (SonioxUI.current_transcript r.1).
Proof.
  intros Hinv Hstop Hout Herr r.
  destruct (receive_loop_one a res self Hinv Hstop Hout Herr)
    as (self' & exit & Hstep & _ & Hexit & Hfinal & Hrender & _).
  subst r. rewrite Hstep. by repeat split.
Qed.

(** C5 at the failing input.  The response [one_malformed] has a token
    without text between two well-formed tokens.  The loops of
    [soniox_ui.py] and [soniox_realtime.py] pass over that token, render
    the two others and go on with the next response.  The loop of
    [soniox_multilingual_stream.py] raises [KeyError] at [t["text"]]:
    nothing of the response is shown, the handler prints the error and the
    receive loop is over, so the next response is never read. *)
Theorem multilingual_stops_at_token_without_text
    (isalnum : N → bool) (lower : pystr → pystr)
    (hindi_dict gujarati_dict : gmap (list N) (list N)) :
  let next := batch [plain (py "!") true] in
  Multilingual.receive isalnum lower hindi_dict gujarati_dict
    [Message one_malformed; Message next]
  = ([py "Error: 'text'" ++ nl], Break, true)
  ∧ (let r :=
       SonioxUI.receive_messages [delivers one_malformed; delivers next]
         started in
     r.2 = Blocked
     ∧ SonioxUI.final_tokens r.1 = [plain (py "hello") true; plain (py "!") true]
     ∧ SonioxUI.get_transcript r.1 = py "hello!")
  ∧ (let r := SonioxRealtime.receive [Message one_malformed; Message next] in
     r.2 = Blocked
     ∧ SonioxRealtime.final_tokens r.1
       = [plain (py "hello") true; plain (py "!") true]
     ∧ SonioxRealtime.printed r.1
       = [py "hello world" ++ [13]; py "hello!" ++ [13]]).
Proof.
  intros next. split; [|split].
  - vm_compute. reflexivity.
  - vm_compute. by repeat split.
  - vm_compute. by repeat split.
Qed.

(** ** Stopping a session that is not running *)

Lemma stop_leaves_not_running (self : SonioxUI.TranscriptionSession) :
  SonioxUI.is_running (SonioxUI.stop self).1.2 = false.
Proof.
  unfold SonioxUI.stop.
  destruct (SonioxUI.is_running self) eqn:Hrun; cbn [negb]; [|done].
  by destruct (SonioxUI.ws _).
Qed.

(** C6.  On a session that is not running, [stop] returns the status
    "No active session", leaves the session as it is and does nothing to
    the outside world: no thread is joined and no connection is closed.
    This is the case of a new session, on which [start] has not been
    called, and of the session left by an earlier [stop], whatever that
    call found. *)
Theorem stop_when_not_running
    (self earlier : SonioxUI.TranscriptionSession)
    (api_key audio_format translation : pystr) :
  SonioxUI.is_running self = false →
  SonioxUI.stop self = (py "No active session", self, [])
  ∧ SonioxUI.stop (SonioxUI.init api_key audio_format translation)
    = (py "No active session",
       SonioxUI.init api_key audio_format translation, [])
  ∧ SonioxUI.stop (SonioxUI.stop earlier).1.2
    = (py "No active session", (SonioxUI.stop earlier).1.2, []).
Proof.
  intros Hrun. split; [|split].
  - unfold SonioxUI.stop. by rewrite Hrun.
  - reflexivity.
  - unfold SonioxUI.stop at 1. by rewrite stop_leaves_not_running.
Qed.

Lemma stop_when_not_running_witness :
  SonioxUI.stop started
  = ([9209; 65039] ++ py " Recording stopped", (SonioxUI.stop started).1.2,
     [SonioxUI.Join_audio_thread; SonioxUI.Join_receive_thread; SonioxUI.Close 7])
  ∧ SonioxUI.is_running (SonioxUI.stop started).1.2 = false
  ∧ SonioxUI.stop (SonioxUI.stop started).1.2
    = (py "No active session", (SonioxUI.stop started).1.2, []).
Proof.
  assert (SonioxUI.is_running (SonioxUI.stop started).1.2 = false) as Hrun
    by reflexivity.
  split; [reflexivity|]. split; [exact Hrun|].
  exact (proj1 (stop_when_not_running (SonioxUI.stop started).1.2 started
                  [] [] [] Hrun)).
Defined.

(** ** Errors inside the background threads *)

Lemma receive_loop_is_running (script : list SonioxUI.arrival)
    (self : SonioxUI.TranscriptionSession) :
  SonioxUI.is_running (SonioxUI.receive_loop script self).1
  = SonioxUI.is_running self.
Proof.
  revert self. induction script as [|a script IH]; intros self;
    cbn [SonioxUI.receive_loop].
  - by destruct (SonioxUI.stop_event self).
  - destruct (SonioxUI.stop_event self); [done|].
    set (self1 := if SonioxUI.stop_meanwhile a then _ else self).
    assert (SonioxUI.is_running self1 = SonioxUI.is_running self) as Hr
      by (subst self1; by destruct (SonioxUI.stop_meanwhile a)).
    clearbody self1.
    destruct (SonioxUI.outcome a) as [res|e]; [|done].
    destruct (error_code res) as [code|].
    { by destruct (error_message res). }
    destruct (SonioxUI.collect_tokens _ res) as [final_tokens' non_final_tokens].
    destruct (SonioxUI.render_tokens _ _) as [txt|e]; cbn [fst]; [|done].
    destruct (finished res); [done|]. by rewrite IH.
Qed.

(** The receive thread never touches [is_running]. *)
Lemma receive_messages_is_running (script : list SonioxUI.arrival)
    (self : SonioxUI.TranscriptionSession) :
  SonioxUI.is_running (SonioxUI.receive_messages script self).1
  = SonioxUI.is_running self.
Proof.
  rewrite <- (receive_loop_is_running script self).
  unfold SonioxUI.receive_messages.
  destruct (SonioxUI.receive_loop script self) as [self1 [|e|]]; [done| |done].
  destruct e; cbn [is_Exception fst]; try done;
    by destruct (SonioxUI.stop_event self1).
Qed.

(** No [Exception] leaves [receive_messages]. *)
Lemma receive_messages_catches (script : list SonioxUI.arrival)
    (self : SonioxUI.TranscriptionSession) (e : exn) :
  (SonioxUI.receive_messages script self).2 = Raised e →
  is_Exception e = false.
Proof.
  unfold SonioxUI.receive_messages.
  destruct (SonioxUI.receive_loop script self) as [self1 [|e'|]];
    [done| |done].
  destruct e'; cbn [is_Exception snd]; try done;
    try (by destruct (SonioxUI.stop_event self1)).
  by intros [= <-].
Qed.

(** The iteration of the receive thread in which [ws.recv()] raises. *)
Lemma receive_messages_exception (script : list SonioxUI.arrival)
    (a : SonioxUI.arrival) (e : exn) (self : SonioxUI.TranscriptionSession) :
  (SonioxUI.receive_loop script self).2 = Blocked →
  SonioxUI.outcome a = Raises e →
  is_Exception e = true → e ≠ ConnectionClosedOK →
  let self1 := (SonioxUI.receive_loop script self).1 in
  let r := SonioxUI.receive_messages (script ++ [a]) self in
  r.2 = Break
  ∧ SonioxUI.get_transcript r.1
    = if SonioxUI.stop_meanwhile a then SonioxUI.get_transcript self1
      else SonioxUI.get_transcript self1 ++ nl ++ nl ++ py "Error: " ++ str_exn e.
Proof.
  intros Hblocked Hout Hexc Hne self1 r.
  pose proof (receive_loop_blocked script self Hblocked) as Hstop.
  subst r self1. unfold SonioxUI.receive_messages. rewrite receive_loop_app.
  destruct (SonioxUI.receive_loop script self) as [s1 exit1].
  cbn [fst snd] in *. subst exit1.
  cbn [SonioxUI.receive_loop]. rewrite Hstop, Hout.
  destruct e; try done; cbn [is_Exception];
    destruct (SonioxUI.stop_meanwhile a);
    cbn [SonioxUI.stop_event SonioxUI.set_stop_event fst snd
         SonioxUI.get_transcript SonioxUI.current_transcript
         SonioxUI.set_current_transcript];
    rewrite ?Hstop; done.
Qed.

(** The iteration of the receive thread on an error response. *)
Lemma receive_messages_protocol_error (script : list SonioxUI.arrival)
    (a : SonioxUI.arrival) (res : Response) (code msg : pystr)
    (self : SonioxUI.TranscriptionSession) :
  (SonioxUI.receive_loop script self).2 = Blocked →
  SonioxUI.outcome a = Message res →
  error_code res = Some code → error_message res = Some msg →
  let r := SonioxUI.receive_messages (script ++ [a]) self in
  r.2 = Break
  ∧ SonioxUI.get_transcript r.1 = py "Error: " ++ code ++ py " - " ++ msg.
Proof.
  intros Hblocked Hout Hcode Hmsg r.
  pose proof (receive_loop_blocked script self Hblocked) as Hstop.
  subst r. unfold SonioxUI.receive_messages. rewrite receive_loop_app.
  destruct (SonioxUI.receive_loop script self) as [s1 exit1].
  cbn [fst snd] in *. subst exit1.
  cbn [SonioxUI.receive_loop]. by rewrite Hstop, Hout, Hcode, Hmsg.
Qed.

(** [_transcribe] lets no [Exception] out, and one that is raised while
    the client or the microphone is set up replaces the transcript by its
    description and clears [is_recording]. *)
Lemma transcribe_catches (upper : pystr → pystr) (client mic : result ())
    (script : list Gcloud.arrival) (self : Gcloud.TranscriptionManager) :
  let r := Gcloud._transcribe upper client mic script self in
  (∀ e, r.2 = Raised e → is_Exception e = false)
  ∧ (∀ e, is_Exception e = true →
       client = Raise e ∨ (client = Ok () ∧ mic = Raise e) →
       r = (Gcloud.set_is_recording false
              (Gcloud.set_full_transcript (py "Error: " ++ str_exn e) self),
            Break))
  ∧ (∀ e, is_Exception e = true → client = Ok () → mic = Ok () →
       (Gcloud._process_responses upper script
          (Gcloud.set_stream (Some false) self)).2 = Raised e →
       r.2 = Break
       ∧ Gcloud.full_transcript r.1 = py "Error: " ++ str_exn e
       ∧ Gcloud.is_recording r.1 = false).
Proof.
  intros r. subst r. unfold Gcloud._transcribe. split; [|split].
  - intros e.
    destruct client as [[]|e1]; [destruct mic as [[]|e2]|].
    + destruct (Gcloud._process_responses _ _ _) as [self1 [|e3|]];
        cbn [snd]; try done.
      destruct (is_Exception e3) eqn:He3; cbn [snd]; [done|].
      by intros [= <-].
    + destruct (is_Exception e2) eqn:He2; cbn [snd]; [done|]. by intros [= <-].
    + destruct (is_Exception e1) eqn:He1; cbn [snd]; [done|]. by intros [= <-].
  - intros e He [->|[-> ->]]; by rewrite He.
  - intros e He -> -> Hloop.
    destruct (Gcloud._process_responses _ _ _) as [self1 exit].
    cbn [snd] in Hloop. subst exit. by rewrite He.
Qed.

(** C7, as the code has it.  Let the receive thread of [soniox_ui.py]
    be waiting after [script] and let [a] arrive.  No [Exception] leaves
    [receive_messages], and the thread leaves [is_running] as it is:
    the session records no failed status.  An exception raised by
    [ws.recv()], other than the normal close, ends the thread and is
    appended to the transcript as "\n\nError: ..." unless the stop event
    has been set meanwhile, in which case the transcript is left as it is.
    An error response ends the thread and replaces the transcript by
    "Error: <code> - <message>".  In [gcloud_stt_realtime.py] no
    [Exception] leaves [_transcribe]: one raised while the client or the
    microphone is set up, or by the response loop, replaces the transcript
    by "Error: ..." and clears [is_recording]. *)
Theorem background_errors_are_caught
    (script : list SonioxUI.arrival) (a : SonioxUI.arrival)
    (self : SonioxUI.TranscriptionSession)
    (upper : pystr → pystr) (client mic : result ())
    (gscript : list Gcloud.arrival) (manager : Gcloud.TranscriptionManager) :
  (SonioxUI.receive_loop script self).2 = Blocked →
  let self1 := (SonioxUI.receive_loop script self).1 in
  let r := SonioxUI.receive_messages (script ++ [a]) self in
  let g := Gcloud._transcribe upper client mic gscript manager in
  (∀ e, r.2 = Raised e → is_Exception e = false)
  ∧ SonioxUI.is_running r.1 = SonioxUI.is_running self
  ∧ (∀ e, SonioxUI.outcome a = Raises e →
       is_Exception e = true → e ≠ ConnectionClosedOK →
       r.2 = Break
       ∧ SonioxUI.get_transcript r.1
         = if SonioxUI.stop_meanwhile a then SonioxUI.get_transcript self1
           else SonioxUI.get_transcript self1
                  ++ nl ++ nl ++ py "Error: " ++ str_exn e)
  ∧ (∀ res code msg, SonioxUI.outcome a = Message res →
       error_code res = Some code → error_message res = Some msg →
       r.2 = Break
       ∧ SonioxUI.get_transcript r.1 = py "Error: " ++ code ++ py " - " ++ msg)
  ∧ (∀ e, g.2 = Raised e → is_Exception e = false)
  ∧ (∀ e, is_Exception e = true →
       client = Raise e ∨ (client = Ok () ∧ mic = Raise e) →
       g = (Gcloud.set_is_recording false
              (Gcloud.set_full_transcript (py "Error: " ++ str_exn e) manager),
            Break))
  ∧ (∀ e, is_Exception e = true → client = Ok () → mic = Ok () →
       (Gcloud._process_responses upper gscript
          (Gcloud.set_stream (Some false) manager)).2 = Raised e →
       g.2 = Break
       ∧ Gcloud.full_transcript g.1 = py "Error: " ++ str_exn e
       ∧ Gcloud.is_recording g.1 = false).
Proof.
  intros Hblocked self1 r g.
  split; [intros e; apply receive_messages_catches|].
  split; [apply receive_messages_is_running|].
  split; [intros e; by apply receive_messages_exception|].
  split; [intros res code msg; by apply receive_messages_protocol_error|].
  apply transcribe_catches.
Qed.

Lemma background_errors_are_caught_witness :
  let r := SonioxUI.receive_messages ([] ++ [fails_with connection_lost]) started in
  (SonioxUI.receive_loop [] started).2 = Blocked
  ∧ r.2 = Break
  ∧ SonioxUI.get_transcript r.1
    = SonioxUI.get_transcript started
        ++ nl ++ nl ++ py "Error: " ++ py "connection lost"
  ∧ SonioxUI.is_running r.1 = true.
Proof.
  assert ((SonioxUI.receive_loop [] started).2 = Blocked) as Hblocked
    by reflexivity.
  pose proof (background_errors_are_caught [] (fails_with connection_lost)
                started (λ s, s) (Ok ()) (Ok ()) [] Gcloud.init Hblocked)
    as (_ & Hrun & Hexc & _).
  destruct (Hexc connection_lost eq_refl eq_refl) as [Hexit Htext];
    [discriminate|].
  split; [exact Hblocked|]. split; [exact Hexit|]. split; [exact Htext|].
  exact Hrun.
Defined.

(** C7 as stated fails.  After a lost connection in the middle of
    receiving, the session of [soniox_ui.py] still says that it is
    running: no failed status is recorded.  When the stop event has been
    set meanwhile, nothing at all is recorded.  And an error of the
    microphone is not caught inside the capture thread: it leaves
    [stream_audio_from_mic], which has no [except] clause. *)
Lemma lost_connection_leaves_session_running :
  (let r := SonioxUI.receive_messages [fails_with connection_lost] started in
   r.2 = Break ∧ SonioxUI.is_running r.1 = true)
  ∧ (let r :=
       SonioxUI.receive_messages
         [{| SonioxUI.stop_meanwhile := true;
             SonioxUI.outcome := Raises connection_lost |}] started in
     SonioxUI.get_transcript r.1 = SonioxUI.get_transcript started)
  ∧ SonioxUI.stream_audio_from_mic (Raise device_error) [] (Ok ()) started
    = ([SonioxUI.Mic_terminate; SonioxUI.Send_end 7], Raised device_error).
Proof. repeat split; vm_compute; reflexivity. Qed.

(** ** Script normalisation *)

Section MapLanguages.

Context (isalnum : N → bool) (lower : pystr → pystr).
Context (hindi_dict gujarati_dict : gmap (list N) (list N)).

Lemma map_body_fold (words result : list pystr) :
  fold_left (Multilingual.map_body lower hindi_dict gujarati_dict) words result
  = result ++ (translate lower hindi_dict gujarati_dict <$> words).
Proof.
  revert result. induction words as [|w words IH]; intros result.
  - by rewrite app_nil_r.
  - cbn [fold_left fmap list_fmap]. rewrite IH.
    unfold Multilingual.map_body, translate.
    destruct (match_punct w); [by rewrite <- app_assoc|].
    destruct (hindi_dict !! lower w); [by rewrite <- app_assoc|].
    destruct (gujarati_dict !! lower w); by rewrite <- app_assoc.
Qed.

Lemma map_words_spec (words result : list pystr) :
  Paper.map_words lower
    {| Paper.hindi_dict := hindi_dict; Paper.gujarati_dict := gujarati_dict |}
    words result
  = result ++ (translate lower hindi_dict gujarati_dict <$> words).
Proof.
  revert result. induction words as [|w words IH]; intros result.
  - by rewrite app_nil_r.
  - cbn [Paper.map_words Paper.hindi_dict Paper.gujarati_dict fmap list_fmap].
    unfold translate at 1.
    destruct (match_punct w); [by rewrite IH, <- app_assoc|].
    destruct (hindi_dict !! lower w) as [v|] eqn:Hh.
    { rewrite bool_decide_eq_true_2 by eauto. by rewrite IH, <- app_assoc. }
    rewrite bool_decide_eq_false_2 by (by intros [? ?]).
    destruct (gujarati_dict !! lower w) as [v|] eqn:Hg.
    { rewrite bool_decide_eq_true_2 by eauto. by rewrite IH, <- app_assoc. }
    rewrite bool_decide_eq_false_2 by (by intros [? ?]).
    by rewrite IH, <- app_assoc.
Qed.

Lemma flush_tokens (word : pystr) :
  Forall (λ c, in_word_class isalnum c = true) word →
  Forall (is_token isalnum) (flush word) ∧ concat (flush word) = word.
Proof.
  intros Hword. destruct word as [|c word]; [done|].
  split; [|cbn [flush concat]; by rewrite app_nil_r].
  apply Forall_singleton. by left.
Qed.

Lemma findall_from_spec (text word : pystr) :
  Forall (λ c, in_word_class isalnum c = true) word →
  Forall (is_token isalnum) (findall_from isalnum word text)
  ∧ concat (findall_from isalnum word text)
    = word ++ filter (λ c, in_word_class isalnum c || in_punct_class c = true) text.
Proof.
  revert word. induction text as [|c text IH]; intros word Hword.
  - cbn [findall_from]. rewrite filter_nil, app_nil_r. by apply flush_tokens.
  - cbn [findall_from]. rewrite filter_cons.
    destruct (in_word_class isalnum c) eqn:Hc.
    + destruct (IH (word ++ [c])) as [Htok Hcat].
      { apply Forall_app. split; [done|]. by apply Forall_singleton. }
      split; [done|]. rewrite Hcat. cbn [orb]. rewrite decide_True by done.
      by rewrite <- app_assoc.
    + destruct (IH []) as [Htok Hcat]; [done|].
      destruct (flush_tokens word Hword) as [Hftok Hfcat].
      cbn [orb]. destruct (in_punct_class c) eqn:Hp.
      * split.
        -- apply Forall_app. split; [done|]. apply Forall_cons. split; [|done].
           right. by exists c.
        -- rewrite decide_True by done.
           rewrite concat_app, Hfcat. cbn [app concat]. by rewrite Hcat.
      * split.
        -- apply Forall_app. by split.
        -- rewrite decide_False by done.
           rewrite concat_app, Hfcat. cbn [app]. by rewrite Hcat.
Qed.

(** A run of word characters up to the end of the text is one token. *)
Lemma findall_word (word : pystr) :
  word ≠ [] → Forall (λ c, in_word_class isalnum c = true) word →
  findall isalnum word = [word].
Proof.
  unfold findall. intros Hne Hword.
  assert (∀ acc, findall_from isalnum acc word = flush (acc ++ word)) as Hgen.
  { clear Hne. induction Hword as [|c word Hc _ IH]; intros acc;
      cbn [findall_from]; [by rewrite app_nil_r|].
    rewrite Hc, IH. by rewrite <- app_assoc. }
  rewrite Hgen. by destruct word.
Qed.

Lemma findall_from_split (before after word : pystr) (c : N) :
  in_word_class isalnum c = false →
  findall_from isalnum word (before ++ c :: after)
  = findall_from isalnum word before
    ++ (if in_punct_class c then [[c]] else []) ++ findall_from isalnum [] after.
Proof.
  intros Hc. revert word.
  induction before as [|b before IH]; intros word; cbn [app findall_from].
  - by rewrite Hc.
  - destruct (in_word_class isalnum b).
    + apply IH.
    + rewrite IH. by rewrite <- !app_assoc.
Qed.

(** A character outside [[\w']] ends the token before it, is a token of
    its own when it is in [[.,!?;]], and the scan starts afresh behind
    it. *)
Lemma findall_split (before after : pystr) (c : N) :
  in_word_class isalnum c = false →
  findall isalnum (before ++ c :: after)
  = findall isalnum before
    ++ (if in_punct_class c then [[c]] else []) ++ findall isalnum after.
Proof. apply findall_from_split. Qed.

End MapLanguages.

(** When no punctuation mark counts as alphanumeric, as in Python, the
    test [re.match(r"[.,!?;]", word)] singles out the punctuation
    tokens. *)
Lemma match_punct_token (isalnum : N → bool) (word : pystr) :
  (∀ c, in_punct_class c = true → isalnum c = false) →
  is_token isalnum word →
  match_punct word = true
  ↔ ∃ c, word = [c] ∧ in_punct_class c = true.
Proof.
  intros Hdisjoint [[Hne Hword]|(c & -> & Hc & Hp)].
  - destruct word as [|c word]; [done|]. cbn [match_punct].
    apply Forall_cons in Hword as [Hc _].
    split.
    + intros Hp. pose proof (Hdisjoint c Hp) as Halnum.
      unfold in_word_class in Hc. unfold in_punct_class in Hp.
      rewrite Halnum in Hc. cbn [orb] in Hc.
      apply orb_true_iff in Hc as [Hc|Hc]; apply N.eqb_eq in Hc; subst c;
        by vm_compute in Hp.
    + by intros (c' & [= -> ->] & Hp).
  - cbn [match_punct]. split; [by exists c|done].
Qed.

(** C10.  [map_languages], in both files, returns the tokens found by
    the pattern, each replaced by [translate], joined by single spaces.
    The tokens are runs of word characters and single punctuation marks,
    and together they are the text without its other characters;
    [translate] leaves a punctuation token as it is and replaces a word by
    the entry of its lower-case form in the Hindi dictionary, else in the
    Gujarati dictionary, else leaves it as it is.  So "hi, there" becomes
    "hi , there" although no word is in a dictionary. *)
Theorem map_languages_joins_translated_tokens
    (isalnum : N → bool) (lower : pystr → pystr) (text : pystr)
    (hindi_dict gujarati_dict : gmap (list N) (list N)) :
  let words := findall isalnum text in
  Multilingual.map_languages isalnum lower text hindi_dict gujarati_dict
  = join (py " ") (translate lower hindi_dict gujarati_dict <$> words)
  ∧ Paper.map_languages isalnum lower
      {| Paper.hindi_dict := hindi_dict; Paper.gujarati_dict := gujarati_dict |}
      text
    = join (py " ") (translate lower hindi_dict gujarati_dict <$> words)
  ∧ Forall (is_token isalnum) words
  ∧ concat words
    = filter (λ c, in_word_class isalnum c || in_punct_class c = true) text
  ∧ ((∀ c, in_punct_class c = true → isalnum c = false) →
     Forall (λ word, match_punct word = true
                     ↔ ∃ c, word = [c] ∧ in_punct_class c = true) words)
  ∧ Multilingual.map_languages ascii_isalnum lower (py "hi, there") ∅ ∅
    = py "hi , there"
  ∧ Paper.map_languages ascii_isalnum lower
      {| Paper.hindi_dict := ∅; Paper.gujarati_dict := ∅ |} (py "hi, there")
    = py "hi , there"
  ∧ py "hi , there" ≠ py "hi, there".
Proof.
  intros words.
  destruct (findall_from_spec isalnum text []) as [Htok Hcat]; [done|].
  split; [|split; [|split; [|split; [|split; [|split; [|split]]]]]].
  - unfold Multilingual.map_languages. by rewrite map_body_fold.
  - unfold Paper.map_languages. by rewrite map_words_spec.
  - exact Htok.
  - exact Hcat.
  - intros Hdisjoint. eapply Forall_impl; [exact Htok|].
    intros word. by apply match_punct_token.
  - unfold Multilingual.map_languages. rewrite map_body_fold.
    vm_compute. reflexivity.
  - unfold Paper.map_languages. rewrite map_words_spec.
    vm_compute. reflexivity.
  - vm_compute. discriminate.
Qed.

Lemma map_languages_joins_translated_tokens_witness :
  (∀ c, in_punct_class c = true → ascii_isalnum c = false)
  ∧ Forall (λ word, match_punct word = true
                    ↔ ∃ c, word = [c] ∧ in_punct_class c = true)
      (findall ascii_isalnum (py "kem cho, dosto!"))
  ∧ Multilingual.map_languages ascii_isalnum (λ s, s) (py "kem cho, dosto!")
      {[ py "dosto" := py "DOSTO" ]} {[ py "kem" := py "KEM" ]}
    = join (py " ")
        (translate (λ s, s)
           {[ py "dosto" := py "DOSTO" ]} {[ py "kem" := py "KEM" ]}
         <$> findall ascii_isalnum (py "kem cho, dosto!")).
Proof.
  assert (∀ c, in_punct_class c = true → ascii_isalnum c = false) as Hdisjoint.
  { intros c Hp. unfold in_punct_class in Hp.
    repeat (apply orb_true_iff in Hp as [Hp|Hp]);
      apply N.eqb_eq in Hp; subst c; reflexivity. }
  pose proof (map_languages_joins_translated_tokens ascii_isalnum (λ s, s)
                (py "kem cho, dosto!")
                {[ py "dosto" := py "DOSTO" ]} {[ py "kem" := py "KEM" ]})
    as (Hmulti & _ & _ & _ & Hpunct & _).
  split; [exact Hdisjoint|]. split; [exact (Hpunct Hdisjoint)|exact Hmulti].
Defined.

(** ** Snapshots under the lock *)

Section Discipline.

Context {T V RW RR : Type} (view : T → V).

Lemma alone_succ (n : nat) (c : prog T RW * T * bool) :
  alone (S n) c = alone_step (alone n c).
Proof.
  revert c. induction n as [|n IH]; intros c; [done|].
  change (alone (S (S n)) c) with (alone (S n) (alone_step c)).
  by rewrite IH.
Qed.

(** Loads under the lock see the protected attributes only. *)
Lemma reads_respect_view (p : prog T RR) (s s' : T) :
  reads_under_lock view p → view s = view s' → (exec p s).2 = (exec p s').2.
Proof.
  intros Hp Hview. induction p as [r|k IH|k IH|A get k IH|set k IH|k IH];
    try done.
  - destruct k; done.
  - destruct Hp as [Hget Hk]. cbn [exec].
    rewrite (Hget s s' Hview). by apply IH.
Qed.

Lemma lock_invariant_start (w0 : prog T RW) (s0 : T) (body : prog T RR) :
  disciplined view false w0 →
  lock_invariant view w0 s0 body (start_system s0 w0 (Acquire body)).
Proof.
  intros Hw0. exists 0%nat, false. split; [done|]. split; [done|].
  split; [done|]. by left.
Qed.

Lemma lock_invariant_step (w0 : prog T RW) (s0 : T) (body : prog T RR)
    (t : thread) (c : system T RW RR) :
  reads_under_lock view body →
  lock_invariant view w0 s0 body c →
  lock_invariant view w0 s0 body (step t c).
Proof.
  intros Hbody (n & inside & Halone & Hiff & Hdisc & Hcons).
  destruct c as [s h w p]. cbn [receiver shared holder consumer] in *.
  unfold consumer_ok in Hcons. cbn [receiver shared holder consumer] in Hcons.
  destruct t; unfold step; cbn [receiver shared holder consumer].
  - (* the receive thread *)
    destruct w as [r|k|k|A get k|set k|k]; cbn [step_prog disciplined] in *.
    + by exists n, inside.
    + destruct h as [h|]; [by exists n, inside|].
      destruct Hdisc as [-> Hk].
      exists (S n), true. rewrite alone_succ, Halone.
      split; [done|]. split; [done|]. split; [done|].
      unfold consumer_ok. cbn [receiver shared holder consumer].
      destruct Hcons as [[Hp _]|[[Hh _]|[_ Hret]]]; [|done|].
      * left. by split.
      * right. right. by split.
    + destruct Hdisc as [-> Hk].
      assert (h = Some Receiver) as -> by by apply Hiff.
      exists (S n), false. rewrite alone_succ, Halone.
      split; [done|]. split; [done|]. split; [done|].
      unfold consumer_ok. cbn [receiver shared holder consumer].
      destruct Hcons as [[Hp _]|[[Hh _]|[_ Hret]]]; [|done|].
      * left. by split.
      * right. right. by split.
    + exists (S n), inside. rewrite alone_succ, Halone.
      split; [done|]. split; [done|]. split; [apply Hdisc|done].
    + destruct Hdisc as [Hset Hk].
      exists (S n), inside. rewrite alone_succ, Halone.
      split; [done|]. split; [done|]. split; [done|].
      unfold consumer_ok. cbn [receiver shared holder consumer].
      destruct Hcons as [Hstart|[(Hh & Hp & s1 & Hq & Hview & Hexec)|Hret]].
      * by left.
      * right. left. split; [done|]. split; [done|].
        assert (inside = false) as Hout.
        { destruct inside; [|done].
          destruct Hiff as [_ Hiff]. rewrite Hh in Hiff. by specialize (Hiff eq_refl). }
        specialize (Hset Hout s).
        exists s1. split; [done|]. split; [by rewrite Hset|].
        rewrite <- Hexec. by apply reads_respect_view.
      * by right; right.
    + destruct Hdisc as [-> Hk].
      exists (S n), false. rewrite alone_succ, Halone.
      split; [done|]. split; [done|]. split; done.
  - (* the consumer *)
    destruct Hcons as [[-> Hh]|[(-> & Hp & s1 & Hq & Hview & Hexec)|Hret]].
    + cbn [step_prog]. destruct h as [h|].
      { exists n, inside. repeat split; try done; try apply Hiff. by left. }
      assert (inside = false) as ->.
      { destruct inside; [|done]. by destruct Hiff as [_ Hiff]; specialize (Hiff eq_refl). }
      exists n, false. split; [done|]. split; [done|]. split; [done|].
      right. left. cbn [receiver shared holder consumer].
      split; [done|]. split; [done|].
      exists s. split; [by exists n, w|done].
    + assert (inside = false) as ->.
      { destruct inside; [|done]. by destruct Hiff as [_ Hiff]; specialize (Hiff eq_refl). }
      destruct p as [r|k|k|A get k|set k|k]; try done.
      * destruct k as [r| | | | |]; try done. cbn [step_prog].
        exists n, false. split; [done|]. split; [done|]. split; [done|].
        right. right. cbn [receiver shared holder consumer].
        split; [done|]. exists r, s1. by repeat split.
      * cbn [step_prog]. destruct Hp as [Hget Hk].
        exists n, false. split; [done|]. split; [done|]. split; [done|].
        right. left. cbn [receiver shared holder consumer].
        split; [done|]. split; [apply Hk|]. by exists s1.
    + destruct Hret as (Hh & r & s1 & -> & Hq & Hr). cbn [step_prog].
      exists n, inside. repeat split; try done; try apply Hiff.
      right. right. split; [done|]. by exists r, s1.
Qed.

Lemma lock_invariant_run (w0 : prog T RW) (s0 : T) (body : prog T RR)
    (schedule : list thread) (c : system T RW RR) :
  reads_under_lock view body →
  lock_invariant view w0 s0 body c →
  lock_invariant view w0 s0 body (run schedule c).
Proof.
  intros Hbody. revert c.
  induction schedule as [|t schedule IH]; intros c Hinv; [done|].
  cbn [run]. apply IH. by apply lock_invariant_step.
Qed.

(** When the receive thread keeps the lock discipline and the consumer
    reads under the lock, then in every interleaving what the consumer's
    call returns is what it would return on a state that the receive
    thread leaves outside its [with self.lock] blocks. *)
Lemma snapshot_of_quiescent_state (w0 : prog T RW) (s0 : T) (body : prog T RR)
    (schedule : list thread) (r : RR) :
  disciplined view false w0 → reads_under_lock view body →
  consumer (run schedule (start_system s0 w0 (Acquire body))) = Ret r →
  ∃ s, quiescent w0 s0 s ∧ r = (exec body s).2.
Proof.
  intros Hw0 Hbody Hret.
  pose proof (lock_invariant_run w0 s0 body schedule _ Hbody
                (lock_invariant_start w0 s0 body Hw0))
    as (n & inside & _ & _ & _ & Hcons).
  destruct Hcons as [[Hp _]|[(_ & Hp & _)|(_ & r' & s & Hr' & Hq & Hr)]].
  - by rewrite Hret in Hp.
  - by rewrite Hret in Hp.
  - rewrite Hret in Hr'. injection Hr' as ->. by exists s.
Qed.

End Discipline.

(** ** The threads of [gcloud_stt_realtime.py] *)

Lemma exec_then {T A B} (p : prog T A) (f : A → prog T B) (s : T) :
  exec (then_ p f) s = exec (f (exec p s).2) (exec p s).1.
Proof.
  revert s. induction p as [r|k IH|k IH|X get k IH|set k IH|k IH]; intros s;
    cbn [then_ exec]; done.
Qed.

Lemma disciplined_then {T V A B} (view : T → V) (p : prog T A)
    (f : A → prog T B) (inside : bool) :
  disciplined view inside p → (∀ a, disciplined view false (f a)) →
  disciplined view inside (then_ p f).
Proof.
  intros Hp Hf. revert inside Hp.
  induction p as [r|k IH|k IH|X get k IH|set k IH|k IH]; intros inside Hp;
    cbn [then_ disciplined] in *.
  - subst inside. apply Hf.
  - destruct Hp. split; [done|]. by apply IH.
  - destruct Hp. split; [done|]. by apply IH.
  - intros a. by apply IH.
  - destruct Hp. split; [done|]. by apply IH.
  - destruct Hp. split; [done|]. by apply IH.
Qed.

Section GcloudThreads.

Context (upper : pystr → pystr).

Lemma exec_note_language {R} (current_lang : pystr)
    (k : prog Gcloud.TranscriptionManager R) (self : Gcloud.TranscriptionManager) :
  exec (GcloudThreads.note_language_prog current_lang k) self
  = exec k (Gcloud.note_language current_lang self).
Proof.
  unfold GcloudThreads.note_language_prog, Gcloud.note_language.
  cbn [exec]. cbn [Gcloud.language_history Gcloud.set_detected_language].
  by case_bool_decide.
Qed.

Lemma exec_note_transcript {R} (is_final : bool)
    (current_lang transcript : pystr) (now : Z)
    (k : prog Gcloud.TranscriptionManager R) (self : Gcloud.TranscriptionManager) :
  exec (GcloudThreads.note_transcript_prog upper is_final current_lang
          transcript now k) self
  = exec k (Gcloud.note_transcript upper is_final current_lang transcript now self).
Proof.
  unfold GcloudThreads.note_transcript_prog, Gcloud.note_transcript.
  destruct is_final; cbn [exec]; [|done].
  by destruct (bool_decide _ && truthy _).
Qed.

(** Running alone, the program of the response loop does what
    [_process_responses] does. *)
Lemma exec_process_prog (script : list Gcloud.arrival)
    (last_detected_lang : option pystr) (self : Gcloud.TranscriptionManager) :
  exec (GcloudThreads.process_prog upper script last_detected_lang) self
  = Gcloud.process_loop upper script last_detected_lang self.
Proof.
  revert last_detected_lang self.
  induction script as [|a script IH]; intros last_detected_lang self;
    cbn [GcloudThreads.process_prog Gcloud.process_loop exec]; [done|].
  set (self1 := if Gcloud.stop_meanwhile a then _ else self).
  assert (∀ k : prog Gcloud.TranscriptionManager loop_exit,
            exec ((if Gcloud.stop_meanwhile a
                   then Store (Gcloud.set_is_recording false)
                   else λ k, k) k) self
            = exec k self1) as ->
    by (intros k; subst self1; by destruct (Gcloud.stop_meanwhile a)).
  clearbody self1.
  destruct (Gcloud.next a) as [response| |e]; cbn [exec]; [|done|done].
  destruct (Gcloud.is_recording self1); cbn [negb exec]; [|done].
  destruct (Gcloud.results response) as [|result ?]; [apply IH|].
  destruct (Gcloud.alternatives result) as [|alternative ?]; [apply IH|].
  cbn [exec].
  match goal with
  | |- context [bool_decide (Some ?cl ≠ last_detected_lang) && ?t] =>
      destruct (bool_decide (Some cl ≠ last_detected_lang) && t)
  end.
  - by rewrite exec_note_language, exec_note_transcript, IH.
  - by rewrite exec_note_transcript, IH.
Qed.

Lemma exec_handler (e : exn) (self : Gcloud.TranscriptionManager) :
  exec (GcloudThreads.handler_prog e) self
  = if is_Exception e then
      (Gcloud.set_is_recording false
         (Gcloud.set_full_transcript (py "Error: " ++ str_exn e) self), Break)
    else (self, Raised e).
Proof. unfold GcloudThreads.handler_prog. by destruct (is_Exception e). Qed.

(** Running alone, the program of the receive thread does what
    [_transcribe] does. *)
Lemma exec_transcribe_prog (client mic : result ())
    (script : list Gcloud.arrival) (self : Gcloud.TranscriptionManager) :
  exec (GcloudThreads.transcribe_prog upper client mic script) self
  = Gcloud._transcribe upper client mic script self.
Proof.
  unfold GcloudThreads.transcribe_prog, Gcloud._transcribe,
    Gcloud._process_responses.
  destruct client as [[]|e]; [|by rewrite exec_handler].
  destruct mic as [[]|e]; [|by rewrite exec_handler].
  cbn [exec]. rewrite exec_then, exec_process_prog.
  destruct (Gcloud.process_loop _ _ _ _) as [self1 [|e|]]; cbn [fst snd exec];
    [done| |done].
  by rewrite exec_handler.
Qed.

(** Running alone, the program of the consumer's call does what
    [get_current_transcript] does. *)
Lemma exec_snapshot (self : Gcloud.TranscriptionManager) :
  exec GcloudThreads.get_current_transcript_prog self
  = (self, Gcloud.get_current_transcript self).
Proof.
  unfold GcloudThreads.get_current_transcript_prog, GcloudThreads.snapshot_body,
    Gcloud.get_current_transcript.
  cbn [exec].
  destruct (truthy (Some (Gcloud.interim_transcript self))); cbn [exec];
    by case_bool_decide.
Qed.

Lemma snapshot_reads_under_lock :
  reads_under_lock GcloudThreads.protected GcloudThreads.snapshot_body.
Proof.
  assert (∀ s s', GcloudThreads.protected s = GcloudThreads.protected s' →
            Gcloud.full_transcript s = Gcloud.full_transcript s'
            ∧ Gcloud.interim_transcript s = Gcloud.interim_transcript s'
            ∧ Gcloud.detected_language s = Gcloud.detected_language s') as Hview.
  { unfold GcloudThreads.protected. intros s s' [= -> -> -> _]. done. }
  assert (∀ get : Gcloud.TranscriptionManager → pystr,
            get = Gcloud.full_transcript ∨ get = Gcloud.interim_transcript
            ∨ get = Gcloud.detected_language →
            ∀ s s', GcloudThreads.protected s = GcloudThreads.protected s' →
                    get s = get s') as Hget.
  { intros get Hcase s s' H. destruct (Hview s s' H) as (Hf & Hi & Hd).
    by destruct Hcase as [->|[->| ->]]. }
  unfold GcloudThreads.snapshot_body. cbn [reads_under_lock].
  split; [apply Hget; auto|]. intros interim.
  destruct (truthy (Some interim)); cbn [reads_under_lock];
    (split; [apply Hget; auto|]); intros detected;
    case_bool_decide; cbn [reads_under_lock];
    repeat first
      [ done
      | split; [apply Hget; auto|]
      | intros ? ].
Qed.

Lemma note_language_disciplined {R} (current_lang : pystr)
    (k : prog Gcloud.TranscriptionManager R) :
  disciplined GcloudThreads.protected false k →
  disciplined GcloudThreads.protected false
    (GcloudThreads.note_language_prog current_lang k).
Proof.
  intros Hk. unfold GcloudThreads.note_language_prog. cbn [disciplined].
  split; [done|]. split; [done|]. intros history.
  case_bool_decide; cbn [disciplined]; by repeat split.
Qed.

Lemma note_transcript_disciplined {R} (is_final : bool)
    (current_lang transcript : pystr) (now : Z)
    (k : prog Gcloud.TranscriptionManager R) :
  disciplined GcloudThreads.protected false k →
  disciplined GcloudThreads.protected false
    (GcloudThreads.note_transcript_prog upper is_final current_lang
       transcript now k).
Proof.
  intros Hk. unfold GcloudThreads.note_transcript_prog.
  destruct is_final; cbn [disciplined]; by repeat split.
Qed.

Lemma process_prog_disciplined (script : list Gcloud.arrival)
    (last_detected_lang : option pystr) :
  disciplined GcloudThreads.protected false
    (GcloudThreads.process_prog upper script last_detected_lang).
Proof.
  revert last_detected_lang.
  induction script as [|a script IH]; intros last_detected_lang;
    cbn [GcloudThreads.process_prog disciplined]; [done|].
  split; [done|].
  assert (∀ k : prog Gcloud.TranscriptionManager loop_exit,
            disciplined GcloudThreads.protected false k →
            disciplined GcloudThreads.protected false
              ((if Gcloud.stop_meanwhile a
                then Store (Gcloud.set_is_recording false)
                else λ k, k) k)) as Hstop.
  { intros k Hk. destruct (Gcloud.stop_meanwhile a); [|done].
    cbn [disciplined]. by split. }
  apply Hstop.
  destruct (Gcloud.next a) as [response| |e]; cbn [disciplined]; [|done|done].
  intros recording. destruct recording; cbn [negb disciplined]; [|done].
  destruct (Gcloud.results response) as [|result ?]; [apply IH|].
  destruct (Gcloud.alternatives result) as [|alternative ?]; [apply IH|].
  cbn [disciplined]. split; [done|].
  match goal with
  | |- context [bool_decide (Some ?cl ≠ last_detected_lang) && ?t] =>
      destruct (bool_decide (Some cl ≠ last_detected_lang) && t)
  end.
  - apply note_language_disciplined, note_transcript_disciplined, IH.
  - apply note_transcript_disciplined, IH.
Qed.

Lemma handler_disciplined (e : exn) :
  disciplined GcloudThreads.protected false (GcloudThreads.handler_prog e).
Proof.
  unfold GcloudThreads.handler_prog.
  destruct (is_Exception e); cbn [disciplined]; by repeat split.
Qed.

(** The receive thread keeps the lock discipline for the two
    transcripts, the detected language and the language history. *)
Lemma transcribe_prog_disciplined (client mic : result ())
    (script : list Gcloud.arrival) :
  disciplined GcloudThreads.protected false
    (GcloudThreads.transcribe_prog upper client mic script).
Proof.
  unfold GcloudThreads.transcribe_prog.
  destruct client as [[]|e]; [|apply handler_disciplined].
  destruct mic as [[]|e]; [|apply handler_disciplined].
  cbn [disciplined]. split; [done|].
  apply disciplined_then; [apply process_prog_disciplined|].
  intros [|e|]; cbn [disciplined]; [by split| |done].
  split; [done|apply handler_disciplined].
Qed.

End GcloudThreads.

(** ** The threads of [soniox_ui.py] *)

Lemma visited_head {T R} (p : prog T R) (s : T) : s ∈ visited p s.
Proof. destruct p; apply list_elem_of_here. Qed.

Lemma alone_visited {T R} (n : nat) (p : prog T R) (s : T) (inside : bool) :
  (alone n (p, s, inside)).1.2 ∈ visited p s.
Proof.
  revert p s inside. induction n as [|n IH]; intros p s inside.
  - apply visited_head.
  - cbn [alone]. destruct p as [r|k|k|A get k|set k|k]; cbn [alone_step visited].
    + apply (IH (Ret r)).
    + apply list_elem_of_further, IH.
    + apply list_elem_of_further, IH.
    + apply list_elem_of_further, IH.
    + apply list_elem_of_further, IH.
    + apply list_elem_of_further, IH.
Qed.

Lemma visited_then {T A B} (p : prog T A) (f : A → prog T B) (s x : T) :
  x ∈ visited (then_ p f) s →
  x ∈ visited p s ∨ x ∈ visited (f (exec p s).2) (exec p s).1.
Proof.
  revert s. induction p as [r|k IH|k IH|X get k IH|set k IH|k IH]; intros s;
    cbn [then_ visited exec]; [by right|..];
    (intros [->|Hx]%elem_of_cons; [left; apply list_elem_of_here|]);
    (apply IH in Hx as [Hx|Hx]; [left; by apply list_elem_of_further|by right]).
Qed.

(** Whatever the other thread does, a lock-free receive thread and a
    consumer that makes one load: the value loaded is the value in a state
    that the receive thread goes through when it runs alone. *)
Lemma single_load_sees_visited_state {T RW A} (w0 : prog T RW) (s0 : T)
    (get : T → A) (schedule : list thread) (r : A) :
  lock_free w0 →
  consumer (run schedule (start_system s0 w0 (Load get Ret))) = Ret r →
  ∃ s, s ∈ visited w0 s0 ∧ r = get s.
Proof.
  intros Hfree.
  assert (∀ c : system T RW A,
            (∃ n inside, alone n (w0, s0, false) = (receiver c, shared c, inside))
            ∧ lock_free (receiver c)
            ∧ (consumer c = Load get Ret
               ∨ ∃ s, s ∈ visited w0 s0 ∧ consumer c = Ret (get s)) →
            consumer (run schedule c) = Ret r →
            ∃ s, s ∈ visited w0 s0 ∧ r = get s) as Hgen.
  { induction schedule as [|t schedule IH]; intros c (Halone & Hlf & Hcons) Hret.
    - cbn [run] in Hret. destruct Hcons as [Hc|(s & Hs & Hc)];
        rewrite Hret in Hc; [done|]. injection Hc as ->. by exists s.
    - cbn [run] in Hret. apply IH in Hret; [done|]. clear IH Hret.
      destruct Halone as (n & inside & Halone).
      destruct c as [s h w p]. cbn [receiver shared holder consumer] in *.
      destruct t; unfold step; cbn [receiver shared holder consumer].
      + destruct w as [x|k|k|X g k|set k|k]; cbn [step_prog lock_free] in *;
          try done;
          (split; [exists (S n), inside; by rewrite alone_succ, Halone|]);
          split; try done. apply Hlf.
      + destruct Hcons as [->|(s1 & Hs1 & ->)]; cbn [step_prog].
        * split; [by exists n, inside|]. split; [done|]. right.
          exists s. split; [|done].
          pose proof (alone_visited n w0 s0 false) as Hv.
          by rewrite Halone in Hv.
        * split; [by exists n, inside|]. split; [done|]. right. by exists s1. }
  apply Hgen. split; [by exists 0%nat, false|]. split; [done|by left].
Qed.

Lemma set_final_tokens_same (self : SonioxUI.TranscriptionSession) :
  SonioxUI.set_final_tokens (SonioxUI.final_tokens self) self = self.
Proof. by destruct self. Qed.

Lemma exec_collect_prog {R} (toks non_final_tokens : list Token)
    (k : list Token → prog SonioxUI.TranscriptionSession R)
    (self : SonioxUI.TranscriptionSession) :
  exec (SonioxUIThreads.collect_prog toks non_final_tokens k) self
  = exec
      (k (non_final_tokens
            ++ filter (λ t, truthy (text t) && negb (is_final t) = true) toks))
      (SonioxUI.set_final_tokens
         (SonioxUI.final_tokens self
            ++ filter (λ t, truthy (text t) && is_final t = true) toks)
         self).
Proof.
  revert non_final_tokens self.
  induction toks as [|t toks IH]; intros non_final_tokens self.
  - cbn [SonioxUIThreads.collect_prog]. rewrite !filter_nil, !app_nil_r.
    by rewrite set_final_tokens_same.
  - cbn [SonioxUIThreads.collect_prog]. rewrite !filter_cons.
    destruct (truthy (text t)), (is_final t); cbn [andb negb exec];
      rewrite IH; repeat case_decide; try done;
      cbn [SonioxUI.final_tokens SonioxUI.set_final_tokens];
      by rewrite <- ?app_assoc.
Qed.

Lemma visited_collect_prog {R} (toks non_final_tokens : list Token)
    (k : list Token → prog SonioxUI.TranscriptionSession R)
    (self x : SonioxUI.TranscriptionSession) :
  x ∈ visited (SonioxUIThreads.collect_prog toks non_final_tokens k) self →
  SonioxUI.current_transcript x = SonioxUI.current_transcript self
  ∨ x ∈ visited
          (k (non_final_tokens
                ++ filter (λ t, truthy (text t) && negb (is_final t) = true) toks))
          (SonioxUI.set_final_tokens
             (SonioxUI.final_tokens self
                ++ filter (λ t, truthy (text t) && is_final t = true) toks)
             self).
Proof.
  revert non_final_tokens self.
  induction toks as [|t toks IH]; intros non_final_tokens self.
  - cbn [SonioxUIThreads.collect_prog]. rewrite !filter_nil, !app_nil_r.
    rewrite set_final_tokens_same. by right.
  - cbn [SonioxUIThreads.collect_prog]. rewrite !filter_cons.
    destruct (truthy (text t)), (is_final t); cbn [andb negb visited];
      repeat case_decide; try done.
    + intros [->|Hx]%elem_of_cons; [by left|].
      apply IH in Hx as [Hx|Hx]; [by left|right].
      cbn [SonioxUI.final_tokens SonioxUI.set_final_tokens] in Hx.
      by rewrite <- app_assoc in Hx.
    + intros Hx. apply IH in Hx as [Hx|Hx]; [by left|right].
      by rewrite <- app_assoc in Hx.
    + apply IH.
    + apply IH.
Qed.

(** Running alone, the program of the receive loop does what
    [receive_loop] does. *)
Lemma exec_receive_prog (script : list SonioxUI.arrival)
    (self : SonioxUI.TranscriptionSession) :
  exec (SonioxUIThreads.receive_prog script) self
  = SonioxUI.receive_loop script self.
Proof.
  revert self. induction script as [|a script IH]; intros self;
    cbn [SonioxUIThreads.receive_prog SonioxUI.receive_loop exec].
  - by destruct (SonioxUI.stop_event self).
  - destruct (SonioxUI.stop_event self); [done|]. cbn [exec].
    set (self1 := if SonioxUI.stop_meanwhile a then _ else self).
    assert (∀ k : prog SonioxUI.TranscriptionSession loop_exit,
              exec ((if SonioxUI.stop_meanwhile a
                     then Store (SonioxUI.set_stop_event true)
                     else λ k, k) k) self
              = exec k self1) as ->
      by (intros k; subst self1; by destruct (SonioxUI.stop_meanwhile a)).
    clearbody self1.
    destruct (SonioxUI.outcome a) as [res|e]; [|done].
    destruct (error_code res) as [code|].
    { by destruct (error_message res). }
    rewrite exec_collect_prog, collect_tokens_spec. cbn [exec app].
    cbn [SonioxUI.final_tokens SonioxUI.set_final_tokens].
    fold (finals res). fold (interims res).
    destruct (SonioxUI.render_tokens _ _) as [txt|e]; cbn [exec]; [|done].
    destruct (finished res); [done|]. apply IH.
Qed.

Lemma exec_receive_messages_prog (script : list SonioxUI.arrival)
    (self : SonioxUI.TranscriptionSession) :
  exec (SonioxUIThreads.receive_messages_prog script) self
  = SonioxUI.receive_messages script self.
Proof.
  unfold SonioxUIThreads.receive_messages_prog, SonioxUI.receive_messages.
  rewrite exec_then, exec_receive_prog.
  destruct (SonioxUI.receive_loop script self) as [self1 [|e|]];
    cbn [fst snd SonioxUIThreads.handler_prog exec]; [done| |done].
  destruct e; cbn [is_Exception exec]; try done;
    by destruct (SonioxUI.stop_event self1).
Qed.

Lemma lock_free_then {T A B} (p : prog T A) (f : A → prog T B) :
  lock_free p → (∀ a, lock_free (f a)) → lock_free (then_ p f).
Proof.
  intros Hp Hf.
  induction p as [r|k IH|k IH|X get k IH|set k IH|k IH];
    cbn [then_ lock_free] in *; try done; auto.
Qed.

Lemma collect_prog_lock_free {R} (toks non_final_tokens : list Token)
    (k : list Token → prog SonioxUI.TranscriptionSession R) :
  (∀ l, lock_free (k l)) →
  lock_free (SonioxUIThreads.collect_prog toks non_final_tokens k).
Proof.
  intros Hk. revert non_final_tokens.
  induction toks as [|t toks IH]; intros non_final_tokens;
    cbn [SonioxUIThreads.collect_prog]; [done|].
  destruct (truthy (text t)), (is_final t); cbn [lock_free]; apply IH.
Qed.

(** The receive thread of [soniox_ui.py] takes no lock. *)
Lemma receive_messages_prog_lock_free (script : list SonioxUI.arrival) :
  lock_free (SonioxUIThreads.receive_messages_prog script).
Proof.
  apply lock_free_then.
  - induction script as [|a script IH];
      cbn [SonioxUIThreads.receive_prog lock_free];
      intros stopped; destruct stopped; try done.
    cbn [lock_free].
    assert (∀ k : prog SonioxUI.TranscriptionSession loop_exit,
              lock_free k →
              lock_free ((if SonioxUI.stop_meanwhile a
                          then Store (SonioxUI.set_stop_event true)
                          else λ k, k) k)) as Hstop
      by (intros k Hk; by destruct (SonioxUI.stop_meanwhile a)).
    apply Hstop.
    destruct (SonioxUI.outcome a) as [res|e]; [|done].
    destruct (error_code res) as [code|].
    { by destruct (error_message res). }
    apply collect_prog_lock_free. intros l. cbn [lock_free]. intros ft.
    destruct (SonioxUI.render_tokens ft l); [|done].
    cbn [lock_free]. by destruct (finished res).
  - intros [|e|]; cbn [SonioxUIThreads.handler_prog lock_free]; try done.
    destruct e; cbn [is_Exception lock_free]; try done;
      intros stopped; by destruct stopped.
Qed.

Lemma receive_loop_nil (self : SonioxUI.TranscriptionSession) :
  (SonioxUI.receive_loop [] self).1 = self.
Proof. cbn [SonioxUI.receive_loop]. by destruct (SonioxUI.stop_event self). Qed.

(** One iteration of the receive loop, spelled out. *)
Lemma receive_loop_cons (a : SonioxUI.arrival) (script : list SonioxUI.arrival)
    (self : SonioxUI.TranscriptionSession) :
  SonioxUI.stop_event self = false →
  SonioxUI.receive_loop (a :: script) self
  = let self1 :=
      if SonioxUI.stop_meanwhile a then SonioxUI.set_stop_event true self
      else self in
    match SonioxUI.outcome a with
    | Raises e => (self1, Raised e)
    | Message res =>
        match error_code res with
        | Some code =>
            match error_message res with
            | Some msg =>
                (SonioxUI.set_current_transcript
                   (py "Error: " ++ code ++ py " - " ++ msg) self1, Break)
            | None => (self1, Raised (KeyError (py "error_message")))
            end
        | None =>
            let self2 :=
              SonioxUI.set_final_tokens
                (SonioxUI.final_tokens self1 ++ finals res) self1 in
            match SonioxUI.render_tokens
                    (SonioxUI.final_tokens self1 ++ finals res) (interims res)
            with
            | Raise e => (self2, Raised e)
            | Ok txt =>
                if finished res
                then (SonioxUI.set_current_transcript txt self2, Break)
                else SonioxUI.receive_loop script
                       (SonioxUI.set_current_transcript txt self2)
            end
        end
    end.
Proof.
  intros Hstop. cbn [SonioxUI.receive_loop]. rewrite Hstop. cbn zeta.
  destruct (SonioxUI.outcome a) as [res|e]; [|done].
  destruct (error_code res); [done|]. by rewrite collect_tokens_spec.
Qed.

(** Every state that the receive loop goes through has the transcript
    that the loop leaves after some number of arrivals. *)
Lemma visited_receive_prog (script : list SonioxUI.arrival)
    (self x : SonioxUI.TranscriptionSession) :
  x ∈ visited (SonioxUIThreads.receive_prog script) self →
  ∃ k, SonioxUI.current_transcript x
       = SonioxUI.current_transcript
           (SonioxUI.receive_loop (take k script) self).1.
Proof.
  revert self x. induction script as [|a script IH]; intros self x.
  - intros Hx. exists 0%nat. rewrite take_0, receive_loop_nil.
    cbn [SonioxUIThreads.receive_prog visited] in Hx.
    destruct (SonioxUI.stop_event self); cbn [visited] in Hx;
      repeat (apply elem_of_cons in Hx as [->|Hx]; [done|]);
      by apply elem_of_nil in Hx.
  - assert (∃ k, SonioxUI.current_transcript self
                 = SonioxUI.current_transcript
                     (SonioxUI.receive_loop (take k (a :: script)) self).1)
      as Hstart by (exists 0%nat; by rewrite take_0, receive_loop_nil).
    cbn [SonioxUIThreads.receive_prog visited].
    intros [->|Hx]%elem_of_cons; [done|].
    destruct (SonioxUI.stop_event self) eqn:Hstop; cbn [visited] in Hx.
    { apply elem_of_cons in Hx as [->|Hx]; [done|]. by apply elem_of_nil in Hx. }
    apply elem_of_cons in Hx as [->|Hx]; [done|].
    pose proof (receive_loop_cons a (take 0 script) self Hstop) as Hone.
    assert (∀ k, SonioxUI.receive_loop (take (S k) (a :: script)) self
                 = SonioxUI.receive_loop (a :: take k script) self) as Htake
      by done.
    set (self1 := if SonioxUI.stop_meanwhile a
                  then SonioxUI.set_stop_event true self else self) in *.
    assert (SonioxUI.current_transcript self1 = SonioxUI.current_transcript self)
      as Hct1 by (subst self1; by destruct (SonioxUI.stop_meanwhile a)).
    assert (x = self
            ∨ x ∈ visited
                (match SonioxUI.outcome a with
                 | Raises e => Ret (Raised e)
                 | Message res =>
                     match error_code res with
                     | Some code =>
                         match error_message res with
                         | Some msg =>
                             Store
                               (SonioxUI.set_current_transcript
                                  (py "Error: " ++ code ++ py " - " ++ msg))
                               (Ret Break)
                         | None => Ret (Raised (KeyError (py "error_message")))
                         end
                     | None =>
                         SonioxUIThreads.collect_prog (tokens res) []
                           (λ non_final_tokens,
                              Load SonioxUI.final_tokens (λ final_tokens,
                                match SonioxUI.render_tokens final_tokens
                                        non_final_tokens with
                                | Raise e => Ret (Raised e)
                                | Ok text =>
                                    Store (SonioxUI.set_current_transcript text)
                                      (if finished res then Ret Break
                                       else SonioxUIThreads.receive_prog script)
                                end))
                     end
                 end) self1) as [->|Hx1]; [|done|].
    { subst self1. destruct (SonioxUI.stop_meanwhile a); [|by right].
      cbn [visited] in Hx. apply elem_of_cons in Hx as [->|Hx]; [by left|by right]. }
    clear Hx.
    destruct (SonioxUI.outcome a) as [res|e] eqn:Hout.
    2:{ cbn [visited] in Hx1. apply elem_of_cons in Hx1 as [->|Hx1];
          [|by apply elem_of_nil in Hx1].
        exists 0%nat. by rewrite take_0, receive_loop_nil. }
    destruct (error_code res) as [code|] eqn:Hcode.
    { destruct (error_message res) as [msg|] eqn:Hmsg; cbn [visited] in Hx1.
      - apply elem_of_cons in Hx1 as [->|Hx1];
          [exists 0%nat; by rewrite take_0, receive_loop_nil|].
        apply elem_of_cons in Hx1 as [->|Hx1]; [|by apply elem_of_nil in Hx1].
        exists 1%nat. rewrite Htake, (receive_loop_cons _ _ _ Hstop).
        cbn zeta. by rewrite Hout, Hcode, Hmsg.
      - apply elem_of_cons in Hx1 as [->|Hx1]; [|by apply elem_of_nil in Hx1].
        exists 0%nat. by rewrite take_0, receive_loop_nil. }
    apply visited_collect_prog in Hx1 as [Hx1|Hx1].
    { exists 0%nat. by rewrite take_0, receive_loop_nil, Hx1. }
    cbn [app visited] in Hx1. fold (finals res) in Hx1. fold (interims res) in Hx1.
    cbn [SonioxUI.final_tokens SonioxUI.set_final_tokens] in Hx1.
    apply elem_of_cons in Hx1 as [->|Hx1].
    { exists 0%nat. by rewrite take_0, receive_loop_nil. }
    destruct (SonioxUI.render_tokens _ _) as [txt|e] eqn:Hrender;
      cbn [visited] in Hx1.
    2:{ apply elem_of_cons in Hx1 as [->|Hx1]; [|by apply elem_of_nil in Hx1].
        exists 0%nat. by rewrite take_0, receive_loop_nil. }
    apply elem_of_cons in Hx1 as [->|Hx1].
    { exists 0%nat. by rewrite take_0, receive_loop_nil. }
    destruct (finished res) eqn:Hfin.
    + cbn [visited] in Hx1.
      apply elem_of_cons in Hx1 as [->|Hx1]; [|by apply elem_of_nil in Hx1].
      exists 1%nat. rewrite Htake, (receive_loop_cons _ _ _ Hstop).
      cbn zeta. fold self1. by rewrite Hout, Hcode, Hrender, Hfin.
    + apply IH in Hx1 as [k Hk]. exists (S k).
      rewrite Htake, (receive_loop_cons _ _ _ Hstop).
      cbn zeta. fold self1. by rewrite Hout, Hcode, Hrender, Hfin.
Qed.

Lemma visited_handler_prog (exit : loop_exit)
    (self x : SonioxUI.TranscriptionSession) :
  x ∈ visited (SonioxUIThreads.handler_prog exit) self →
  SonioxUI.current_transcript x = SonioxUI.current_transcript self
  ∨ x = (exec (SonioxUIThreads.handler_prog exit) self).1.
Proof.
  destruct exit as [|e|]; cbn [SonioxUIThreads.handler_prog visited exec].
  - intros [->|Hx]%elem_of_cons; [by left|by apply elem_of_nil in Hx].
  - destruct e; cbn [is_Exception visited exec];
      try (intros [->|Hx]%elem_of_cons; [by left|by apply elem_of_nil in Hx]);
      (intros [->|Hx]%elem_of_cons; [by left|]);
      (destruct (SonioxUI.stop_event self); cbn [visited exec] in *;
       repeat (apply elem_of_cons in Hx as [->|Hx]; [by auto|]);
       by apply elem_of_nil in Hx).
  - intros [->|Hx]%elem_of_cons; [by left|by apply elem_of_nil in Hx].
Qed.

(** In every interleaving, what [get_transcript] returns is a transcript
    that the receive thread has stored whole. *)
Lemma transcript_snapshot_is_stored (script : list SonioxUI.arrival)
    (self : SonioxUI.TranscriptionSession) (schedule : list thread)
    (r : pystr) :
  consumer
    (run schedule
       (start_system self (SonioxUIThreads.receive_messages_prog script)
          SonioxUIThreads.get_transcript_prog)) = Ret r →
  stored_transcript script self r.
Proof.
  intros Hret.
  apply single_load_sees_visited_state in Hret as (s & Hs & ->);
    [|apply receive_messages_prog_lock_free].
  apply visited_then in Hs as [Hs|Hs].
  - left. by apply visited_receive_prog.
  - rewrite exec_receive_prog in Hs.
    apply visited_handler_prog in Hs as [Hs| ->].
    + left. exists (length script). by rewrite firstn_all.
    + right. rewrite <- exec_receive_messages_prog.
      unfold SonioxUIThreads.receive_messages_prog.
      by rewrite exec_then, exec_receive_prog.
Qed.

(** C8, as the code has it.  In [gcloud_stt_realtime.py] the receive
    thread keeps the lock discipline for the two transcripts, the detected
    language and the language history: it stores to them only inside a
    [with self.lock] block and never waits for the network or the
    microphone inside one; [get_current_transcript] loads under the lock.
    So in every interleaving a snapshot is the snapshot of a state in
    which the receive thread is outside its blocks, never of the inside of
    one.  In [soniox_ui.py] no thread takes a lock; [get_transcript] is a
    single load, and in every interleaving it returns a transcript that
    the receive thread has stored whole: the one left after some number of
    arrivals, or the one left by the exception handler.  Running alone,
    the thread programs do what the functions of the sequential model
    do. *)
Theorem snapshots_are_never_torn
    (upper : pystr → pystr) (client mic : result ())
    (gscript : list Gcloud.arrival) (manager : Gcloud.TranscriptionManager)
    (gschedule : list thread) (snapshot : pystr * pystr)
    (script : list SonioxUI.arrival) (self : SonioxUI.TranscriptionSession)
    (schedule : list thread) (transcript : pystr) :
  let receive := GcloudThreads.transcribe_prog upper client mic gscript in
  consumer
    (run gschedule
       (start_system manager receive GcloudThreads.get_current_transcript_prog))
  = Ret snapshot →
  consumer
    (run schedule
       (start_system self (SonioxUIThreads.receive_messages_prog script)
          SonioxUIThreads.get_transcript_prog))
  = Ret transcript →
  (∃ s, quiescent receive manager s
        ∧ snapshot = Gcloud.get_current_transcript s)
  ∧ disciplined GcloudThreads.protected false receive
  ∧ reads_under_lock GcloudThreads.protected GcloudThreads.snapshot_body
  ∧ exec receive manager = Gcloud._transcribe upper client mic gscript manager
  ∧ stored_transcript script self transcript
  ∧ lock_free (SonioxUIThreads.receive_messages_prog script)
  ∧ exec (SonioxUIThreads.receive_messages_prog script) self
    = SonioxUI.receive_messages script self.
Proof.
  intros receive Hsnapshot Htranscript.
  split; [|split; [|split; [|split; [|split; [|split]]]]].
  - destruct (snapshot_of_quiescent_state GcloudThreads.protected receive
                manager GcloudThreads.snapshot_body gschedule snapshot)
      as (s & Hq & Hs).
    + apply transcribe_prog_disciplined.
    + apply snapshot_reads_under_lock.
    + exact Hsnapshot.
    + exists s. split; [done|].
      pose proof (exec_snapshot s) as Hexec.
      unfold GcloudThreads.get_current_transcript_prog in Hexec.
      cbn [exec] in Hexec. by rewrite Hexec in Hs.
  - apply transcribe_prog_disciplined.
  - apply snapshot_reads_under_lock.
  - apply exec_transcribe_prog.
  - by eapply transcript_snapshot_is_stored.
  - apply receive_messages_prog_lock_free.
  - apply exec_receive_messages_prog.
Qed.

Lemma snapshots_are_never_torn_witness :
  let receive :=
    GcloudThreads.transcribe_prog (λ s, s) (Ok ()) (Ok ()) hello_then_namaste in
  let script := [delivers (batch [plain (py "A") false])] in
  consumer
    (run between_the_blocks
       (start_system recording receive GcloudThreads.get_current_transcript_prog))
  = Ret (py "hello", py "hi-IN (Live)")
  ∧ consumer
      (run [Receiver; Consumer; Receiver]
         (start_system started (SonioxUIThreads.receive_messages_prog script)
            SonioxUIThreads.get_transcript_prog))
    = Ret SonioxUI.listening
  ∧ (∃ s, quiescent receive recording s
          ∧ (py "hello", py "hi-IN (Live)") = Gcloud.get_current_transcript s)
  ∧ stored_transcript script started SonioxUI.listening.
Proof.
  intros receive script.
  assert (consumer
            (run between_the_blocks
               (start_system recording receive
                  GcloudThreads.get_current_transcript_prog))
          = Ret (py "hello", py "hi-IN (Live)")) as Hg
    by (vm_compute; reflexivity).
  assert (consumer
            (run [Receiver; Consumer; Receiver]
               (start_system started
                  (SonioxUIThreads.receive_messages_prog script)
                  SonioxUIThreads.get_transcript_prog))
          = Ret SonioxUI.listening) as Hu
    by (vm_compute; reflexivity).
  split; [exact Hg|]. split; [exact Hu|].
  destruct (snapshots_are_never_torn (λ s, s) (Ok ()) (Ok ())
              hello_then_namaste recording between_the_blocks
              (py "hello", py "hi-IN (Live)") script started
              [Receiver; Consumer; Receiver] SonioxUI.listening Hg Hu)
    as (Hq & _ & _ & _ & Hs & _).
  split; [exact Hq|exact Hs].
Defined.

(** C8 as stated fails.  The session of [soniox_ui.py] stores its
    transcript outside any lock: it has none.  And in
    [gcloud_stt_realtime.py] a snapshot can mix two updates: the receive
    thread has handled the result "hello" in en-US and, of the result
    "namaste" in hi-IN, the block that stores the language but not yet
    the block that stores the transcript; the snapshot is then "hello"
    with the language hi-IN, which is the snapshot after no whole number
    of results. *)
Lemma snapshot_between_the_blocks :
  ¬ disciplined SonioxUI.current_transcript false
      (SonioxUIThreads.receive_messages_prog
         [delivers (batch [plain (py "A") false])])
  ∧ consumer (gcloud_system between_the_blocks)
    = Ret (py "hello", py "hi-IN (Live)")
  ∧ ∀ k, Gcloud.get_current_transcript
           (Gcloud._process_responses (λ s, s) (take k hello_then_namaste)
              recording).1
         ≠ (py "hello", py "hi-IN (Live)").
Proof.
  split; [|split].
  - unfold SonioxUIThreads.receive_messages_prog.
    cbn [SonioxUIThreads.receive_prog then_ disciplined]. intros Hd.
    specialize (Hd false). cbn [then_ disciplined] in Hd.
    destruct Hd as [_ Hd]. specialize (Hd []).
    cbn [then_ disciplined] in Hd. destruct Hd as [Hstore _].
    specialize (Hstore eq_refl started). vm_compute in Hstore. discriminate.
  - vm_compute. reflexivity.
  - intros k. destruct k as [|[|k]]; [vm_compute; discriminate..|].
    replace (take (S (S k)) hello_then_namaste) with hello_then_namaste.
    + vm_compute. discriminate.
    + symmetry. apply take_ge. unfold hello_then_namaste. cbn [length]. lia.
Qed.

(** * Further properties of the code *)

(** ** What the renderers do with the texts *)

Lemma lstrip_no_leading_space (s : pystr) : no_leading_space (lstrip s).
Proof.
  induction s as [|c s IH]; [done|]. cbn [lstrip].
  by destruct (isspace c) eqn:Hc.
Qed.

Lemma lstrip_suffix (s : pystr) :
  ∃ k, lstrip s = drop k s ∧ Forall (λ c, isspace c = true) (take k s).
Proof.
  induction s as [|c s (k & Hk & Hsp)]; [by exists 0%nat|]. cbn [lstrip].
  destruct (isspace c) eqn:Hc.
  - exists (S k). split; [done|]. by apply Forall_cons.
  - by exists 0%nat.
Qed.

(** One iteration of a renderer on a token that has a text: the parts
    it appends end with the text, taken as it is, or stripped when a
    language tag comes directly before it; nothing else it appends is a
    text or a tag. *)
Lemma render_body_shape (v : render_vars) (token : Token) (x : pystr) :
  text token = Some x →
  ∃ v' pre y,
    SonioxUI.render_body v token = Ok v'
    ∧ text_parts v' = text_parts v ++ pre ++ [TokenText y]
    ∧ ((y = x ∧ Forall (λ p, p = ParagraphBreak ∨ ∃ sp, p = SpeakerLabel sp) pre)
       ∨ (y = lstrip x
          ∧ ∃ pre' tr lang,
              pre = pre' ++ [LanguageTag tr lang]
              ∧ Forall (λ p, p = ParagraphBreak ∨ ∃ sp, p = SpeakerLabel sp) pre'))
    ∧ (speaker token = None → language token = None → pre = []).
Proof.
  intros Hx. unfold SonioxUI.render_body. rewrite Hx.
  destruct (speaker token) as [sp|].
  - destruct (bool_decide (Some sp ≠ current_speaker v)).
    + destruct (current_speaker v) as [cur|];
        (destruct (language token) as [lang|]; [case_bool_decide|]);
        cbn [text_parts current_language current_speaker].
      * eexists _, [ParagraphBreak; SpeakerLabel sp; LanguageTag (is_translation_status (translation_status token)) lang], _.
        split; [done|]. split; [by rewrite <- ?app_assoc|]. split; [|done].
        right. split; [done|]. exists [ParagraphBreak; SpeakerLabel sp],
          (is_translation_status (translation_status token)), lang.
        split; [done|]. repeat first [apply Forall_nil_2 | apply Forall_cons_2]; eauto.
      * by contradict H.
      * eexists _, [ParagraphBreak; SpeakerLabel sp], _.
        split; [done|]. split; [by rewrite <- ?app_assoc|]. split; [|done].
        left. split; [done|]. repeat first [apply Forall_nil_2 | apply Forall_cons_2]; eauto.
      * eexists _, [SpeakerLabel sp; LanguageTag (is_translation_status (translation_status token)) lang], _.
        split; [done|]. split; [by rewrite <- ?app_assoc|]. split; [|done].
        right. split; [done|]. exists [SpeakerLabel sp],
          (is_translation_status (translation_status token)), lang.
        split; [done|]. repeat first [apply Forall_nil_2 | apply Forall_cons_2]; eauto.
      * by contradict H.
      * eexists _, [SpeakerLabel sp], _.
        split; [done|]. split; [by rewrite <- ?app_assoc|]. split; [|done].
        left. split; [done|]. repeat first [apply Forall_nil_2 | apply Forall_cons_2]; eauto.
    + destruct (language token) as [lang|]; [case_bool_decide|].
      * eexists _, [LanguageTag (is_translation_status (translation_status token)) lang], _.
        split; [done|]. split; [by rewrite <- ?app_assoc|]. split; [|done].
        right. split; [done|]. by exists [], (is_translation_status (translation_status token)), lang.
      * eexists _, [], _. split; [done|]. split; [done|]. split; [|done].
        by left.
      * eexists _, [], _. split; [done|]. split; [done|]. split; [|done].
        by left.
  - destruct (language token) as [lang|]; [case_bool_decide|].
    + eexists _, [LanguageTag (is_translation_status (translation_status token)) lang], _.
      split; [done|]. split; [by rewrite <- ?app_assoc|]. split; [|done].
      right. split; [done|]. by exists [], (is_translation_status (translation_status token)), lang.
    + eexists _, [], _. split; [done|]. split; [done|]. split; [|done].
      by left.
    + eexists _, [], _. split; [done|]. split; [done|]. split; [|done].
      by left.
Qed.

Lemma token_texts_app (l1 l2 : list part) :
  token_texts (l1 ++ l2) = token_texts l1 ++ token_texts l2.
Proof. apply omap_app. Qed.

Lemma token_texts_labels (pre : list part) :
  Forall (λ p, p = ParagraphBreak ∨ ∃ sp, p = SpeakerLabel sp) pre →
  token_texts pre = [] ∧ tags_trimmed pre
  ∧ ∀ rest, tags_trimmed rest → tags_trimmed (pre ++ rest).
Proof.
  induction 1 as [|p pre [->|[sp ->]] _ (IH1 & IH2 & IH3)]; [done|..];
    (split; [done|]; split; [done|]; intros rest Hrest; by apply IH3).
Qed.

Lemma tags_trimmed_app (l1 l2 : list part) :
  tags_trimmed l1 → (l1 = [] ∨ ∃ l0 t, l1 = l0 ++ [TokenText t]) →
  tags_trimmed l2 → tags_trimmed (l1 ++ l2).
Proof.
  intros H1 Hend H2. induction l1 as [|p l1 IH]; [done|].
  assert (l1 = [] ∨ ∃ l0 t, l1 = l0 ++ [TokenText t]) as Hend'.
  { destruct Hend as [|(l0 & t & Heq)]; [done|].
    destruct l0 as [|q l0]; [left; by injection Heq|right].
    injection Heq as -> ->. eauto. }
  destruct p; cbn [app tags_trimmed] in *; try (by apply IH).
  destruct H1 as [Hhead Htail]. split; [|by apply IH].
  destruct l1 as [|[] l1]; done.
Qed.

(** The parts that one iteration appends keep the tags trimmed. *)
Lemma render_block_trimmed (pre : list part) (x y : pystr) :
  (y = x ∧ Forall (λ p, p = ParagraphBreak ∨ ∃ sp, p = SpeakerLabel sp) pre)
  ∨ (y = lstrip x
     ∧ ∃ pre' tr lang,
         pre = pre' ++ [LanguageTag tr lang]
         ∧ Forall (λ p, p = ParagraphBreak ∨ ∃ sp, p = SpeakerLabel sp) pre') →
  token_texts (pre ++ [TokenText y]) = [y]
  ∧ tags_trimmed (pre ++ [TokenText y]).
Proof.
  intros [[-> Hpre]|(-> & pre' & tr & lang & -> & Hpre)].
  - destruct (token_texts_labels pre Hpre) as (Ht & _ & Happ).
    split; [by rewrite token_texts_app, Ht|]. by apply Happ.
  - destruct (token_texts_labels pre' Hpre) as (Ht & _ & Happ).
    split; [by rewrite !token_texts_app, Ht|].
    rewrite <- app_assoc. apply Happ. cbn [app tags_trimmed].
    split; [apply lstrip_no_leading_space|done].
Qed.

Lemma render_loop_texts (toks : list Token) (v v' : render_vars) :
  for_each SonioxUI.render_body toks v = Ok v' →
  ∃ added,
    text_parts v' = text_parts v ++ added
    ∧ Forall2 (λ token y, ∃ x, text token = Some x ∧ (y = x ∨ y = lstrip x))
        toks (token_texts added)
    ∧ tags_trimmed added
    ∧ (added = [] ∨ ∃ l0 t, added = l0 ++ [TokenText t])
    ∧ (Forall (λ t, speaker t = None ∧ language t = None) toks →
       added = TokenText <$> omap text toks).
Proof.
  revert v. induction toks as [|token toks IH]; intros v; cbn [for_each].
  - intros [= <-]. exists []. rewrite app_nil_r. repeat split; auto.
  - destruct (text token) as [x|] eqn:Hx.
    2:{ unfold SonioxUI.render_body. by rewrite Hx. }
    destruct (render_body_shape v token x Hx)
      as (v1 & pre & y & Hbody & Hparts & Hshape & Hplain).
    rewrite Hbody. cbn [mbind result_bind]. intros Hrest.
    apply IH in Hrest as (added & Hadded & Htexts & Htrim & Hend & Hplain').
    destruct (render_block_trimmed pre x y Hshape) as [Hty Htb].
    exists ((pre ++ [TokenText y]) ++ added).
    split; [by rewrite Hadded, Hparts, <- !app_assoc|].
    split.
    { rewrite token_texts_app, Hty. cbn [app]. constructor; [|done].
      exists x. split; [done|]. destruct Hshape as [[-> _]|[-> _]]; auto. }
    split; [apply tags_trimmed_app; eauto|].
    split.
    { right. destruct Hend as [->|(l0 & t & ->)].
      - exists pre, y. by rewrite app_nil_r.
      - exists ((pre ++ [TokenText y]) ++ l0), t. by rewrite <- !app_assoc. }
    intros Hall. apply Forall_cons in Hall as [[Hsp Hlang] Hall].
    rewrite (Hplain Hsp Hlang), (Hplain' Hall). cbn [omap list_omap app].
    rewrite Hx. cbn [fmap list_fmap].
    destruct Hshape as [[-> _]|(_ & pre' & tr & lang & Hpre & _)]; [done|].
    rewrite (Hplain Hsp Hlang) in Hpre. by destruct pre'.
Qed.

(** X1.  Both renderers keep every text: the texts they emit are the texts of
    the tokens, in order, each as it is or with its leading white space
    removed; and every language tag is directly followed by a text that
    does not start with white space.  A renderer fails only with
    [KeyError: 'text'], and exactly when some token has no text. *)
Theorem render_keeps_every_text (final_tokens non_final_tokens : list Token) :
  (∀ parts,
     SonioxUI.render_parts final_tokens non_final_tokens = Ok parts →
     Forall2 (λ token y, ∃ x, text token = Some x ∧ (y = x ∨ y = lstrip x))
       (final_tokens ++ non_final_tokens) (token_texts parts)
     ∧ tags_trimmed parts
     ∧ SonioxRealtime.render_parts final_tokens non_final_tokens
       = Ok (parts ++ [Terminator])
     ∧ token_texts (parts ++ [Terminator]) = token_texts parts)
  ∧ (∀ e, SonioxUI.render_tokens final_tokens non_final_tokens = Raise e →
          e = KeyError (py "text")
          ∧ Exists (λ t, text t = None) (final_tokens ++ non_final_tokens))
  ∧ (Forall (λ t, is_Some (text t)) (final_tokens ++ non_final_tokens) →
     ∃ txt, SonioxUI.render_tokens final_tokens non_final_tokens = Ok txt
            ∧ SonioxRealtime.render_tokens final_tokens non_final_tokens
              = Ok (txt ++ terminator)).
Proof.
  split; [|split].
  - intros parts Hparts.
    assert (SonioxRealtime.render_parts final_tokens non_final_tokens
            = Ok (parts ++ [Terminator])) as Hreal
      by (by rewrite render_parts_realtime_ui, Hparts).
    unfold SonioxUI.render_parts in Hparts.
    destruct (for_each _ _ _) as [v|e] eqn:Hloop; [|done].
    cbn in Hparts. injection Hparts as <-.
    apply render_loop_texts in Hloop as (added & Hadded & Htexts & Htrim & _).
    cbn [text_parts app] in Hadded. rewrite Hadded in *.
    split; [done|]. split; [done|]. split; [done|].
    by rewrite token_texts_app, app_nil_r.
  - intros e. unfold SonioxUI.render_tokens, SonioxUI.render_parts.
    generalize {| text_parts := []; current_speaker := None;
                  current_language := None |}.
    induction (final_tokens ++ non_final_tokens) as [|token toks IH];
      intros v; cbn [for_each]; [done|].
    destruct (text token) as [x|] eqn:Hx.
    + destruct (render_body_shape v token x Hx) as (v1 & pre & y & -> & _).
      cbn [mbind result_bind]. intros Hrest.
      apply IH in Hrest as [-> Hex]. split; [done|by apply Exists_cons_tl].
    + unfold SonioxUI.render_body. rewrite Hx. cbn. intros [= <-].
      split; [done|by apply Exists_cons_hd].
  - intros Hall.
    assert (∃ txt, SonioxUI.render_tokens final_tokens non_final_tokens = Ok txt)
      as [txt Htxt].
    { destruct (SonioxUI.render_tokens final_tokens non_final_tokens)
        as [txt|e] eqn:Hr; [eauto|].
      unfold SonioxUI.render_tokens, SonioxUI.render_parts in Hr.
      exfalso. revert Hr.
      generalize {| text_parts := []; current_speaker := None;
                    current_language := None |}.
      induction Hall as [|token toks [x Hx] _ IH]; intros v; cbn [for_each];
        [done|].
      destruct (render_body_shape v token x Hx) as (v1 & pre & y & -> & _).
      apply IH. }
    exists txt. split; [done|].
    unfold SonioxRealtime.render_tokens, SonioxUI.render_tokens in *.
    rewrite render_parts_realtime_ui.
    destruct (SonioxUI.render_parts final_tokens non_final_tokens)
      as [parts|e]; [|done].
    cbn in *. injection Htxt as <-.
    by rewrite join_parts_app, join_parts_singleton.
Qed.

Lemma render_keeps_every_text_witness :
  ∃ parts,
    SonioxUI.render_parts [] en_en_hi_hi = Ok parts
    ∧ tags_trimmed parts
    ∧ token_texts parts
      = [py "Hello"; py " friends"; py "namaste"; py " dosto"]
    ∧ ∃ txt, SonioxUI.render_tokens (take 2 en_en_hi_hi) (drop 2 en_en_hi_hi)
             = Ok txt.
Proof.
  eexists. split; [vm_compute; reflexivity|].
  destruct (render_keeps_every_text (take 2 en_en_hi_hi) (drop 2 en_en_hi_hi))
    as (Hparts & _ & Hok).
  split; [|split; [vm_compute; reflexivity|]].
  - refine (proj1 (proj2 (Hparts _ _))). vm_compute. reflexivity.
  - destruct Hok as (txt & Htxt & _); [|by exists txt].
    repeat constructor; by eexists.
Defined.

Lemma join_token_texts (l : list pystr) : join_parts (TokenText <$> l) = concat l.
Proof.
  unfold join_parts. rewrite join_nil_concat. f_equal.
  induction l as [|x l IH]; [done|]. cbn [fmap list_fmap part_str] in *.
  by rewrite IH.
Qed.

(** X2.  Tokens that carry neither a speaker nor a language are rendered as
    their texts, one after the other, with nothing added and nothing
    stripped. *)
Theorem render_plain_tokens (final_tokens non_final_tokens : list Token) :
  Forall (λ t, speaker t = None ∧ language t = None ∧ is_Some (text t))
    (final_tokens ++ non_final_tokens) →
  SonioxUI.render_tokens final_tokens non_final_tokens
  = Ok (concat (omap text (final_tokens ++ non_final_tokens)))
  ∧ SonioxRealtime.render_tokens final_tokens non_final_tokens
    = Ok (concat (omap text (final_tokens ++ non_final_tokens)) ++ terminator).
Proof.
  intros Hall.
  assert (SonioxUI.render_parts final_tokens non_final_tokens
          = Ok (TokenText <$> omap text (final_tokens ++ non_final_tokens)))
    as Hparts.
  { unfold SonioxUI.render_parts.
    destruct (for_each _ _ _) as [v|e] eqn:Hloop.
    - apply render_loop_texts in Hloop as (added & Hadded & _ & _ & _ & Hplain).
      cbn [text_parts app] in Hadded. cbn. rewrite Hadded, Hplain; [done|].
      eapply Forall_impl; [exact Hall|]. by intros t (? & ? & _).
    - exfalso. revert Hloop.
      generalize {| text_parts := []; current_speaker := None;
                    current_language := None |}.
      induction Hall as [|token toks (_ & _ & [x Hx]) _ IH]; intros v;
        cbn [for_each]; [done|].
      destruct (render_body_shape v token x Hx) as (v1 & pre & y & -> & _).
      apply IH. }
  unfold SonioxRealtime.render_tokens, SonioxUI.render_tokens.
  rewrite render_parts_realtime_ui, Hparts. cbn.
  by rewrite join_parts_app, join_parts_singleton, join_token_texts.
Qed.

Lemma render_plain_tokens_witness :
  SonioxUI.render_tokens [plain (py "so ") true] [plain (py " far") false]
  = Ok (py "so  far").
Proof.
  refine (proj1 (render_plain_tokens [plain (py "so ") true]
                   [plain (py " far") false] _)).
  repeat constructor; by eexists.
Defined.

(** ** The line printed by the command-line session *)

Lemma is_prefix_spec (p s : pystr) :
  is_prefix p s = true ↔ ∃ b, s = p ++ b.
Proof.
  revert s. induction p as [|a p IH]; intros s; cbn [is_prefix].
  - split; [intros _; by exists s|done].
  - destruct s as [|c s].
    + split; [done|]. by intros [b Hb].
    + rewrite andb_true_iff, N.eqb_eq, IH. split.
      * intros [-> [b ->]]. by exists b.
      * intros [b Hb]. cbn [app] in Hb. injection Hb as -> ->. eauto.
Qed.

Lemma before_first_prefix (sep s : pystr) : before_first sep s `prefix_of` s.
Proof.
  induction s as [|c s IH]; cbn [before_first]; [done|].
  destruct (is_prefix sep (c :: s)); [apply prefix_nil|by apply prefix_cons].
Qed.

Lemma before_first_occurrence (sep a b : pystr) :
  before_first sep (a ++ sep ++ b) `prefix_of` a.
Proof.
  induction a as [|c a IH]; cbn [app].
  - destruct (sep ++ b) as [|c s] eqn:Hs; cbn [before_first]; [done|].
    assert (is_prefix sep (c :: s) = true) as ->; [|done].
    apply is_prefix_spec. by exists b.
  - cbn [before_first].
    destruct (is_prefix sep (c :: a ++ sep ++ b));
      [apply prefix_nil|by apply prefix_cons].
Qed.

(** The part before the first occurrence holds no occurrence. *)
Lemma before_first_clean (sep s : pystr) :
  sep ≠ [] → ¬ occurs sep (before_first sep s).
Proof.
  intros Hsep. induction s as [|c s IH]; cbn [before_first].
  - intros (a & b & Heq). destruct a, sep; done.
  - destruct (is_prefix sep (c :: s)) eqn:Hpre.
    + intros (a & b & Heq). destruct a, sep; done.
    + intros (a & b & Heq). destruct a as [|c' a]; cbn [app] in Heq.
      * assert (is_prefix sep (c :: s) = true); [|congruence].
        apply is_prefix_spec.
        destruct (before_first_prefix sep s) as [k Hk].
        exists (b ++ k). rewrite app_assoc, <- Heq. cbn [app]. by rewrite <- Hk.
      * injection Heq as <- Heq. apply IH. by exists a, b.
Qed.

Lemma terminator_shape : terminator = 10 :: replicate 31 61.
Proof. vm_compute. reflexivity. Qed.

(** The terminator does not overlap itself: it starts with a line feed
    and has no other. *)
Lemma terminator_starts_here (s b : pystr) :
  s ≠ [] → s ++ terminator = terminator ++ b → ∃ b', s = terminator ++ b'.
Proof.
  intros Hne Heq.
  destruct (decide (length terminator ≤ length s)%nat) as [Hlen|Hlen].
  - exists (drop (length terminator) s).
    rewrite <- (take_drop (length terminator) s) at 1. f_equal.
    apply (f_equal (take (length terminator))) in Heq.
    rewrite take_app_le in Heq by done.
    by rewrite take_app_length in Heq.
  - exfalso. apply (f_equal (λ l, l !! length s)) in Heq. cbn beta in Heq.
    rewrite lookup_app_r, Nat.sub_diag in Heq by done.
    rewrite lookup_app_l in Heq by lia.
    rewrite terminator_shape in Heq, Hlen. cbn [lookup list_lookup] in Heq.
    destruct (length s) as [|m] eqn:Hm; [by destruct s|].
    cbn [lookup list_lookup] in Heq.
    cbn [length] in Hlen. rewrite length_replicate in Hlen.
    symmetry in Heq. apply lookup_replicate in Heq as [Heq _]. discriminate.
Qed.

Lemma before_first_terminator (t : pystr) :
  ¬ occurs terminator t → before_first terminator (t ++ terminator) = t.
Proof.
  induction t as [|c t IH]; intros Hno.
  - vm_compute. reflexivity.
  - cbn [app before_first].
    destruct (is_prefix terminator (c :: t ++ terminator)) eqn:Hpre.
    + exfalso. apply is_prefix_spec in Hpre as [b Hb].
      destruct (terminator_starts_here (c :: t) b) as [b' Hb']; [done|done|].
      apply Hno. exists [], b'. by rewrite Hb'.
    + f_equal. apply IH. intros (a & b & ->). apply Hno.
      by exists (c :: a), b.
Qed.

(** X3.  What the command-line session prints for a response is what the
    interface stores as its transcript, cut before the first line feed
    that is followed by thirty-one equals signs, so that the printed line
    never holds such a terminator line.  The two are the same
    exactly when no token text (or label) brings such a line into the
    transcript; otherwise the printed line is a proper prefix of it. *)
Theorem printed_line_is_transcript_prefix
    (final_tokens non_final_tokens : list Token) (t : pystr) :
  SonioxUI.render_tokens final_tokens non_final_tokens = Ok t →
  ∃ text,
    SonioxRealtime.render_tokens final_tokens non_final_tokens = Ok text
    ∧ ¬ occurs terminator (before_first terminator text)
    ∧ before_first terminator text `prefix_of` t
    ∧ (before_first terminator text = t ↔ ¬ occurs terminator t).
Proof.
  intros Ht. exists (t ++ terminator). split.
  { unfold SonioxRealtime.render_tokens, SonioxUI.render_tokens in *.
    rewrite render_parts_realtime_ui.
    destruct (SonioxUI.render_parts _ _) as [parts|e]; [|done].
    cbn in *. injection Ht as <-.
    by rewrite join_parts_app, join_parts_singleton. }
  split; [by apply before_first_clean|].
  assert (occurs terminator t →
          length (before_first terminator (t ++ terminator)) < length t)%nat
    as Hshort.
  { intros (a & b & ->).
    pose proof (before_first_occurrence terminator a (b ++ terminator)) as Hp.
    rewrite <- !app_assoc. apply prefix_length in Hp.
    rewrite !length_app.
    assert (0 < length terminator)%nat by (vm_compute; lia). lia. }
  split.
  - clear. induction t as [|c t IH].
    { by replace (before_first terminator ([] ++ terminator)) with (@nil N)
        by (vm_compute; reflexivity). }
    cbn [app before_first].
    destruct (is_prefix terminator (c :: t ++ terminator));
      [apply prefix_nil|by apply prefix_cons].
  - split.
    + intros Heq Hocc. apply Hshort in Hocc. rewrite Heq in Hocc. lia.
    + apply before_first_terminator.
Qed.

Lemma printed_line_is_transcript_prefix_witness :
  ∃ text,
    SonioxRealtime.render_tokens [plain (py "ok") true] [] = Ok text
    ∧ ¬ occurs terminator (before_first terminator text)
    ∧ before_first terminator text `prefix_of` py "ok"
    ∧ (before_first terminator text = py "ok" ↔ ¬ occurs terminator (py "ok")).
Proof.
  apply (printed_line_is_transcript_prefix [plain (py "ok") true] [] (py "ok")).
  vm_compute. reflexivity.
Defined.

(** ** When the receive loops end *)

Lemma receive_loop_waits (script : list SonioxUI.arrival)
    (self : SonioxUI.TranscriptionSession) :
  Forall has_text (SonioxUI.final_tokens self) →
  (SonioxUI.receive_loop script self).2 = Blocked
  ↔ SonioxUI.stop_event self = false ∧ Forall ordinary script.
Proof.
  revert self. induction script as [|a script IH]; intros self Hinv.
  - cbn [SonioxUI.receive_loop].
    destruct (SonioxUI.stop_event self); cbn [snd]; split; try done.
    by intros [? _].
  - destruct (SonioxUI.stop_event self) eqn:Hstop.
    { cbn [SonioxUI.receive_loop]. rewrite Hstop. cbn [snd].
      split; [done|by intros [? _]]. }
    rewrite receive_loop_cons by done. cbn zeta.
    rewrite Forall_cons. unfold ordinary at 1, ordinary_response.
    set (self1 := if SonioxUI.stop_meanwhile a then _ else self).
    assert (SonioxUI.final_tokens self1 = SonioxUI.final_tokens self
            ∧ SonioxUI.stop_event self1 = SonioxUI.stop_meanwhile a) as [Hf Hs]
      by (subst self1; by destruct (SonioxUI.stop_meanwhile a)).
    clearbody self1.
    destruct (SonioxUI.outcome a) as [res|e]; cbn [snd].
    2:{ split; [done|]. by intros (_ & (_ & res & ? & _) & _). }
    destruct (error_code res) as [code|] eqn:Hcode.
    { destruct (error_message res); cbn [snd]; (split; [done|]);
        intros (_ & (_ & res' & [= <-] & ? & _) & _); congruence. }
    destruct (render_tokens_total (SonioxUI.final_tokens self1 ++ finals res)
                (interims res)) as [txt ->].
    { apply Forall_app. rewrite Hf. split; [done|apply finals_have_text]. }
    { apply interims_have_text. }
    destruct (finished res) eqn:Hfin; cbn [snd].
    { split; [done|].
      intros (_ & (_ & res' & [= <-] & _ & ?) & _); congruence. }
    rewrite IH.
    + cbn [SonioxUI.set_current_transcript SonioxUI.set_final_tokens
             SonioxUI.stop_event].
      rewrite Hs. split.
      * intros [? ?]. repeat split; eauto.
      * by intros (_ & (? & _) & ?).
    + cbn [SonioxUI.set_current_transcript SonioxUI.set_final_tokens
             SonioxUI.final_tokens].
      apply Forall_app. rewrite Hf. split; [done|apply finals_have_text].
Qed.

Lemma receive_messages_blocked (script : list SonioxUI.arrival)
    (self : SonioxUI.TranscriptionSession) :
  (SonioxUI.receive_messages script self).2 = Blocked
  ↔ (SonioxUI.receive_loop script self).2 = Blocked.
Proof.
  unfold SonioxUI.receive_messages.
  destruct (SonioxUI.receive_loop script self) as [self1 [|e|]]; cbn [snd];
    [done| |done].
  destruct e; cbn [is_Exception snd]; try done;
    by destruct (SonioxUI.stop_event self1).
Qed.

(** X4.  The receive thread of the interface is still waiting for a message
    exactly when the stop event was clear at the start, nobody has set it
    since, and every message so far was a response without error code
    that did not finish the session.  Once the thread has ended, whatever
    arrives later changes nothing in the session. *)
Theorem receive_thread_waits_iff (script : list SonioxUI.arrival)
    (self : SonioxUI.TranscriptionSession) :
  Forall has_text (SonioxUI.final_tokens self) →
  ((SonioxUI.receive_messages script self).2 = Blocked
   ↔ SonioxUI.stop_event self = false ∧ Forall ordinary script)
  ∧ ((SonioxUI.receive_messages script self).2 ≠ Blocked →
     ∀ more, SonioxUI.receive_messages (script ++ more) self
             = SonioxUI.receive_messages script self).
Proof.
  intros Hinv. split.
  - rewrite receive_messages_blocked. by apply receive_loop_waits.
  - rewrite receive_messages_blocked. intros Hleft more.
    unfold SonioxUI.receive_messages. rewrite receive_loop_app.
    by destruct (SonioxUI.receive_loop script self) as [self1 [|e|]].
Qed.

Lemma receive_thread_waits_iff_witness :
  (SonioxUI.receive_messages
     [delivers (batch [plain (py "hi") true]); fails_with connection_lost]
     started).2 ≠ Blocked
  ∧ SonioxUI.receive_messages
      ([delivers (batch [plain (py "hi") true]); fails_with connection_lost]
         ++ [delivers (batch [plain (py " there") true])]) started
    = SonioxUI.receive_messages
        [delivers (batch [plain (py "hi") true]); fails_with connection_lost]
        started.
Proof.
  assert ((SonioxUI.receive_messages
             [delivers (batch [plain (py "hi") true]);
              fails_with connection_lost] started).2 ≠ Blocked) as Hleft
    by (vm_compute; discriminate).
  split; [exact Hleft|].
  apply (proj2 (receive_thread_waits_iff
                  [delivers (batch [plain (py "hi") true]);
                   fails_with connection_lost] started (Forall_nil_2 _)) Hleft).
Defined.

(** X5.  The command-line loop and the interface's loop, fed the same
    messages and never told to stop, keep the same final tokens and are
    left at the same message in the same way. *)
Theorem realtime_and_ui_loops_agree (script : list recv_outcome)
    (st : SonioxRealtime.session_vars) (self : SonioxUI.TranscriptionSession) :
  SonioxRealtime.final_tokens st = SonioxUI.final_tokens self →
  SonioxUI.stop_event self = false →
  (SonioxRealtime.receive_loop script st).2
  = (SonioxUI.receive_loop (quiet <$> script) self).2
  ∧ SonioxRealtime.final_tokens (SonioxRealtime.receive_loop script st).1
    = SonioxUI.final_tokens (SonioxUI.receive_loop (quiet <$> script) self).1
  ∧ SonioxRealtime.stop_event (SonioxRealtime.receive_loop script st).1
    = SonioxRealtime.stop_event st.
Proof.
  revert st self. induction script as [|[res|e] script IH];
    intros st self Hf Hstop; cbn [fmap list_fmap].
  - cbn [SonioxUI.receive_loop SonioxRealtime.receive_loop]. by rewrite Hstop.
  - rewrite receive_loop_cons by done.
    cbn [SonioxRealtime.receive_loop quiet SonioxUI.stop_meanwhile
           SonioxUI.outcome]. cbn zeta.
    destruct (error_code res) as [code|].
    { by destruct (error_message res). }
    rewrite collect_same, collect_tokens_spec, Hf.
    unfold SonioxRealtime.render_tokens, SonioxUI.render_tokens.
    rewrite render_parts_realtime_ui.
    destruct (SonioxUI.render_parts _ _) as [parts|e]; cbn; [|done].
    destruct (finished res); [done|].
    match goal with
    | |- context [SonioxRealtime.receive_loop script ?st1] =>
        match goal with
        | |- context [SonioxUI.receive_loop (quiet <$> script) ?self1] =>
            destruct (IH st1 self1) as (Hexit & Hfinal & Hevent); [done|done|]
        end
    end.
    by rewrite Hexit, Hfinal, Hevent.
  - rewrite receive_loop_cons by done. by cbn.
Qed.

Lemma realtime_and_ui_loops_agree_witness :
  (SonioxRealtime.receive_loop
     [Message (batch [plain (py "hi") true]); Raises connection_lost]
     {| SonioxRealtime.final_tokens := [];
        SonioxRealtime.stop_event := false;
        SonioxRealtime.printed := [] |}).2
  = Raised connection_lost.
Proof.
  rewrite (proj1 (realtime_and_ui_loops_agree
                    [Message (batch [plain (py "hi") true]);
                     Raises connection_lost]
                    {| SonioxRealtime.final_tokens := [];
                       SonioxRealtime.stop_event := false;
                       SonioxRealtime.printed := [] |}
                    started eq_refl eq_refl)).
  vm_compute. reflexivity.
Defined.

Lemma realtime_loop_stop_event (script : list recv_outcome)
    (st : SonioxRealtime.session_vars) :
  SonioxRealtime.stop_event (SonioxRealtime.receive_loop script st).1
  = SonioxRealtime.stop_event st.
Proof.
  revert st. induction script as [|[res|e] script IH]; intros st;
    cbn [SonioxRealtime.receive_loop]; [done| |done].
  destruct (error_code res); [by destruct (error_message res)|].
  destruct (SonioxRealtime.collect_tokens _ res) as [final_tokens' non_final_tokens].
  destruct (SonioxRealtime.render_tokens _ _); [|done].
  destruct (finished res); [done|]. by rewrite IH.
Qed.

(** X6.  The command-line session sets the stop event of its capture thread
    only when its receive loop is left by an exception other than a
    normal close: after a finished session, an error response or a normal
    close the event stays clear.  The multilingual session sets it
    whenever its loop is left. *)
Theorem stop_event_after_receive (script : list recv_outcome) :
  (SonioxRealtime.stop_event (SonioxRealtime.receive script).1 = true
   ↔ ∃ e, (SonioxRealtime.receive_loop script
             {| SonioxRealtime.final_tokens := [];
                SonioxRealtime.stop_event := false;
                SonioxRealtime.printed := [] |}).2 = Raised e
          ∧ e ≠ ConnectionClosedOK)
  ∧ ∀ isalnum lower hindi_dict gujarati_dict,
      (Multilingual.receive isalnum lower hindi_dict gujarati_dict script).2
      = true
      ↔ (Multilingual.receive_loop isalnum lower hindi_dict gujarati_dict
           script []).2 ≠ Blocked.
Proof.
  split.
  - unfold SonioxRealtime.receive.
    pose proof (realtime_loop_stop_event script
                  {| SonioxRealtime.final_tokens := [];
                     SonioxRealtime.stop_event := false;
                     SonioxRealtime.printed := [] |}) as Hkeep.
    destruct (SonioxRealtime.receive_loop script _) as [st [|e|]];
      cbn [fst snd SonioxRealtime.stop_event] in *.
    + rewrite Hkeep. split; [done|]. by intros (e & ? & _).
    + destruct e; cbn [fst SonioxRealtime.set_stop_event SonioxRealtime.print
                         SonioxRealtime.stop_event]; rewrite ?Hkeep.
      * split; [intros _; by eexists|done].
      * split; [done|]. intros (e & [= <-] & ?). done.
      * split; [intros _; by eexists|done].
      * split; [intros _; by eexists|done].
    + rewrite Hkeep. split; [done|]. by intros (e & ? & _).
  - intros isalnum lower hindi_dict gujarati_dict.
    unfold Multilingual.receive.
    destruct (Multilingual.receive_loop _ _ _ _ _ _) as [printed [|e|]];
      cbn [snd]; [done| |done].
    by destruct e.
Qed.

(** ** Starting and stopping the interface's session *)

(** X7.  A successful [start] on a session that is not running resets the
    final tokens, the stop event and the transcript whatever the session
    held before; the [stop] that follows joins both threads, closes the
    connection that [start] opened and forgets it; and a second [stop]
    does nothing. *)
Theorem stop_after_start (conn : N) (self : SonioxUI.TranscriptionSession) :
  SonioxUI.is_running self = false →
  let started := SonioxUI.start (Ok conn) (Ok ()) self in
  let stopped := SonioxUI.stop started.1.2 in
  started.1.1 = Ok ([9989] ++ py " Recording started")
  ∧ SonioxUI.final_tokens started.1.2 = []
  ∧ SonioxUI.stop_event started.1.2 = false
  ∧ SonioxUI.get_transcript started.1.2 = SonioxUI.listening
  ∧ stopped.2
    = [SonioxUI.Join_audio_thread; SonioxUI.Join_receive_thread;
       SonioxUI.Close conn]
  ∧ SonioxUI.ws stopped.1.2 = None
  ∧ SonioxUI.is_running stopped.1.2 = false
  ∧ SonioxUI.stop_event stopped.1.2 = true
  ∧ SonioxUI.get_transcript stopped.1.2 = SonioxUI.listening
  ∧ SonioxUI.stop stopped.1.2 = (py "No active session", stopped.1.2, []).
Proof.
  intros Hrun. cbn zeta. unfold SonioxUI.start. rewrite Hrun.
  cbn zeta beta iota. cbn [fst snd]. unfold SonioxUI.stop.
  cbn [SonioxUI.is_running SonioxUI.set_threads SonioxUI.set_is_running
       SonioxUI.set_current_transcript SonioxUI.set_final_tokens
       SonioxUI.set_stop_event SonioxUI.set_ws SonioxUI.ws
       SonioxUI.audio_thread SonioxUI.receive_thread SonioxUI.final_tokens
       SonioxUI.stop_event SonioxUI.get_transcript
       SonioxUI.current_transcript negb fst snd app].
  repeat split; reflexivity.
Qed.

Lemma stop_after_start_witness :
  let started :=
    SonioxUI.start (Ok 7) (Ok ())
      (SonioxUI.init (py "key") (py "pcm_s16le") (py "none")) in
  (SonioxUI.stop started.1.2).2
  = [SonioxUI.Join_audio_thread; SonioxUI.Join_receive_thread;
     SonioxUI.Close 7].
Proof.
  refine (proj1 (proj2 (proj2 (proj2 (proj2
    (stop_after_start 7
       (SonioxUI.init (py "key") (py "pcm_s16le") (py "none")) _)))))).
  reflexivity.
Defined.

(** X8.  When the connection opens but sending the configuration fails,
    [start] reports the failure and keeps the connection in the session,
    which is not running: [stop] then does nothing, so that connection is
    never closed, and the next successful [start] replaces it with the
    new one. *)
Theorem failed_start_keeps_connection (conn : N) (e : exn)
    (self : SonioxUI.TranscriptionSession) :
  SonioxUI.is_running self = false → is_Exception e = true →
  let failed := SonioxUI.start (Ok conn) (Raise e) self in
  failed.1.1 = Ok ([10060] ++ py " Failed to start: " ++ str_exn e)
  ∧ failed.2 = []
  ∧ SonioxUI.ws failed.1.2 = Some conn
  ∧ SonioxUI.is_running failed.1.2 = false
  ∧ SonioxUI.stop failed.1.2 = (py "No active session", failed.1.2, [])
  ∧ ∀ conn',
      let again := SonioxUI.start (Ok conn') (Ok ()) failed.1.2 in
      SonioxUI.ws again.1.2 = Some conn'
      ∧ again.2
        = [SonioxUI.Send_config conn'; SonioxUI.Start_audio_thread;
           SonioxUI.Start_receive_thread]
      ∧ (SonioxUI.stop again.1.2).2
        = [SonioxUI.Join_audio_thread; SonioxUI.Join_receive_thread;
           SonioxUI.Close conn'].
Proof.
  intros Hrun He. cbn zeta. unfold SonioxUI.start. rewrite Hrun.
  cbn zeta beta iota. rewrite He.
  cbn -[py SonioxUI.listening str_exn app]. repeat split; reflexivity.
Qed.

Lemma failed_start_keeps_connection_witness :
  SonioxUI.ws
    (SonioxUI.start (Ok 7) (Raise connection_lost)
       (SonioxUI.init (py "key") (py "pcm_s16le") (py "none"))).1.2
  = Some 7.
Proof.
  refine (proj1 (proj2 (proj2
    (failed_start_keeps_connection 7 connection_lost
       (SonioxUI.init (py "key") (py "pcm_s16le") (py "none")) _ _)))).
  - reflexivity.
  - reflexivity.
Defined.

(** ** The capture thread of the interface *)

Lemma capture_loop_frames (script : list SonioxUI.capture) (stopped : bool)
    (ws : option N) :
  ∃ k, (k ≤ length script)%nat
       ∧ (SonioxUI.capture_loop script stopped ws).1 = frames_sent ws k.
Proof.
  revert stopped. induction script as [|c script IH]; intros stopped;
    cbn [SonioxUI.capture_loop].
  - exists 0%nat. split; [done|]. by destruct stopped, ws.
  - destruct stopped.
    { exists 0%nat. split; [cbn; lia|]. by destruct ws. }
    destruct (SonioxUI.read c).
    2:{ exists 0%nat. split; [cbn; lia|]. by destruct ws. }
    destruct ws as [conn|].
    + destruct (SonioxUI.send c).
      2:{ exists 0%nat. split; [cbn; lia|]. done. }
      destruct (IH (SonioxUI.stop_after c)) as (k & Hk & Heq).
      exists (S k). split; [cbn; lia|].
      unfold SonioxUI.add_effects. cbn [fst]. rewrite Heq. done.
    + destruct (IH (SonioxUI.stop_after c)) as (k & Hk & Heq).
      exists k. split; [cbn; lia|done].
Qed.

(** X9.  Whenever the capture thread ends, it has released the audio device
    exactly once, after the last audio frame; it has closed the
    microphone stream only if the loop ended by the stop event (a failing
    read or send skips the close); and it has then tried to send the
    empty end frame exactly when the session holds a connection. *)
Theorem capture_thread_cleanup (open : result ())
    (script : list SonioxUI.capture) (send_end : result ())
    (self : SonioxUI.TranscriptionSession) :
  let r := SonioxUI.stream_audio_from_mic open script send_end self in
  r.2 ≠ Blocked →
  ∃ k, (k ≤ length script)%nat
    ∧ r.1
      = match open with
        | Raise _ => []
        | Ok _ =>
            SonioxUI.Mic_open :: frames_sent (SonioxUI.ws self) k
              ++ match r.2 with Break => [SonioxUI.Mic_close] | _ => [] end
        end
        ++ SonioxUI.Mic_terminate
           :: match SonioxUI.ws self with
              | None => []
              | Some conn =>
                  [match send_end with
                   | Ok _ => SonioxUI.Send_end conn
                   | Raise e =>
                       SonioxUI.Print
                         (py "Error sending end frame: " ++ str_exn e ++ nl)
                   end]
              end.
Proof.
  cbn zeta. unfold SonioxUI.stream_audio_from_mic.
  destruct open as [[]|e].
  2:{ intros _. exists 0%nat. split; [lia|]. cbn [fst snd app].
      by destruct (SonioxUI.ws self), send_end. }
  destruct (capture_loop_frames script (SonioxUI.stop_event self)
              (SonioxUI.ws self)) as (k & Hk & Heq).
  destruct (SonioxUI.capture_loop script _ _) as [effs exit].
  cbn [fst] in Heq. subst effs.
  destruct exit; cbn [fst snd]; intros Hleft; [| |done];
    (exists k; split; [done|]);
    destruct (SonioxUI.ws self), send_end; cbn [app];
    by rewrite <- ?app_assoc, ?app_nil_r.
Qed.

Lemma capture_thread_cleanup_witness :
  ∃ k, (k ≤ 2)%nat
    ∧ (SonioxUI.stream_audio_from_mic (Ok ())
         [{| SonioxUI.read := Ok (); SonioxUI.send := Ok ();
             SonioxUI.stop_after := false |};
          {| SonioxUI.read := Raise device_error; SonioxUI.send := Ok ();
             SonioxUI.stop_after := false |}]
         (Ok ()) started).1
      = (SonioxUI.Mic_open :: frames_sent (Some 7) k ++ [])
          ++ [SonioxUI.Mic_terminate; SonioxUI.Send_end 7].
Proof.
  destruct (capture_thread_cleanup (Ok ())
              [{| SonioxUI.read := Ok (); SonioxUI.send := Ok ();
                  SonioxUI.stop_after := false |};
               {| SonioxUI.read := Raise device_error; SonioxUI.send := Ok ();
                  SonioxUI.stop_after := false |}]
              (Ok ()) started) as (k & Hk & Heq).
  - vm_compute. discriminate.
  - exists k. split; [exact Hk|]. exact Heq.
Defined.

(** ** Language bookkeeping of the Google Cloud session *)

Section GcloudLanguages.

Context (upper : pystr → pystr).

Lemma note_language_history (current_lang : pystr)
    (self : Gcloud.TranscriptionManager) :
  let self' := Gcloud.note_language current_lang self in
  Gcloud.language_history self `prefix_of` Gcloud.language_history self'
  ∧ (NoDup (Gcloud.language_history self) →
     NoDup (Gcloud.language_history self'))
  ∧ current_lang ∈ Gcloud.language_history self'
  ∧ Gcloud.detected_language self' = current_lang
  ∧ Gcloud.full_transcript self' = Gcloud.full_transcript self
  ∧ Gcloud.interim_transcript self' = Gcloud.interim_transcript self
  ∧ Gcloud.is_recording self' = Gcloud.is_recording self.
Proof.
  cbn zeta. unfold Gcloud.note_language.
  cbn [Gcloud.set_detected_language Gcloud.language_history].
  case_bool_decide as Hin;
    cbn [Gcloud.set_language_history Gcloud.set_detected_language
           Gcloud.language_history Gcloud.detected_language
           Gcloud.full_transcript Gcloud.interim_transcript
           Gcloud.is_recording].
  - by repeat split.
  - repeat split; try done.
    + by apply prefix_app_r.
    + intros Hnd. apply NoDup_app. repeat split; [done| |apply NoDup_singleton].
      intros x Hx ->%list_elem_of_singleton. done.
    + apply elem_of_app. right. by apply list_elem_of_singleton.
Qed.

Lemma note_transcript_language (is_final : bool)
    (current_lang transcript : pystr) (now : Z)
    (self : Gcloud.TranscriptionManager) :
  let self' :=
    Gcloud.note_transcript upper is_final current_lang transcript now self in
  Gcloud.language_history self' = Gcloud.language_history self
  ∧ Gcloud.detected_language self' = Gcloud.detected_language self
  ∧ Gcloud.is_recording self' = Gcloud.is_recording self
  ∧ Gcloud.full_transcript self `prefix_of` Gcloud.full_transcript self'.
Proof.
  cbn zeta. unfold Gcloud.note_transcript.
  destruct is_final; [|done].
  destruct (bool_decide _ && _);
    cbn [Gcloud.set_last_update_time Gcloud.set_interim_transcript
           Gcloud.set_full_transcript Gcloud.language_history
           Gcloud.detected_language Gcloud.is_recording
           Gcloud.full_transcript];
    repeat split; by apply prefix_app_r.
Qed.

(** What holds of the manager at every turn of the loop: the loop's own
    record of the last language, when it has one, is the detected
    language and is in the history. *)
Lemma process_loop_languages (script : list Gcloud.arrival)
    (last : option pystr) (self : Gcloud.TranscriptionManager) :
  (∀ l, last = Some l →
        Gcloud.detected_language self = l ∧ l ∈ Gcloud.language_history self) →
  let self' := (Gcloud.process_loop upper script last self).1 in
  Gcloud.language_history self `prefix_of` Gcloud.language_history self'
  ∧ (NoDup (Gcloud.language_history self) →
     NoDup (Gcloud.language_history self'))
  ∧ (Gcloud.detected_language self' = Gcloud.detected_language self
     ∧ Gcloud.language_history self' = Gcloud.language_history self
     ∨ Gcloud.detected_language self' ∈ Gcloud.language_history self')
  ∧ Gcloud.full_transcript self `prefix_of` Gcloud.full_transcript self'.
Proof.
  cbn zeta. revert last self.
  induction script as [|a script IH]; intros last self Hlast;
    cbn [Gcloud.process_loop].
  { cbn [fst]. repeat split; auto. }
  set (self1 := if Gcloud.stop_meanwhile a then _ else self).
  assert (Gcloud.language_history self1 = Gcloud.language_history self
          ∧ Gcloud.detected_language self1 = Gcloud.detected_language self
          ∧ Gcloud.full_transcript self1 = Gcloud.full_transcript self)
    as (Hh & Hd & Hf)
    by (subst self1; by destruct (Gcloud.stop_meanwhile a)).
  clearbody self1. rewrite <- Hh, <- Hd, <- Hf in *. clear Hh Hd Hf self.
  rename self1 into self.
  destruct (Gcloud.next a) as [response| |e]; cbn [fst];
    [|repeat split; auto..].
  destruct (negb (Gcloud.is_recording self)); cbn [fst];
    [repeat split; auto|].
  destruct (Gcloud.results response) as [|result results']; [by apply IH|].
  destruct (Gcloud.alternatives result) as [|alternative alternatives']; [by apply IH|].
  cbn zeta.
  set (current_lang := if truthy _ then _ else _).
  set (self1 := Gcloud.set_last_speech_time _ self).
  change (Gcloud.language_history self)
    with (Gcloud.language_history self1) in *.
  change (Gcloud.detected_language self)
    with (Gcloud.detected_language self1) in *.
  change (Gcloud.full_transcript self)
    with (Gcloud.full_transcript self1) in *.
  clearbody self1. clear self. rename self1 into self.
  set (changed := bool_decide _ && _).
  destruct changed eqn:Hchanged.
  - destruct (note_language_history current_lang self)
      as (Hpre & Hnd & Hin & Hdet & Hfull & _).
    destruct (note_transcript_language (Gcloud.result_is_final result)
                current_lang (Gcloud.transcript alternative)
                (Gcloud.update_clock a)
                (Gcloud.note_language current_lang self))
      as (Hh2 & Hd2 & _ & Hf2).
    match goal with
    | |- context [Gcloud.process_loop upper script ?l ?s] =>
        destruct (IH l s) as (IHpre & IHnd & IHdet & IHfull)
    end.
    { intros l [= <-]. by rewrite Hh2, Hd2. }
    rewrite Hh2, Hd2 in *.
    repeat split.
    + by etrans.
    + auto.
    + right. destruct IHdet as [[-> ->]|]; [|done]. by rewrite Hdet.
    + etrans; [|exact IHfull]. by rewrite <- Hfull.
  - destruct (note_transcript_language (Gcloud.result_is_final result)
                current_lang (Gcloud.transcript alternative)
                (Gcloud.update_clock a) self)
      as (Hh2 & Hd2 & _ & Hf2).
    match goal with
    | |- context [Gcloud.process_loop upper script ?l ?s] =>
        destruct (IH l s) as (IHpre & IHnd & IHdet & IHfull)
    end.
    { intros l Hl. rewrite Hh2, Hd2. by apply Hlast. }
    rewrite Hh2, Hd2 in *.
    repeat split; auto. by etrans.
Qed.

End GcloudLanguages.

(** X10.  While responses are processed, the language history only grows and
    never gets a language twice, the transcript of final results only
    grows, and once a result has changed the detected language, the
    detected language is one of the history. *)
Theorem language_history_grows_without_repeats (upper : pystr → pystr)
    (script : list Gcloud.arrival) (self : Gcloud.TranscriptionManager) :
  let self' := (Gcloud._process_responses upper script self).1 in
  Gcloud.language_history self `prefix_of` Gcloud.language_history self'
  ∧ (NoDup (Gcloud.language_history self) →
     NoDup (Gcloud.language_history self'))
  ∧ (Gcloud.detected_language self' = Gcloud.detected_language self
     ∧ Gcloud.language_history self' = Gcloud.language_history self
     ∨ Gcloud.detected_language self' ∈ Gcloud.language_history self')
  ∧ Gcloud.full_transcript self `prefix_of` Gcloud.full_transcript self'.
Proof. unfold Gcloud._process_responses. by apply process_loop_languages. Qed.

(** ** Language markers in the transcript *)

Section GcloudMarkers.

Context (upper : pystr → pystr).

(** One turn of the loop on a result that carries a language code. *)
Lemma process_loop_hears (s : segment) (script : list Gcloud.arrival)
    (prev : option pystr) (self : Gcloud.TranscriptionManager) :
  Gcloud.is_recording self = true → seg_lang s ≠ [] →
  Gcloud.process_loop upper (hears s :: script) prev self
  = let self1 := Gcloud.set_last_speech_time (seg_clocks s).1 self in
    let changed := bool_decide (Some (seg_lang s) ≠ prev) in
    Gcloud.process_loop upper script
      (if changed then Some (seg_lang s) else prev)
      (Gcloud.note_transcript upper (seg_final s) (seg_lang s) (seg_text s)
         (seg_clocks s).2
         (if changed then Gcloud.note_language (seg_lang s) self1 else self1)).
Proof.
  intros Hrec Hlang.
  cbn [Gcloud.process_loop hears arrives one_result Gcloud.stop_meanwhile
         Gcloud.next Gcloud.results Gcloud.alternatives Gcloud.language_code
         Gcloud.transcript Gcloud.result_is_final Gcloud.speech_clock
         Gcloud.update_clock].
  rewrite Hrec. cbn [negb]. cbn zeta.
  destruct (seg_lang s) as [|c lang] eqn:Hl; [done|].
  cbn [truthy default andb]. rewrite !andb_true_r. reflexivity.
Qed.

Lemma one_language_loop (lang : pystr) (segs : list segment)
    (prev : option pystr) (self : Gcloud.TranscriptionManager) :
  Gcloud.is_recording self = true → lang ≠ [] →
  (prev = None ∧ Gcloud.language_history self = []
   ∨ prev = Some lang ∧ Gcloud.language_history self = [lang]
     ∧ Gcloud.detected_language self = lang) →
  Forall (λ s, seg_lang s = lang) segs →
  let r := Gcloud.process_loop upper (hears <$> segs) prev self in
  r.2 = Blocked
  ∧ Gcloud.full_transcript r.1
    = Gcloud.full_transcript self
        ++ concat ((λ s, seg_text s ++ py " ")
                     <$> filter (λ s, seg_final s = true) segs)
  ∧ Gcloud.interim_transcript r.1
    = pending (Gcloud.interim_transcript self) segs
  ∧ (segs ≠ [] →
     Gcloud.language_history r.1 = [lang]
     ∧ Gcloud.detected_language r.1 = lang).
Proof.
  intros Hrec Hlang Hstart Hall. cbn zeta. revert prev self Hrec Hstart.
  induction Hall as [|s segs Hs Hall IH]; intros prev self Hrec Hstart.
  { cbn [fmap list_fmap Gcloud.process_loop fst snd filter list_filter concat
           pending last]. rewrite app_nil_r. by repeat split. }
  cbn [fmap list_fmap]. rewrite process_loop_hears by (done || by rewrite Hs).
  cbn zeta. rewrite Hs.
  set (self1 := Gcloud.set_last_speech_time _ self).
  set (self2 := if bool_decide (Some lang ≠ prev) then _ else self1).
  assert (Gcloud.language_history self2 = [lang]
          ∧ Gcloud.detected_language self2 = lang
          ∧ Gcloud.full_transcript self2 = Gcloud.full_transcript self
          ∧ Gcloud.is_recording self2 = true) as (Hh & Hd & Hf & Hr).
  { subst self2. destruct Hstart as [[-> Hnil]|(-> & Hone & Hdet)].
    - rewrite bool_decide_eq_true_2 by done.
      unfold Gcloud.note_language.
      cbn [Gcloud.set_detected_language Gcloud.language_history self1
             Gcloud.set_last_speech_time].
      rewrite Hnil. rewrite bool_decide_eq_false_2 by (by intros ?%elem_of_nil).
      by cbn.
    - rewrite bool_decide_eq_false_2 by (by intros H; apply H).
      by subst self1. }
  clearbody self2. clear self1.
  set (self3 := Gcloud.note_transcript _ _ _ _ _ self2).
  assert (Gcloud.language_history self3 = [lang]
          ∧ Gcloud.detected_language self3 = lang
          ∧ Gcloud.is_recording self3 = true
          ∧ Gcloud.full_transcript self3
            = Gcloud.full_transcript self
                ++ (if seg_final s then seg_text s ++ py " " else [])
          ∧ Gcloud.interim_transcript self3
            = if seg_final s then [] else seg_text s)
    as (Hh3 & Hd3 & Hr3 & Hf3 & Hi3).
  { subst self3. unfold Gcloud.note_transcript. rewrite Hh.
    destruct (seg_final s).
    - rewrite bool_decide_eq_false_2 by (cbn; lia). cbn [andb].
      cbn [Gcloud.set_last_update_time Gcloud.set_interim_transcript
             Gcloud.set_full_transcript Gcloud.language_history
             Gcloud.detected_language Gcloud.is_recording
             Gcloud.full_transcript Gcloud.interim_transcript].
      by rewrite Hf.
    - cbn [Gcloud.set_last_update_time Gcloud.set_interim_transcript
             Gcloud.language_history Gcloud.detected_language
             Gcloud.is_recording Gcloud.full_transcript
             Gcloud.interim_transcript].
      by rewrite Hf, app_nil_r. }
  clearbody self3.
  destruct (IH (if bool_decide (Some lang ≠ prev) then Some lang else prev)
              self3 Hr3) as (Hexit & Hfull & Hint & Hlangs).
  { right. repeat split; [|done..].
    case_bool_decide as Hne; [done|].
    destruct prev as [l|]; [|by destruct Hne].
    destruct (decide (l = lang)) as [->|]; [done|].
    destruct Hne. congruence. }
  split; [exact Hexit|]. split; [|split].
  - rewrite Hfull, Hf3, filter_cons.
    destruct (seg_final s); [rewrite decide_True by done|
                             rewrite decide_False by done];
      cbn [fmap list_fmap concat]; by rewrite <- ?app_assoc, ?app_nil_r.
  - rewrite Hint, Hi3. unfold pending. destruct segs as [|s' segs]; [done|].
    change (last (s :: s' :: segs)) with (last (s' :: segs)).
    destruct (last (s' :: segs)) eqn:Hl; [done|by apply last_None in Hl].
  - intros _. destruct segs as [|s' segs]; [|by apply Hlangs].
    by cbn [fmap list_fmap Gcloud.process_loop fst].
Qed.

Lemma marked_loop (segs : list segment) (prev : option pystr)
    (self : Gcloud.TranscriptionManager) :
  Gcloud.is_recording self = true →
  (1 < length (Gcloud.language_history self))%nat →
  Forall (λ s, seg_lang s ≠ []) segs →
  Gcloud.full_transcript
    (Gcloud.process_loop upper (hears <$> segs) prev self).1
  = Gcloud.full_transcript self
      ++ concat ((λ s, py "[" ++ Gcloud._get_language_name upper (seg_lang s)
                         ++ py "] " ++ seg_text s ++ py " ")
                   <$> filter (λ s, seg_final s = true) segs).
Proof.
  intros Hrec Hmany Hall. revert prev self Hrec Hmany.
  induction Hall as [|s segs Hs Hall IH]; intros prev self Hrec Hmany.
  { cbn [fmap list_fmap Gcloud.process_loop fst filter list_filter concat].
    by rewrite app_nil_r. }
  cbn [fmap list_fmap]. rewrite process_loop_hears by done. cbn zeta.
  set (self1 := Gcloud.set_last_speech_time _ self).
  set (self2 := if bool_decide (Some (seg_lang s) ≠ prev) then _ else self1).
  assert ((1 < length (Gcloud.language_history self2))%nat
          ∧ Gcloud.full_transcript self2 = Gcloud.full_transcript self
          ∧ Gcloud.is_recording self2 = true) as (Hh & Hf & Hr).
  { subst self2. case_bool_decide; [|by subst self1].
    destruct (note_language_history (seg_lang s) self1)
      as (Hpre & _ & _ & _ & Hfull & _ & Hrec').
    split; [|by rewrite Hfull, Hrec'].
    apply prefix_length in Hpre. subst self1.
    cbn [Gcloud.set_last_speech_time Gcloud.language_history] in Hpre. lia. }
  clearbody self2. clear self1.
  rewrite IH.
  - unfold Gcloud.note_transcript. rewrite filter_cons.
    destruct (seg_final s).
    + rewrite bool_decide_eq_true_2 by done.
      destruct (seg_lang s) as [|c lang] eqn:Hl; [done|].
      cbn [truthy andb].
      cbn [Gcloud.set_last_update_time Gcloud.set_interim_transcript
             Gcloud.set_full_transcript Gcloud.full_transcript].
      rewrite decide_True by done. cbn [fmap list_fmap concat].
      rewrite Hf, Hl. by rewrite <- !app_assoc.
    + rewrite decide_False by done.
      cbn [Gcloud.set_last_update_time Gcloud.set_interim_transcript
             Gcloud.full_transcript]. by rewrite Hf.
  - by destruct (note_transcript_language upper (seg_final s) (seg_lang s)
                   (seg_text s) (seg_clocks s).2 self2) as (_ & _ & -> & _).
  - by destruct (note_transcript_language upper (seg_final s) (seg_lang s)
                   (seg_text s) (seg_clocks s).2 self2) as (-> & _).
Qed.

End GcloudMarkers.

(** X11.  A session in which every result is in one and the same language gets
    no language marker: its transcript is the transcripts of the final
    results, each followed by a space, the interim text is that of the
    last result unless it is final, and the history holds that one
    language. *)
Theorem one_language_has_no_markers (upper : pystr → pystr) (now : Z)
    (lang : pystr) (segs : list segment)
    (self : Gcloud.TranscriptionManager) :
  Gcloud.is_recording self = false → lang ≠ [] → segs ≠ [] →
  Forall (λ s, seg_lang s = lang) segs →
  let r :=
    Gcloud._process_responses upper (hears <$> segs)
      (Gcloud.start_transcription now self) in
  r.2 = Blocked
  ∧ Gcloud.full_transcript r.1
    = concat ((λ s, seg_text s ++ py " ")
                <$> filter (λ s, seg_final s = true) segs)
  ∧ Gcloud.interim_transcript r.1 = pending [] segs
  ∧ Gcloud.language_history r.1 = [lang]
  ∧ Gcloud.detected_language r.1 = lang.
Proof.
  intros Hrec Hlang Hne Hall. cbn zeta.
  unfold Gcloud._process_responses, Gcloud.start_transcription.
  rewrite Hrec.
  match goal with
  | |- context [Gcloud.process_loop upper _ None ?s] =>
      destruct (one_language_loop upper lang segs None s)
        as (Hexit & Hfull & Hint & Hlangs); [done|done|by left|done|]
  end.
  destruct (Hlangs Hne) as [Hh Hd]. by repeat split.
Qed.

Lemma one_language_has_no_markers_witness :
  Gcloud.full_transcript
    (Gcloud._process_responses (λ s, s)
       (hears <$> [ {| seg_lang := py "hi-IN"; seg_text := py "namaste";
                       seg_final := true; seg_clocks := (1, 2)%Z |};
                    {| seg_lang := py "hi-IN"; seg_text := py "dosto";
                       seg_final := false; seg_clocks := (3, 4)%Z |} ])
       (Gcloud.start_transcription 0%Z Gcloud.init)).1
  = concat ((λ s, seg_text s ++ py " ")
              <$> filter (λ s, seg_final s = true)
                    [ {| seg_lang := py "hi-IN"; seg_text := py "namaste";
                         seg_final := true; seg_clocks := (1, 2)%Z |};
                      {| seg_lang := py "hi-IN"; seg_text := py "dosto";
                         seg_final := false; seg_clocks := (3, 4)%Z |} ]).
Proof.
  refine (proj1 (proj2
    (one_language_has_no_markers (λ s, s) 0%Z (py "hi-IN")
       [ {| seg_lang := py "hi-IN"; seg_text := py "namaste";
            seg_final := true; seg_clocks := (1, 2)%Z |};
         {| seg_lang := py "hi-IN"; seg_text := py "dosto";
            seg_final := false; seg_clocks := (3, 4)%Z |} ]
       Gcloud.init _ _ _ _))).
  - reflexivity.
  - discriminate.
  - discriminate.
  - repeat constructor.
Defined.

(** X12.  Once the history holds two languages, every final result is written
    to the transcript behind a marker of its own language, whatever that
    language is and whether or not it has changed. *)
Theorem markers_after_second_language (upper : pystr → pystr)
    (segs : list segment) (self : Gcloud.TranscriptionManager) :
  Gcloud.is_recording self = true →
  (1 < length (Gcloud.language_history self))%nat →
  Forall (λ s, seg_lang s ≠ []) segs →
  Gcloud.full_transcript
    (Gcloud._process_responses upper (hears <$> segs) self).1
  = Gcloud.full_transcript self
      ++ concat ((λ s, py "[" ++ Gcloud._get_language_name upper (seg_lang s)
                         ++ py "] " ++ seg_text s ++ py " ")
                   <$> filter (λ s, seg_final s = true) segs).
Proof. unfold Gcloud._process_responses. apply marked_loop. Qed.

Lemma markers_after_second_language_witness :
  Gcloud.full_transcript
    (Gcloud._process_responses (λ s, s)
       (hears <$> [ {| seg_lang := py "en-US"; seg_text := py "hello";
                       seg_final := true; seg_clocks := (1, 2)%Z |} ])
       (Gcloud.set_language_history [py "en-US"; py "hi-IN"]
          (Gcloud.start_transcription 0%Z Gcloud.init))).1
  = py "[EN] hello ".
Proof.
  rewrite (markers_after_second_language (λ s, s)
             [ {| seg_lang := py "en-US"; seg_text := py "hello";
                  seg_final := true; seg_clocks := (1, 2)%Z |} ]
             (Gcloud.set_language_history [py "en-US"; py "hi-IN"]
                (Gcloud.start_transcription 0%Z Gcloud.init))).
  - vm_compute. reflexivity.
  - reflexivity.
  - cbn. lia.
  - repeat constructor. discriminate.
Defined.

(** ** The configuration sent to Soniox *)

(** X13.  [get_config] of the command-line session fails exactly on an audio
    format other than "auto" and "pcm_s16le", or else on a translation
    other than "none", "one_way" and "two_way", naming the offending
    value (the audio format when both are unsupported).  When it returns,
    the configuration holds the API key and the audio format, the sample
    rate and the channel count exactly for "pcm_s16le", and a translation
    entry exactly when the translation is not "none". *)
Theorem get_config_rejects_unsupported (api_key audio_format translation : pystr) :
  match RealtimeSession.get_config api_key audio_format translation with
  | Raise e =>
      (audio_format ≠ py "auto" ∧ audio_format ≠ py "pcm_s16le"
       ∧ e = ValueError (py "Unsupported audio_format: " ++ audio_format))
      ∨ ((audio_format = py "auto" ∨ audio_format = py "pcm_s16le")
         ∧ translation ≠ py "none" ∧ translation ≠ py "one_way"
         ∧ translation ≠ py "two_way"
         ∧ e = ValueError (py "Unsupported translation: " ++ translation))
  | Ok config =>
      (audio_format = py "auto" ∨ audio_format = py "pcm_s16le")
      ∧ (translation = py "none" ∨ translation = py "one_way"
         ∨ translation = py "two_way")
      ∧ getitem (py "api_key") config = Some (PyStr api_key)
      ∧ getitem (py "audio_format") config = Some (PyStr audio_format)
      ∧ getitem (py "sample_rate") config
        = (if decide (audio_format = py "pcm_s16le")
           then Some (PyInt 16000) else None)
      ∧ getitem (py "num_channels") config
        = (if decide (audio_format = py "pcm_s16le")
           then Some (PyInt 1) else None)
      ∧ (getitem (py "translation") config = None ↔ translation = py "none")
  end.
Proof.
  unfold RealtimeSession.get_config.
  destruct (decide (audio_format = py "auto")) as [->|Hauto];
    [|destruct (decide (audio_format = py "pcm_s16le")) as [->|Hpcm]].
  3:{ left. by cbn. }
  all: cbn [mbind result_bind];
    destruct (decide (translation = py "none")) as [->|Hnone];
    [|destruct (decide (translation = py "one_way")) as [->|Hone];
      [|destruct (decide (translation = py "two_way")) as [->|Htwo]]].
  all: try (right; by eauto 10).
  all: repeat split; eauto; try (vm_compute; reflexivity);
    try (vm_compute; discriminate); try done.
Qed.

Lemma getitem_setitem (key k : pystr) (v : pyvalue) (d : pydict) :
  getitem key (setitem k v d)
  = if decide (k = key) then Some v else getitem key d.
Proof.
  induction d as [|[k' v'] d IH]; cbn [setitem getitem].
  - done.
  - destruct (decide (k' = k)) as [->|Hne]; cbn [getitem].
    + by destruct (decide (k = key)).
    + rewrite IH. destruct (decide (k' = key)) as [->|]; [|done].
      by rewrite decide_False by done.
Qed.

(** X14.  The interface's [get_config] never fails: where the command-line
    session rejects a setting, the interface sends a configuration
    without it.  Where the command-line session accepts the settings,
    the two configurations have the same keys in the same order and the
    same values, except for the language hints and the indentation of
    the context. *)
Theorem ui_config_drops_unsupported (self : SonioxUI.TranscriptionSession) :
  let ui := UISession.get_config self in
  (∀ config,
     RealtimeSession.get_config (SonioxUI.api_key self)
       (SonioxUI.audio_format self) (SonioxUI.translation self) = Ok config →
     keys ui = keys config
     ∧ ∀ key, key ≠ py "language_hints" → key ≠ py "context" →
              getitem key ui = getitem key config)
  ∧ (SonioxUI.audio_format self ≠ py "auto" →
     SonioxUI.audio_format self ≠ py "pcm_s16le" →
     getitem (py "audio_format") ui = None
     ∧ getitem (py "sample_rate") ui = None
     ∧ getitem (py "num_channels") ui = None)
  ∧ (SonioxUI.translation self ≠ py "one_way" →
     SonioxUI.translation self ≠ py "two_way" →
     getitem (py "translation") ui = None)
  ∧ getitem (py "language_hints") ui
    = Some (PyList [PyStr (py "en"); PyStr (py "es")])
  ∧ getitem (py "context") ui = Some (PyStr (context_text 12)).
Proof.
  cbn zeta. unfold UISession.get_config, RealtimeSession.get_config.
  generalize (SonioxUI.api_key self) as api_key.
  generalize (SonioxUI.audio_format self) as audio_format.
  generalize (SonioxUI.translation self) as translation.
  intros translation audio_format api_key.
  destruct (decide (audio_format = py "auto")) as [->|Hauto];
    [|destruct (decide (audio_format = py "pcm_s16le")) as [->|Hpcm]];
    cbn [mbind result_bind];
    (destruct (decide (translation = py "one_way")) as [->|Hone];
     [|destruct (decide (translation = py "two_way")) as [->|Htwo]]);
    (split; [|split; [|split; [|split]]]).
  all: try match goal with
           | |- getitem _ _ = Some _ => vm_compute; reflexivity
           | |- _ ≠ _ → _ ≠ _ → _ =>
               intros H1 H2;
               first [by destruct H1 | by destruct H2
                     | repeat split; vm_compute; reflexivity]
           end.
  all: intros config; try discriminate.
  all: repeat (destruct (decide _) as [Heq|_];
               [first [by vm_compute in Heq | subst translation]|]).
  all: try discriminate.
  all: intros [= <-].
  all: (split; [vm_compute; reflexivity|]).
  all: intros key Hhints Hcontext.
  all: rewrite ?getitem_setitem; cbn [getitem].
  all: repeat case_decide; try done; try congruence.
  all: exfalso; subst;
    match goal with H : py _ = py _ |- _ => by vm_compute in H end.
Qed.

(** ** How the command-line session fails *)



(** X16.  When [main] warns that the audio format might require specific
    configuration, the session never starts: the warning is the only
    line printed and [get_config] then rejects the format.  Without an
    API key in the environment, [main] fails before printing anything. *)
Theorem warning_is_followed_by_failure (api_key audio_format translation : pystr)
    (connect : result N) (send : result ()) (script : list recv_outcome)
    (audio_alive : bool) :
  (audio_format ≠ py "pcm_s16le" → audio_format ≠ py "auto" →
   RealtimeSession.main (Some api_key) audio_format translation connect send
     script audio_alive
   = ([py "Warning: Using microphone with format '" ++ audio_format
         ++ py "' might require specific configuration." ++ nl],
      Raised (ValueError (py "Unsupported audio_format: " ++ audio_format))))
  ∧ RealtimeSession.main None audio_format translation connect send script
      audio_alive
    = ([], Raised (RuntimeError (py "Missing SONIOX_API_KEY."))).
Proof.
  split; [|done]. intros Hpcm Hauto.
  unfold RealtimeSession.main, RealtimeSession.run_session,
    RealtimeSession.get_config.
  rewrite (decide_True (P := audio_format ∉ [py "pcm_s16le"; py "auto"])).
  - destruct (decide (audio_format = py "auto")); [done|].
    destruct (decide (audio_format = py "pcm_s16le")); [done|]. reflexivity.
  - intros [->|[->|[]%elem_of_nil]%elem_of_cons]%elem_of_cons; done.
Qed.

(** ** The callbacks of the interface *)

(** X17.  Initialising again while a session is running puts a fresh session
    in its place without stopping the running one: the stop button then
    finds no active session and does nothing, so the threads of the
    running session are never joined and its connection is never closed,
    as the stop button would have done before. *)
Theorem initialize_abandons_running_session (api_key : pystr) (conn : N)
    (self : SonioxUI.TranscriptionSession) :
  SonioxUI.is_running self = true → SonioxUI.ws self = Some conn →
  let session := (UISession.initialize_session (Some api_key) (Some self)).2 in
  UISession.stop_recording session
  = ((py "No active session", []), session, [])
  ∧ UISession.update_transcript session = []
  ∧ (∃ joins, (UISession.stop_recording (Some self)).2
              = joins ++ [SonioxUI.Close conn])
  ∧ (UISession.initialize_session None (Some self)).2 = Some self.
Proof.
  intros Hrun Hws. cbn zeta. split; [done|]. split; [done|]. split; [|done].
  unfold UISession.stop_recording, SonioxUI.stop. rewrite Hrun. cbn [negb].
  cbn [SonioxUI.set_is_running SonioxUI.set_stop_event SonioxUI.ws
         SonioxUI.audio_thread SonioxUI.receive_thread].
  rewrite Hws. cbn [snd]. eauto.
Qed.

Lemma initialize_abandons_running_session_witness :
  UISession.stop_recording
    (UISession.initialize_session (Some (py "key")) (Some started)).2
  = ((py "No active session", []),
     (UISession.initialize_session (Some (py "key")) (Some started)).2, []).
Proof.
  refine (proj1 (initialize_abandons_running_session (py "key") 7 started _ _)).
  - reflexivity.
  - reflexivity.
Defined.

(** ** Stopping and clearing the Google Cloud session *)

Lemma remove_dups_NoDup_length (l : list pystr) :
  NoDup l → length (remove_dups l) = length l.
Proof.
  induction 1 as [|x l Hx _ IH]; [done|].
  cbn [remove_dups]. destruct (decide_rel elem_of x l); [done|].
  cbn [length]. by rewrite IH.
Qed.

(** X18.  When a session that was started by [start_transcription] is stopped,
    the status line gives the length of the language history, the text
    returned is the transcript of the final results, and the interim text
    is left behind: the next poll still shows it after the returned
    text. *)
Theorem stop_reports_language_history (upper : pystr → pystr) (now : Z)
    (script : list Gcloud.arrival) (self : Gcloud.TranscriptionManager) :
  Gcloud.is_recording self = false →
  let manager :=
    (Gcloud._process_responses upper script
       (Gcloud.start_transcription now self)).1 in
  let stopped := GcloudSession.stop_transcription manager in
  stopped.1
  = ([9209; 65039] ++ py " Stopped. Languages detected: "
       ++ GcloudSession.str_int (length (Gcloud.language_history manager)),
     Gcloud.full_transcript manager, Gcloud.detected_language manager)
  ∧ Gcloud.is_recording stopped.2 = false
  ∧ GcloudSession.update_transcript stopped.2
    = Gcloud.get_current_transcript manager
  ∧ (GcloudSession.update_transcript stopped.2).1
    = stopped.1.1.2 ++ Gcloud.interim_transcript manager.
Proof.
  intros Hrec. cbn zeta.
  pose proof (process_loop_languages upper script None
                (Gcloud.start_transcription now self)) as Hinv.
  cbn zeta in Hinv. destruct Hinv as (_ & Hnd & _); [done|].
  unfold Gcloud._process_responses in *.
  set (manager := (Gcloud.process_loop upper script None _).1) in *.
  assert (NoDup (Gcloud.language_history manager)) as Hnodup.
  { apply Hnd. unfold Gcloud.start_transcription. rewrite Hrec.
    cbn [Gcloud.language_history]. apply NoDup_nil_2. }
  clearbody manager.
  unfold GcloudSession.stop_transcription, GcloudSession.update_transcript.
  cbn zeta.
  assert (∀ m : Gcloud.TranscriptionManager,
            Gcloud.get_current_transcript
              match Gcloud.stream (Gcloud.set_is_recording false m) with
              | Some _ =>
                  Gcloud.set_stream (Some true) (Gcloud.set_is_recording false m)
              | None => Gcloud.set_is_recording false m
              end
            = Gcloud.get_current_transcript m) as Hsame.
  { intros m. unfold Gcloud.get_current_transcript.
    by destruct (Gcloud.stream (Gcloud.set_is_recording false m)). }
  cbn [fst snd]. rewrite Hsame.
  assert (∀ b : bool, (if b then Gcloud.get_current_transcript manager
                else Gcloud.get_current_transcript manager)
               = Gcloud.get_current_transcript manager) as ->
    by (by intros []).
  assert (Gcloud.full_transcript
            match Gcloud.stream (Gcloud.set_is_recording false manager) with
            | Some _ =>
                Gcloud.set_stream (Some true)
                  (Gcloud.set_is_recording false manager)
            | None => Gcloud.set_is_recording false manager
            end = Gcloud.full_transcript manager
          ∧ Gcloud.detected_language
              match Gcloud.stream (Gcloud.set_is_recording false manager) with
              | Some _ =>
                  Gcloud.set_stream (Some true)
                    (Gcloud.set_is_recording false manager)
              | None => Gcloud.set_is_recording false manager
              end = Gcloud.detected_language manager
          ∧ Gcloud.language_history
              match Gcloud.stream (Gcloud.set_is_recording false manager) with
              | Some _ =>
                  Gcloud.set_stream (Some true)
                    (Gcloud.set_is_recording false manager)
              | None => Gcloud.set_is_recording false manager
              end = Gcloud.language_history manager
          ∧ Gcloud.is_recording
              match Gcloud.stream (Gcloud.set_is_recording false manager) with
              | Some _ =>
                  Gcloud.set_stream (Some true)
                    (Gcloud.set_is_recording false manager)
              | None => Gcloud.set_is_recording false manager
              end = false) as (-> & -> & -> & ->)
    by (by destruct (Gcloud.stream (Gcloud.set_is_recording false manager))).
  rewrite remove_dups_NoDup_length by done.
  repeat split.
  unfold Gcloud.get_current_transcript.
  destruct (Gcloud.interim_transcript manager); cbn [truthy fst];
    by rewrite ?app_nil_r.
Qed.

Lemma stop_reports_language_history_witness :
  (GcloudSession.stop_transcription
     (Gcloud._process_responses (λ s, s) hello_then_namaste
        (Gcloud.start_transcription 0%Z Gcloud.init)).1).1.1.1
  = [9209; 65039] ++ py " Stopped. Languages detected: 2".
Proof.
  rewrite (proj1 (stop_reports_language_history (λ s, s) 0%Z hello_then_namaste
                    Gcloud.init eq_refl)).
  vm_compute. reflexivity.
Defined.

Section GcloudClear.

Context (upper : pystr → pystr).

(** After results in one language the loop's own record of the last
    language is that language. *)
Lemma process_loop_remembers (lang : pystr) (segs : list segment)
    (rest : list Gcloud.arrival) (prev : option pystr)
    (self : Gcloud.TranscriptionManager) :
  Gcloud.is_recording self = true → lang ≠ [] →
  Forall (λ s, seg_lang s = lang) segs →
  Gcloud.process_loop upper ((hears <$> segs) ++ rest) prev self
  = Gcloud.process_loop upper rest
      (match segs with [] => prev | _ => Some lang end)
      (Gcloud.process_loop upper (hears <$> segs) prev self).1
  ∧ Gcloud.is_recording
      (Gcloud.process_loop upper (hears <$> segs) prev self).1 = true.
Proof.
  intros Hrec Hlang Hall. revert prev self Hrec.
  induction Hall as [|s segs Hs Hall IH]; intros prev self Hrec; [done|].
  cbn [fmap list_fmap app].
  rewrite !process_loop_hears by (done || by rewrite Hs). cbn zeta.
  set (self1 := Gcloud.set_last_speech_time _ self).
  set (self2 := if bool_decide _ then _ else self1).
  set (self3 := Gcloud.note_transcript _ _ _ _ _ self2).
  assert (Gcloud.is_recording self3 = true) as Hrec3.
  { subst self3.
    destruct (note_transcript_language upper (seg_final s) (seg_lang s)
                (seg_text s) (seg_clocks s).2 self2) as (_ & _ & -> & _).
    subst self2. case_bool_decide; [|done].
    by destruct (note_language_history (seg_lang s) self1)
      as (_ & _ & _ & _ & _ & _ & ->). }
  clearbody self3.
  assert ((if bool_decide (Some (seg_lang s) ≠ prev)
           then Some (seg_lang s) else prev) = Some lang) as ->.
  { rewrite Hs. case_bool_decide as Hne; [done|].
    destruct prev as [l|]; [|by destruct Hne].
    destruct (decide (l = lang)) as [->|]; [done|].
    destruct Hne. congruence. }
  destruct (IH (Some lang) self3 Hrec3) as [-> ->]. split; [|done].
  by destruct segs.
Qed.

(** While the loop's record says [lang], results in [lang] leave the
    detected language and the history as they are. *)
Lemma process_loop_unchanged_language (lang : pystr) (segs : list segment)
    (self : Gcloud.TranscriptionManager) :
  Gcloud.is_recording self = true → lang ≠ [] →
  Forall (λ s, seg_lang s = lang) segs →
  let self' :=
    (Gcloud.process_loop upper (hears <$> segs) (Some lang) self).1 in
  Gcloud.detected_language self' = Gcloud.detected_language self
  ∧ Gcloud.language_history self' = Gcloud.language_history self.
Proof.
  intros Hrec Hlang Hall. cbn zeta. revert self Hrec.
  induction Hall as [|s segs Hs Hall IH]; intros self Hrec; [done|].
  cbn [fmap list_fmap]. rewrite process_loop_hears by (done || by rewrite Hs).
  cbn zeta. rewrite Hs.
  rewrite bool_decide_eq_false_2 by (by intros H; apply H).
  destruct (note_transcript_language upper (seg_final s) lang (seg_text s)
              (seg_clocks s).2
              (Gcloud.set_last_speech_time (seg_clocks s).1 self))
    as (Hh & Hd & Hr & _).
  match goal with
  | |- context [Gcloud.process_loop upper (hears <$> segs) (Some lang) ?s] =>
      destruct (IH s) as [-> ->]; [by rewrite Hr|]
  end.
  by rewrite Hh, Hd.
Qed.

End GcloudClear.

(** X19.  Clearing the transcript while a session is recording in one language
    loses that language for as long as the speaker stays with it: the
    loop still remembers it as the last language, so further results in
    it set neither the detected language nor the history again, and the
    language shown stays empty. *)
Theorem clear_while_recording_loses_language (upper : pystr → pystr)
    (lang : pystr) (segs1 segs2 : list segment)
    (self : Gcloud.TranscriptionManager) :
  Gcloud.is_recording self = true → lang ≠ [] → segs1 ≠ [] →
  Forall (λ s, seg_lang s = lang) segs1 →
  Forall (λ s, seg_lang s = lang) segs2 →
  let before := (Gcloud._process_responses upper (hears <$> segs1) self).1 in
  let cleared := (GcloudSession.clear_transcript before).2 in
  let after :=
    (Gcloud.process_loop upper (hears <$> segs2) (Some lang) cleared).1 in
  (∀ rest,
     Gcloud._process_responses upper ((hears <$> segs1) ++ rest) self
     = Gcloud.process_loop upper rest (Some lang) before)
  ∧ Gcloud.detected_language after = []
  ∧ Gcloud.language_history after = []
  ∧ ((GcloudSession.update_transcript after).2 = []
     ∨ (GcloudSession.update_transcript after).2 = py " (Live)").
Proof.
  intros Hrec Hlang Hne Hall1 Hall2. cbn zeta.
  unfold Gcloud._process_responses.
  destruct (process_loop_remembers upper lang segs1 [] None self Hrec Hlang
              Hall1) as [_ Hrec1].
  split.
  { intros rest.
    destruct (process_loop_remembers upper lang segs1 rest None self Hrec
                Hlang Hall1) as [-> _].
    by destruct segs1. }
  set (before := (Gcloud.process_loop upper (hears <$> segs1) None self).1) in *.
  clearbody before.
  destruct (process_loop_unchanged_language upper lang segs2
              (GcloudSession.clear_transcript before).2) as [Hd Hh];
    [done|done|done|].
  cbn zeta in Hd, Hh. rewrite Hd, Hh. split; [done|]. split; [done|].
  unfold GcloudSession.update_transcript, Gcloud.get_current_transcript.
  rewrite Hd.
  cbn [GcloudSession.clear_transcript snd Gcloud.set_language_history
         Gcloud.set_detected_language Gcloud.detected_language].
  rewrite bool_decide_eq_true_2 by (vm_compute; discriminate).
  destruct (negb _), (truthy _); cbn [snd]; auto.
Qed.

Lemma clear_while_recording_loses_language_witness :
  Gcloud.detected_language
    (Gcloud.process_loop (λ s, s)
       (hears <$> [ {| seg_lang := py "hi-IN"; seg_text := py "dosto";
                       seg_final := true; seg_clocks := (3, 4)%Z |} ])
       (Some (py "hi-IN"))
       (GcloudSession.clear_transcript
          (Gcloud._process_responses (λ s, s)
             (hears <$> [ {| seg_lang := py "hi-IN"; seg_text := py "namaste";
                             seg_final := true; seg_clocks := (1, 2)%Z |} ])
             recording).1).2).1
  = [].
Proof.
  refine (proj1 (proj2
    (clear_while_recording_loses_language (λ s, s) (py "hi-IN")
       [ {| seg_lang := py "hi-IN"; seg_text := py "namaste";
            seg_final := true; seg_clocks := (1, 2)%Z |} ]
       [ {| seg_lang := py "hi-IN"; seg_text := py "dosto";
            seg_final := true; seg_clocks := (3, 4)%Z |} ]
       recording _ _ _ _ _))).
  - reflexivity.
  - discriminate.
  - discriminate.
  - repeat constructor.
  - repeat constructor.
Defined.

(** ** Spacing of the mapped text *)

Section Retokenise.

Context (isalnum : N → bool).
Hypothesis space_is_no_letter : isalnum 32 = false.

(** Tokens joined by single spaces are found again as they were. *)
Lemma findall_join (words : list pystr) :
  Forall (is_token isalnum) words →
  findall isalnum (join (py " ") words) = words.
Proof.
  assert (in_word_class isalnum 32 = false) as Hspace.
  { unfold in_word_class. by rewrite space_is_no_letter. }
  assert (∀ word, is_token isalnum word → findall isalnum word = [word])
    as Hone.
  { intros word [[Hne Hword]|(c & -> & Hc & Hp)].
    - by apply findall_word.
    - unfold findall. cbn [findall_from flush app]. by rewrite Hc, Hp. }
  induction 1 as [|word words Hword Hwords IH]; [done|].
  destruct words as [|word' words]; [by apply Hone|].
  change (join (py " ") (word :: word' :: words))
    with (word ++ 32 :: join (py " ") (word' :: words)).
  rewrite findall_split by done. rewrite IH, Hone by done. done.
Qed.

End Retokenise.

(** X20.  When no word of a text is in a dictionary, [map_languages] only
    normalises the spacing: the result is the tokens of the text joined
    by single spaces, it has the same tokens as the text, and mapping it
    again changes nothing.  (A space is not alphanumeric.) *)
Theorem map_languages_idempotent_without_entries
    (isalnum : N → bool) (lower : pystr → pystr) (text : pystr)
    (hindi_dict gujarati_dict : gmap (list N) (list N)) :
  isalnum 32 = false →
  Forall (λ word, hindi_dict !! lower word = None
                  ∧ gujarati_dict !! lower word = None)
    (findall isalnum text) →
  let mapped :=
    Multilingual.map_languages isalnum lower text hindi_dict gujarati_dict in
  mapped = join (py " ") (findall isalnum text)
  ∧ findall isalnum mapped = findall isalnum text
  ∧ Multilingual.map_languages isalnum lower mapped hindi_dict gujarati_dict
    = mapped
  ∧ Paper.map_languages isalnum lower
      {| Paper.hindi_dict := hindi_dict; Paper.gujarati_dict := gujarati_dict |}
      text
    = mapped.
Proof.
  intros Hspace Hmiss. cbn zeta.
  assert (translate lower hindi_dict gujarati_dict <$> findall isalnum text
          = findall isalnum text) as Hsame.
  { induction Hmiss as [|word words [Hh Hg] _ IH]; [done|].
    cbn [fmap list_fmap]. rewrite IH. f_equal.
    unfold translate. rewrite Hh, Hg. by destruct (match_punct word). }
  assert (Multilingual.map_languages isalnum lower text hindi_dict gujarati_dict
          = join (py " ") (findall isalnum text)) as Hmapped.
  { unfold Multilingual.map_languages. by rewrite map_body_fold, Hsame. }
  destruct (findall_from_spec isalnum text []) as [Htok _]; [done|].
  rewrite Hmapped. split; [done|].
  assert (findall isalnum (join (py " ") (findall isalnum text))
          = findall isalnum text) as Hagain by (by apply findall_join).
  split; [done|]. split.
  - unfold Multilingual.map_languages. rewrite map_body_fold, Hagain.
    by rewrite Hsame.
  - unfold Paper.map_languages. by rewrite map_words_spec, Hsame.
Qed.

Lemma map_languages_idempotent_without_entries_witness :
  Multilingual.map_languages ascii_isalnum (λ s, s)
    (Multilingual.map_languages ascii_isalnum (λ s, s) (py "hi,  there") ∅ ∅)
    ∅ ∅
  = Multilingual.map_languages ascii_isalnum (λ s, s) (py "hi,  there") ∅ ∅.
Proof.
  refine (proj1 (proj2 (proj2
    (map_languages_idempotent_without_entries ascii_isalnum (λ s, s)
       (py "hi,  there") ∅ ∅ _ _)))).
  - reflexivity.
  - apply Forall_forall. intros word _. by rewrite !lookup_empty.
Defined.

(** ** The capture thread of the command-line session *)

Lemma capture_loops_agree (script : list SonioxUI.capture) (stopped : bool)
    (conn : N) :
  RealtimeSession.capture_loop script stopped conn
  = SonioxUI.capture_loop script stopped (Some conn).
Proof.
  revert stopped. induction script as [|c script IH]; intros stopped;
    cbn [RealtimeSession.capture_loop SonioxUI.capture_loop]; [done|].
  destruct stopped; [done|].
  destruct (SonioxUI.read c); [|done].
  destruct (SonioxUI.send c); [|done]. by rewrite IH.
Qed.

(** X21.  The capture thread of the command-line session does to the
    microphone and to the connection exactly what the capture thread of
    the interface does when its session holds that connection, and ends
    in the same way; it only prints two progress lines besides. *)
Theorem capture_threads_agree (open : result ())
    (script : list SonioxUI.capture) (send_end : result ()) (conn : N)
    (self : SonioxUI.TranscriptionSession) :
  SonioxUI.ws self = Some conn →
  let cli :=
    RealtimeSession.stream_audio_from_mic open script send_end conn
      (SonioxUI.stop_event self) in
  let ui := SonioxUI.stream_audio_from_mic open script send_end self in
  cli.2 = ui.2
  ∧ filter (λ e, is_progress_line e = false) cli.1 = ui.1.
Proof.
  intros Hws. cbn zeta.
  unfold RealtimeSession.stream_audio_from_mic, SonioxUI.stream_audio_from_mic.
  rewrite capture_loops_agree, Hws.
  destruct open as [[]|e]; [|by destruct send_end].
  destruct (capture_loop_frames script (SonioxUI.stop_event self) (Some conn))
    as (k & _ & Heq).
  destruct (SonioxUI.capture_loop script _ _) as [effs exit].
  cbn [fst frames_sent] in Heq. subst effs.
  assert (filter (λ e, is_progress_line e = false)
            (replicate k (SonioxUI.Send_audio conn))
          = replicate k (SonioxUI.Send_audio conn)) as Hframes.
  { induction k as [|k IH]; [done|]. cbn [replicate].
    rewrite filter_cons, decide_True by done. by rewrite IH. }
  assert (∀ e, is_progress_line
                 (SonioxUI.Print
                    (py "Error sending end frame: " ++ str_exn e ++ nl))
               = false) as Hend.
  { intros e. vm_compute. reflexivity. }
  destruct exit; cbn [fst snd]; (split; [done|]);
    rewrite ?filter_app, ?filter_cons, ?Hframes; cbn [app];
    rewrite ?filter_app, ?filter_cons, ?Hframes;
    destruct send_end; rewrite ?Hend;
    repeat (first [rewrite decide_True by (vm_compute; reflexivity)
                  |rewrite decide_False by (vm_compute; discriminate)]);
    rewrite ?filter_nil; by rewrite <- ?app_assoc.
Qed.

Lemma capture_threads_agree_witness :
  (RealtimeSession.stream_audio_from_mic (Ok ())
     [{| SonioxUI.read := Ok (); SonioxUI.send := Ok ();
         SonioxUI.stop_after := true |}]
     (Ok ()) 7 (SonioxUI.stop_event started)).2
  = (SonioxUI.stream_audio_from_mic (Ok ())
       [{| SonioxUI.read := Ok (); SonioxUI.send := Ok ();
           SonioxUI.stop_after := true |}]
       (Ok ()) started).2.
Proof.
  refine (proj1 (capture_threads_agree (Ok ())
                   [{| SonioxUI.read := Ok (); SonioxUI.send := Ok ();
                       SonioxUI.stop_after := true |}]
                   (Ok ()) 7 started _)).
  reflexivity.
Defined.

(** X22.  [get_config] of the multilingual session accepts and rejects the
    audio formats that the command-line session does, with the same
    message, and sends the same entries, except that it hints at English,
    Hindi and Gujarati and sends no context. *)
Theorem multilingual_config_has_no_context (api_key audio_format : pystr) :
  match MultilingualSession.get_config api_key audio_format with
  | Raise e =>
      RealtimeSession.get_config api_key audio_format (py "none") = Raise e
      ∧ e = ValueError (py "Unsupported audio_format: " ++ audio_format)
  | Ok config =>
      (∃ realtime,
         RealtimeSession.get_config api_key audio_format (py "none")
         = Ok realtime
         ∧ ∀ key, key ≠ py "language_hints" → key ≠ py "context" →
                  getitem key config = getitem key realtime)
      ∧ getitem (py "context") config = None
      ∧ getitem (py "language_hints") config
        = Some (PyList [PyStr (py "en"); PyStr (py "hi"); PyStr (py "gu")])
  end.
Proof.
  unfold MultilingualSession.get_config, RealtimeSession.get_config.
  destruct (decide (audio_format = py "auto")) as [->|Hauto];
    [|destruct (decide (audio_format = py "pcm_s16le")) as [->|Hpcm]];
    cbn [mbind result_bind]; [| |done].
  all: rewrite (decide_True (P := py "none" = py "none")) by done.
  all: (split; [|split; vm_compute; reflexivity]).
  all: eexists; (split; [reflexivity|]).
  all: intros key Hhints Hcontext.
  all: rewrite ?getitem_setitem; cbn [getitem].
  all: repeat case_decide; try done; try congruence.
  all: exfalso; subst;
    match goal with H : py _ = py _ |- _ => by vm_compute in H end.
Qed.

(** ** The rendering of the final tokens is stable *)

Lemma for_each_app {A V} (body : V → A → result V) (l1 l2 : list A) (v : V) :
  for_each body (l1 ++ l2) v
  = match for_each body l1 v with
    | Ok v1 => for_each body l2 v1
    | Raise e => Raise e
    end.
Proof.
  revert v. induction l1 as [|x l1 IH]; intros v; cbn [app for_each]; [done|].
  destruct (body v x) as [v1|e]; cbn [mbind result_bind]; [apply IH|done].
Qed.

(** X23.  Whatever is rendered from a list of final tokens is the beginning of
    everything rendered later, when more final tokens and any non-final
    tokens follow: text that has been shown for final tokens is never
    rewritten. *)
Theorem final_rendering_is_stable
    (final_tokens more non_final_tokens : list Token) (later : pystr) :
  SonioxUI.render_tokens (final_tokens ++ more) non_final_tokens = Ok later →
  ∃ now,
    SonioxUI.render_tokens final_tokens [] = Ok now ∧ now `prefix_of` later.
Proof.
  unfold SonioxUI.render_tokens, SonioxUI.render_parts.
  rewrite app_nil_r, <- app_assoc, for_each_app.
  destruct (for_each SonioxUI.render_body final_tokens _) as [v1|e]; [|done].
  destruct (for_each SonioxUI.render_body (more ++ non_final_tokens) v1)
    as [v2|e] eqn:Hrest; [|done].
  cbn. intros [= <-]. eexists. split; [done|].
  apply render_loop_texts in Hrest as (added & -> & _).
  rewrite join_parts_app. by apply prefix_app_r.
Qed.

Lemma final_rendering_is_stable_witness :
  ∃ now,
    SonioxUI.render_tokens (take 2 en_en_hi_hi) [] = Ok now
    ∧ now `prefix_of`
        py "Speaker 1:" ++ nl ++ py "[en] Hello friends" ++ nl
          ++ py "[hi] namaste dosto".
Proof.
  apply (final_rendering_is_stable (take 2 en_en_hi_hi) [] (drop 2 en_en_hi_hi)).
  vm_compute. reflexivity.
Defined.

(** ** When the response stream ends by itself *)

Lemma process_loop_until_end (upper : pystr → pystr)
    (script : list Gcloud.arrival) (prev : option pystr)
    (self : Gcloud.TranscriptionManager) :
  Gcloud.is_recording self = true → Forall undisturbed script →
  let r := Gcloud.process_loop upper (script ++ [stream_ends]) prev self in
  r.2 = Break ∧ Gcloud.is_recording r.1 = true
  ∧ Gcloud.stream r.1 = Gcloud.stream self.
Proof.
  intros Hrec Hall. cbn zeta. revert prev self Hrec.
  induction Hall as [|a script [Hstop [response Hnext]] _ IH];
    intros prev self Hrec; [done|].
  cbn [app Gcloud.process_loop]. rewrite Hstop, Hnext, Hrec. cbn [negb].
  destruct (Gcloud.results response) as [|result results']; [by apply IH|].
  destruct (Gcloud.alternatives result) as [|alternative alternatives'];
    [by apply IH|].
  cbn zeta.
  match goal with
  | |- context [Gcloud.process_loop upper _ ?p ?s] =>
      destruct (IH p s) as (-> & -> & ->)
  end.
  - repeat split.
    unfold Gcloud.note_transcript, Gcloud.note_language.
    repeat match goal with
           | |- context [if ?b then _ else _] => destruct b
           end; done.
  - unfold Gcloud.note_transcript, Gcloud.note_language.
    repeat match goal with
           | |- context [if ?b then _ else _] => destruct b
           end; done.
Qed.

(** X24.  When the response stream ends by itself while nobody has stopped the
    session, [_transcribe] returns with the microphone stream closed but
    leaves the manager recording: until the stop button is pressed,
    [start_transcription] finds it already recording and resets
    nothing. *)
Theorem ended_stream_leaves_manager_recording (upper : pystr → pystr)
    (now : Z) (script : list Gcloud.arrival)
    (self : Gcloud.TranscriptionManager) :
  Gcloud.is_recording self = true → Forall undisturbed script →
  let r :=
    Gcloud._transcribe upper (Ok ()) (Ok ()) (script ++ [stream_ends]) self in
  r.2 = Break
  ∧ Gcloud.is_recording r.1 = true
  ∧ Gcloud.stream r.1 = Some true
  ∧ Gcloud.start_transcription now r.1 = r.1.
Proof.
  intros Hrec Hall. cbn zeta.
  unfold Gcloud._transcribe, Gcloud._process_responses.
  destruct (process_loop_until_end upper script None
              (Gcloud.set_stream (Some false) self)) as (Hexit & Hrec' & _);
    [done|done|].
  cbn zeta in Hexit, Hrec'.
  destruct (Gcloud.process_loop upper (script ++ [stream_ends]) None _)
    as [self' exit].
  cbn [fst snd] in *. subst exit. cbn [fst snd].
  repeat split; [done|].
  unfold Gcloud.start_transcription.
  cbn [Gcloud.set_stream Gcloud.is_recording]. by rewrite Hrec'.
Qed.

Lemma ended_stream_leaves_manager_recording_witness :
  Gcloud.is_recording
    (Gcloud._transcribe (λ s, s) (Ok ()) (Ok ())
       (hello_then_namaste ++ [stream_ends]) recording).1
  = true.
Proof.
  refine (proj1 (proj2
    (ended_stream_leaves_manager_recording (λ s, s) 0%Z hello_then_namaste
       recording _ _))).
  - reflexivity.
  - repeat constructor; by eexists.
Defined.

(** ** The message in flight when the session is stopped *)

(** X25.  The two interfaces treat the message that arrives while the
    session is being stopped differently.  The Soniox receive thread
    tests the stop event before it waits, so a response that arrives
    after [stop] has set the event is still taken into the final tokens
    and the transcript, and the thread ends after it.  The Google Cloud
    loop tests [is_recording] after the response has arrived, so that
    response is dropped and the manager is left as it was. *)
Theorem stop_and_the_message_in_flight (upper : pystr → pystr)
    (res : Response) (more : list SonioxUI.arrival)
    (self : SonioxUI.TranscriptionSession)
    (a : Gcloud.arrival) (response : Gcloud.StreamingRecognizeResponse)
    (others : list Gcloud.arrival) (prev : option pystr)
    (manager : Gcloud.TranscriptionManager) :
  Forall has_text (SonioxUI.final_tokens self) →
  SonioxUI.stop_event self = false → error_code res = None →
  Gcloud.stop_meanwhile a = true → Gcloud.next a = Gcloud.Next response →
  let r :=
    SonioxUI.receive_loop
      ({| SonioxUI.stop_meanwhile := true; SonioxUI.outcome := Message res |}
         :: more) self in
  r.2 = Break
  ∧ SonioxUI.final_tokens r.1 = SonioxUI.final_tokens self ++ finals res
  ∧ SonioxUI.render_tokens (SonioxUI.final_tokens r.1) (interims res)
    = Ok (SonioxUI.current_transcript r.1)
  ∧ Gcloud.process_loop upper (a :: others) prev manager
    = (Gcloud.set_is_recording false manager, Break).
Proof.
  intros Hinv Hstop Herr Hstopped Hnext. cbn zeta.
  destruct (render_tokens_total (SonioxUI.final_tokens self ++ finals res)
              (interims res)) as [txt Htxt].
  { apply Forall_app. split; [done|apply finals_have_text]. }
  { apply interims_have_text. }
  assert (SonioxUI.receive_loop
            ({| SonioxUI.stop_meanwhile := true;
                SonioxUI.outcome := Message res |} :: more) self
          = (SonioxUI.set_current_transcript txt
               (SonioxUI.set_final_tokens
                  (SonioxUI.final_tokens self ++ finals res)
                  (SonioxUI.set_stop_event true self)), Break)) as ->.
  { rewrite receive_loop_cons by done.
    cbn [SonioxUI.stop_meanwhile SonioxUI.outcome]. cbn zeta. rewrite Herr.
    cbn [SonioxUI.set_stop_event SonioxUI.final_tokens]. rewrite Htxt.
    destruct (finished res); [done|].
    by destruct more. }
  cbn [fst snd SonioxUI.set_current_transcript SonioxUI.set_final_tokens
         SonioxUI.final_tokens SonioxUI.current_transcript].
  repeat split; [done|].
  cbn [Gcloud.process_loop]. by rewrite Hstopped, Hnext.
Qed.

Lemma stop_and_the_message_in_flight_witness :
  SonioxUI.final_tokens
    (SonioxUI.receive_loop
       ({| SonioxUI.stop_meanwhile := true;
           SonioxUI.outcome := Message (batch [plain (py "bye") true]) |}
          :: []) started).1
  = SonioxUI.final_tokens started ++ finals (batch [plain (py "bye") true]).
Proof.
  refine (proj1 (proj2
    (stop_and_the_message_in_flight (λ s, s) (batch [plain (py "bye") true]) []
       started
       {| Gcloud.stop_meanwhile := true;
          Gcloud.next := Gcloud.Next (one_result (py "en-US") (py "bye") true);
          Gcloud.speech_clock := 1; Gcloud.update_clock := 2 |}
       (one_result (py "en-US") (py "bye") true) [] None recording
       _ _ _ _ _))).
  - apply Forall_nil_2.
  - reflexivity.
  - reflexivity.
  - reflexivity.
  - reflexivity.
Defined.
